(** * Genesis: cross-platform installation orchestration

    A shallow embedding of the TypeScript sources of Genesis (the
    installation service, the package-manager adapters, the shell wrapper,
    the privilege helpers and the environment managers) together with the
    properties stated about them.

    Conventions of the embedding.
    - JavaScript strings are [string]s holding the UTF-8 form of the text.
      [JS.length] and [JS.substring] count in UTF-16 code units as
      JavaScript does. [JS.toLowerCase] folds the letters A to Z and the
      class [\s] is the ASCII white space: they serve where the sources
      look for ASCII words in a text. The lower-casing of Windows paths,
      which are compared as wholes, is the one of the runtime
      ([sys_toLowerCase] of class [Sys]).
    - [process.env] and the files reached through [fs] are finite maps.
    - Everything outside the process (child processes, the user answering
      prompts, the clock) is an oracle over an abstract world [W]
      (class [Sys]).
    - Asynchronous code is sequential (every call is awaited), so a method
      is a function from the state to a result and a new state; a thrown
      error is a result. *)

From Stdlib Require Import ZArith NArith Ascii String List Bool Lia DecimalString.
From stdpp Require Import base option list gmap strings.

Local Open Scope string_scope.

(** ** JavaScript string helpers *)

Module JS.

(** The double quote, which the sources embed in commands and rc lines. *)
Definition dq : string := String "034"%char EmptyString.

(** [s.startsWith(p)] *)
Fixpoint startsWith (s p : string) : bool :=
  match p, s with
  | EmptyString, _ => true
  | String _ _, EmptyString => false
  | String a p', String b s' => if Ascii.eqb a b then startsWith s' p' else false
  end.

(** [s.includes(sub)] *)
Fixpoint includes (s sub : string) : bool :=
  if startsWith s sub then true
  else match s with
       | EmptyString => false
       | String _ s' => includes s' sub
       end.

(** [s.endsWith(p)] *)
Fixpoint endsWith (s p : string) : bool :=
  if String.eqb s p then true
  else match s with
       | EmptyString => false
       | String _ s' => endsWith s' p
       end.

(** [s.split(sep)] for a separator of one character: the empty string
    splits into one empty piece. *)
Fixpoint split (sep : ascii) (s : string) : list string :=
  match s with
  | EmptyString => [EmptyString]
  | String c s' =>
      if Ascii.eqb c sep then EmptyString :: split sep s'
      else match split sep s' with
           | h :: t => String c h :: t
           | [] => [String c EmptyString]
           end
  end.

(** [arr.includes(x)] on an array of strings *)
Definition arrIncludes (l : list string) (x : string) : bool :=
  existsb (String.eqb x) l.

(** [arr.join(sep)] *)
Fixpoint join (sep : string) (l : list string) : string :=
  match l with
  | [] => EmptyString
  | [x] => x
  | x :: t => x ++ sep ++ join sep t
  end.

Definition lowerChar (c : ascii) : ascii :=
  let n := nat_of_ascii c in
  if (65 <=? n)%nat && (n <=? 90)%nat then ascii_of_nat (n + 32) else c.

Fixpoint mapChars (f : ascii -> ascii) (s : string) : string :=
  match s with
  | EmptyString => EmptyString
  | String c s' => String (f c) (mapChars f s')
  end.

(** [s.toLowerCase()] of a text in which the sources then look for ASCII
    words: the letters A to Z are folded. *)
Definition toLowerCase (s : string) : string := mapChars lowerChar s.

(** [s.replace(/\//g, "\\")] *)
Definition slashToBackslash (c : ascii) : ascii :=
  if Ascii.eqb c "/"%char then "\"%char else c.

Definition replaceSlashes (s : string) : string := mapChars slashToBackslash s.

(** The class [\s] on ASCII: tab, line feed, vertical tab, form feed,
    carriage return, space. *)
Definition isSpace (c : ascii) : bool :=
  let n := nat_of_ascii c in
  ((9 <=? n)%nat && (n <=? 13)%nat) || (n =? 32)%nat.

Fixpoint trimStart (s : string) : string :=
  match s with
  | EmptyString => EmptyString
  | String c s' => if isSpace c then trimStart s' else s
  end.

Fixpoint trimEnd (s : string) : string :=
  match s with
  | EmptyString => EmptyString
  | String c s' =>
      match trimEnd s' with
      | EmptyString => if isSpace c then EmptyString else String c EmptyString
      | r => String c r
      end
  end.

(** [s.trim()] *)
Definition trim (s : string) : string := trimEnd (trimStart s).

(** The leading run of white space of [s] and what follows it. *)
Fixpoint spanSpaces (s : string) : string * string :=
  match s with
  | EmptyString => (EmptyString, EmptyString)
  | String c s' =>
      if isSpace c then let '(w, r) := spanSpaces s' in (String c w, r)
      else (EmptyString, s)
  end.

(** [s.replace(/^sudo\s+/, "")] *)
Definition stripLeadingSudo (s : string) : string :=
  match s with
  | String "s" (String "u" (String "d" (String "o" r))) =>
      match spanSpaces r with
      | (EmptyString, _) => s
      | (_, r') => r'
      end
  | _ => s
  end.

(** [s.slice(n)] and [s.slice(0, n)] *)
Fixpoint drop (n : nat) (s : string) : string :=
  match n, s with
  | O, _ => s
  | S n', String _ s' => drop n' s'
  | S _, EmptyString => EmptyString
  end.

Fixpoint take (n : nat) (s : string) : string :=
  match n, s with
  | O, _ => EmptyString
  | S n', String c s' => String c (take n' s')
  | S _, EmptyString => EmptyString
  end.

(** A character of one to three bytes is one UTF-16 code unit and a
    character of four bytes is two (a surrogate pair); the bytes after the
    first of a character start with the bits 10. *)
Definition isContinuation (c : ascii) : bool :=
  let n := nat_of_ascii c in
  (128 <=? n)%nat && (n <? 192)%nat.

Definition isLead4 (c : ascii) : bool := (240 <=? nat_of_ascii c)%nat.

(** [s.length] *)
Fixpoint length (s : string) : nat :=
  match s with
  | EmptyString => 0
  | String c s' =>
      if isContinuation c then length s'
      else if isLead4 c then S (S (length s'))
      else S (length s')
  end.

(** The first half of the surrogate pair of the four-byte character that
    starts with the bytes [b0 b1 b2], as the three bytes that UTF-8 would
    give to a code point of that value. *)
Definition highSurrogate (b0 b1 b2 : ascii) : string :=
  let top := ((nat_of_ascii b0 mod 8) * 256 + (nat_of_ascii b1 mod 64) * 4
              + (nat_of_ascii b2 mod 64) / 16 - 64) mod 1024 in
  String (ascii_of_nat 237)
    (String (ascii_of_nat (160 + top / 64))
       (String (ascii_of_nat (128 + top mod 64)) EmptyString)).

(** [s.substring(0, n)]: the first [n] code units of [s]. A cut between
    the two halves of a surrogate pair keeps the first half. *)
Fixpoint substring (n : nat) (s : string) : string :=
  match s with
  | EmptyString => EmptyString
  | String c s' =>
      if isContinuation c then String c (substring n s')
      else
        match n with
        | O => EmptyString
        | S n' =>
            if isLead4 c then
              match n' with
              | O =>
                  match s' with
                  | String b1 (String b2 _) => highSurrogate c b1 b2
                  | _ => EmptyString
                  end
              | S n'' => String c (substring n'' s')
              end
            else String c (substring n' s')
        end
  end.

(** One attempt of the pattern [(install\s+)([^-])] at the start of [s]:
    the two groups and the rest. The run of white space is greedy and gives
    back its last character to the second group when a dash (or the end of
    the string) follows it. *)
Definition matchInstallHere (s : string) : option (string * string * string) :=
  if startsWith s "install" then
    let '(w, r) := spanSpaces (drop 7 s) in
    match w with
    | EmptyString => None
    | _ =>
        match r with
        | String c r' =>
            if Ascii.eqb c "-"%char then
              match String.length w with
              | S (S n) => Some ("install" ++ take (S n) w, drop (S n) w, r)
              | _ => None
              end
            else Some ("install" ++ w, String c EmptyString, r')
        | EmptyString =>
            match String.length w with
            | S (S n) => Some ("install" ++ take (S n) w, drop (S n) w, r)
            | _ => None
            end
        end
    end
  else None.

(** [s.replace(/(install\s+)([^-])/, "$1-y $2")]: the first match only. *)
Fixpoint insertYesFlag (s : string) : string :=
  match matchInstallHere s with
  | Some (g1, g2, rest) => g1 ++ "-y " ++ g2 ++ rest
  | None =>
      match s with
      | EmptyString => EmptyString
      | String c s' => String c (insertYesFlag s')
      end
  end.

(** [s.trim().split(/\s+/)] of a string: its words. For a string of white
    space only JavaScript gives one empty word. *)
Fixpoint words (s : string) : list string :=
  match s with
  | EmptyString => []
  | String c s' =>
      if isSpace c then words s'
      else
        match s' with
        | String d _ =>
            if isSpace d then String c EmptyString :: words s'
            else match words s' with
                 | h :: t => String c h :: t
                 | [] => [String c EmptyString]
                 end
        | EmptyString => [String c EmptyString]
        end
  end.

Definition splitWords (s : string) : list string :=
  match words (trim s) with
  | [] => [EmptyString]
  | l => l
  end.

(** [n.toString()] of a natural number *)
Definition natToString (n : N) : string :=
  NilZero.string_of_uint (N.to_uint n).

(** [`${ms / 1000}`]: the decimal numeral of [ms / 1000], a whole number
    when [ms] is a multiple of 1000 and otherwise with the one to three
    decimals it needs (exact for the values below 10^15 that a timeout can
    take). *)
Definition pad3 (n : N) : string :=
  let d := natToString n in
  match String.length d with
  | 1%nat => "00" ++ d
  | 2%nat => "0" ++ d
  | _ => d
  end.

Fixpoint dropTrailingZeros (s : string) : string :=
  match s with
  | EmptyString => EmptyString
  | String c s' =>
      match dropTrailingZeros s' with
      | EmptyString => if Ascii.eqb c "0"%char then EmptyString else String c EmptyString
      | r => String c r
      end
  end.

Definition millisAsSeconds (ms : N) : string :=
  let q := N.div ms 1000 in
  let r := N.modulo ms 1000 in
  if N.eqb r 0 then natToString q
  else natToString q ++ "." ++ dropTrailingZeros (pad3 r).

End JS.

(** ** Domain: operating systems, tools, categories *)

Module Domain.

(** [OperatingSystem = 'macos' | 'windows' | 'linux'] *)
Inductive OperatingSystem := macos | windows | linux.

Definition os_eqb (a b : OperatingSystem) : bool :=
  match a, b with
  | macos, macos | windows, windows | linux, linux => true
  | _, _ => false
  end.

(** [mapPlatformToOS] of the OS detector. *)
Definition mapPlatformToOS (platform : string) : option OperatingSystem :=
  if String.eqb platform "darwin" then Some macos
  else if String.eqb platform "win32" then Some windows
  else if String.eqb platform "linux" then Some linux
  else None.

Record InstallationCommands := {
  cmd_macos : option string;
  cmd_windows : option string;
  cmd_linux : option string;
}.

Record Tool := {
  id : string;
  name : string;
  checkCommand : string;
  installCommands : InstallationCommands;
  categoryId : string;
  description : option string;
  isGUI : option bool;
}.

(** [tool.installCommands[os]] *)
Definition commandFor (c : InstallationCommands) (os : OperatingSystem) : option string :=
  match os with
  | macos => cmd_macos c
  | windows => cmd_windows c
  | linux => cmd_linux c
  end.

(** [getInstallCommand(tool, os)] *)
Definition getInstallCommand (tool : Tool) (os : OperatingSystem) : option string :=
  match os with
  | macos => cmd_macos (installCommands tool)
  | windows => cmd_windows (installCommands tool)
  | linux => cmd_linux (installCommands tool)
  end.

(** [x !== undefined] *)
Definition defined {A} (o : option A) : bool :=
  match o with Some _ => true | None => false end.

(** A string is truthy when it is not empty; an optional flag is truthy
    when it is present and true. *)
Definition truthyStr (s : string) : bool :=
  match s with EmptyString => false | _ => true end.

Definition truthyOptStr (o : option string) : bool :=
  match o with Some s => truthyStr s | None => false end.

Definition truthyFlag (o : option bool) : bool :=
  match o with Some b => b | None => false end.

(** [validateTool(tool)] *)
Definition validateTool (tool : Tool) : bool :=
  truthyOptStr (cmd_macos (installCommands tool))
  || truthyOptStr (cmd_windows (installCommands tool))
  || truthyOptStr (cmd_linux (installCommands tool)).

Record Category := {
  cat_id : string;
  cat_name : string;
  cat_description : option string;
  tools : list Tool;
  allowsMultipleSelection : bool;
  order : option Z;
}.

(** [findToolInCategory(category, toolId)] *)
Definition findToolInCategory (category : Category) (toolId : string) : option Tool :=
  find (fun t => String.eqb (id t) toolId) (tools category).

(** A category with another array of tools. *)
Definition withTools (category : Category) (l : list Tool) : Category :=
  {| cat_id := cat_id category;
     cat_name := cat_name category;
     cat_description := cat_description category;
     tools := l;
     allowsMultipleSelection := allowsMultipleSelection category;
     order := order category |}.

(** [addToolToCategory(category, tool)]: the category after the call; the
    tool is pushed unless a tool with its id is there. *)
Definition addToolToCategory (category : Category) (tool : Tool) : Category :=
  match find (fun t => String.eqb (id t) (id tool)) (tools category) with
  | Some _ => category
  | None => withTools category (tools category ++ [tool])
  end.

(** [arr.findIndex(f)]: [None] is the source's [-1]. *)
Fixpoint findIndex {A} (f : A -> bool) (l : list A) : option nat :=
  match l with
  | [] => None
  | x :: rest => if f x then Some O else option_map S (findIndex f rest)
  end.

(** [arr.splice(index, 1)]: the array without the element at [index]. *)
Definition spliceOne {A} (index : nat) (l : list A) : list A :=
  firstn index l ++ skipn (S index) l.

(** [removeToolFromCategory(category, toolId)]: what it returns and the
    category after the call. *)
Definition removeToolFromCategory (category : Category) (toolId : string)
  : bool * Category :=
  match findIndex (fun t => String.eqb (id t) toolId) (tools category) with
  | Some index => (true, withTools category (spliceOne index (tools category)))
  | None => (false, category)
  end.

(** [findToolById(toolId)] over the catalog [allTools]. *)
Definition findToolById (allTools : list Tool) (toolId : string) : option Tool :=
  find (fun tool => String.eqb (id tool) toolId) allTools.

(** The callback given to [categories.map] in [filterCategoriesByOS]:
    [None] is the source's [null]. *)
Definition filterCategory (os : OperatingSystem) (category : Category) : option Category :=
  if String.eqb (cat_id category) "ios" && negb (os_eqb os macos) then None
  else
    let filteredTools :=
      List.filter (fun tool => defined (commandFor (installCommands tool) os)) (tools category) in
    if (List.length filteredTools =? 0)%nat then None
    else Some {| cat_id := cat_id category;
                 cat_name := cat_name category;
                 cat_description := cat_description category;
                 tools := filteredTools;
                 allowsMultipleSelection := allowsMultipleSelection category;
                 order := order category |}.

(** [filterCategoriesByOS(categories, os)]: map, then drop the nulls. *)
Definition filterCategoriesByOS (categories : list Category) (os : OperatingSystem)
  : list Category :=
  omap (fun c => c) (map (filterCategory os) categories).

(** [processCategorySelection(category, selectedValues)] of the CLI: the
    ids the user picked that belong to the category. *)
Definition processCategorySelection (category : Category) (selectedValues : list string)
  : list string :=
  if JS.arrIncludes selectedValues "__install_all__" then map id (tools category)
  else if JS.arrIncludes selectedValues "__skip__" || (List.length selectedValues =? 0)%nat
  then []
  else
    List.filter (fun value =>
              negb (String.eqb value "__install_all__")
              && negb (String.eqb value "__skip__")
              && defined (find (fun t => String.eqb (id t) value) (tools category)))
           selectedValues.

(** [toolsToInstall] of [main]: the selected ids looked up in the catalog,
    the unknown ones dropped. *)
Definition toolsToInstall (allTools : list Tool) (selectedToolIds : list string) : list Tool :=
  omap (findToolById allTools) selectedToolIds.

End Domain.

(** ** The process, its outside world and the monad of methods *)

Module Proc.
Import Domain.

(** What [child_process.exec] / [execSync] gives for a command run to its
    end: the two outputs on exit code 0, otherwise an error object with an
    optional [code], optional outputs and a message. *)
Inductive ExecOutcome :=
| ExecOk (stdout stderr : string)
| ExecErr (code : option Z) (stdout stderr : option string) (message : string).

(** What a child started with [spawn] and inherited stdio does when left
    alone: it closes after some milliseconds with an exit code ([None] when
    it died of a signal), it fails to run, or it never ends. *)
Inductive ChildBehaviour :=
| Closes (afterMs : N) (code : option Z)
| Errors (afterMs : N) (message : string)
| Hangs.

(** The end of a foreground child that is waited for without a limit. *)
Inductive SpawnEnd :=
| Closed (code : option Z)
| Errored (message : string).

(** The oracles. [W] is the state of everything outside the process. *)
Class Sys (W : Type) := {
  (** run a shell command (in a working directory) to its end *)
  sys_exec : string -> option string -> W -> ExecOutcome * W;
  (** start a child that is sent SIGTERM after [limit] milliseconds *)
  sys_spawn : string -> N -> W -> ChildBehaviour * W;
  (** start a foreground child ([sudo -v]) and wait for it *)
  sys_spawn_wait : string -> list string -> W -> SpawnEnd * W;
  (** [p.confirm]: [None] is a cancelled prompt *)
  sys_confirm : string -> W -> option bool * W;
  (** [p.select]: the chosen value, [None] is a cancelled prompt *)
  sys_select : string -> W -> option string * W;
  (** [Date.now()] *)
  sys_now : W -> Z;
  (** [(ms / 1000).toFixed(1)], the platform's rounding of a float *)
  sys_toFixed1 : Z -> string;
  (** [s.toLowerCase()], the case mapping of the runtime *)
  sys_toLowerCase : string -> string;
}.

(** Thrown values: plain [Error]s (with their [name]) and [ShellError]s. *)
Inductive Exn :=
| Error (name message : string)
| ShellError (message : string) (exitCode : Z) (command stdout stderr : string).

(** [error instanceof Error ? error.message : String(error)] *)
Definition exnMessage (e : Exn) : string :=
  match e with
  | Error _ m => m
  | ShellError m _ _ _ _ => m
  end.

Definition mkError (message : string) : Exn := Error "Error" message.

Inductive ShellKind := bash | zsh | fish | powershell | cmd | unknown.

Record ShellInfo := {
  shell : ShellKind;
  configFile : string;
  si_os : OperatingSystem;
}.

(** The classes that implement [IPackageManager], and an instance: the
    class and the identity of the object. *)
Inductive AdapterClass := HomebrewAdapterC | WinGetAdapterC | LinuxInstallerC.

Record Adapter := {
  adapterClass : AdapterClass;
  adapterId : nat;
}.

Inductive LogLevel := LInfo | LWarn | LError | LSuccess | LStep | LConsole | LConsoleWarn.

(** What the process does that can be seen from outside, and (the last two
    constructors) the creation and the use of adapter objects. *)
Inductive Event :=
| EvExec (command : string)
| EvSpawn (command : string)
| EvKill (signal : string)
| EvConfirm (message : string) (answer : option bool)
| EvSelect (message : string) (answer : option string)
| EvLog (level : LogLevel) (message : string)
| EvNew (a : Adapter)
| EvCall (a : Adapter) (method : string).

(** The handle kept in [SudoExecutor.keepAliveStop]: the no-op of Windows
    or the stop function of an interval timer. *)
Inductive KeepAlive := NoOpStop | IntervalStop (intervalMs : N).

(** The result of a method: a value or a thrown error. *)
Inductive Res (A : Type) :=
| Ok (a : A)
| Throw (e : Exn).
Arguments Ok {A} a.
Arguments Throw {A} e.

Section State.
Context {W : Type}.

Record State := mkState {
  world : W;
  platform : string;                  (* process.platform *)
  uid : option Z;                     (* process.getuid?.() *)
  home : string;                      (* os.homedir() *)
  env : gmap string string;           (* process.env *)
  files : gmap string string;         (* the files, by path *)
  readOnly : gset string;             (* paths whose writes fail *)
  trace : list Event;                 (* newest first *)
  keepAliveStop : option KeepAlive;   (* SudoExecutor.keepAliveStop *)
  exitHandlers : nat;                 (* process.on("exit", ...) so far *)
  shellInfo : option ShellInfo;       (* UnixEnvironmentManager.shellInfo *)
  packageManager : option Adapter;    (* InstallationService.packageManager *)
  aptUpdateExecuted : gmap nat bool;  (* LinuxInstaller.aptUpdateExecuted, by object *)
  nextId : nat;                       (* the next object identity *)
}.

Definition setWorld (w : W) (s : State) : State :=
  mkState w (platform s) (uid s) (home s) (env s) (files s) (readOnly s) (trace s)
    (keepAliveStop s) (exitHandlers s) (shellInfo s) (packageManager s)
    (aptUpdateExecuted s) (nextId s).

Definition setEnv (e : gmap string string) (s : State) : State :=
  mkState (world s) (platform s) (uid s) (home s) e (files s) (readOnly s) (trace s)
    (keepAliveStop s) (exitHandlers s) (shellInfo s) (packageManager s)
    (aptUpdateExecuted s) (nextId s).

Definition setFiles (f : gmap string string) (s : State) : State :=
  mkState (world s) (platform s) (uid s) (home s) (env s) f (readOnly s) (trace s)
    (keepAliveStop s) (exitHandlers s) (shellInfo s) (packageManager s)
    (aptUpdateExecuted s) (nextId s).

Definition setTrace (t : list Event) (s : State) : State :=
  mkState (world s) (platform s) (uid s) (home s) (env s) (files s) (readOnly s) t
    (keepAliveStop s) (exitHandlers s) (shellInfo s) (packageManager s)
    (aptUpdateExecuted s) (nextId s).

Definition setKeepAlive (k : option KeepAlive) (n : nat) (s : State) : State :=
  mkState (world s) (platform s) (uid s) (home s) (env s) (files s) (readOnly s) (trace s)
    k n (shellInfo s) (packageManager s) (aptUpdateExecuted s) (nextId s).

Definition setShellInfo (i : option ShellInfo) (s : State) : State :=
  mkState (world s) (platform s) (uid s) (home s) (env s) (files s) (readOnly s) (trace s)
    (keepAliveStop s) (exitHandlers s) i (packageManager s)
    (aptUpdateExecuted s) (nextId s).

Definition setPackageManager (p : option Adapter) (s : State) : State :=
  mkState (world s) (platform s) (uid s) (home s) (env s) (files s) (readOnly s) (trace s)
    (keepAliveStop s) (exitHandlers s) (shellInfo s) p
    (aptUpdateExecuted s) (nextId s).

Definition setAptUpdateExecuted (h : gmap nat bool) (s : State) : State :=
  mkState (world s) (platform s) (uid s) (home s) (env s) (files s) (readOnly s) (trace s)
    (keepAliveStop s) (exitHandlers s) (shellInfo s) (packageManager s) h (nextId s).

Definition setNextId (n : nat) (s : State) : State :=
  mkState (world s) (platform s) (uid s) (home s) (env s) (files s) (readOnly s) (trace s)
    (keepAliveStop s) (exitHandlers s) (shellInfo s) (packageManager s)
    (aptUpdateExecuted s) n.

(** *** The monad: state and thrown errors *)

Definition M (A : Type) : Type := State -> Res A * State.

Definition ret {A} (a : A) : M A := fun s => (Ok a, s).

Definition throw {A} (e : Exn) : M A := fun s => (Throw e, s).

Definition bind {A B} (m : M A) (k : A -> M B) : M B :=
  fun s => match m s with
           | (Ok a, s') => k a s'
           | (Throw e, s') => (Throw e, s')
           end.

(** [try { m } catch (error) { h error }] *)
Definition tryCatch {A} (m : M A) (h : Exn -> M A) : M A :=
  fun s => match m s with
           | (Ok a, s') => (Ok a, s')
           | (Throw e, s') => h e s'
           end.

Definition get : M State := fun s => (Ok s, s).

Definition gets {A} (f : State -> A) : M A := fun s => (Ok (f s), s).

Definition modify (f : State -> State) : M unit := fun s => (Ok tt, f s).

Definition emit (e : Event) : M unit :=
  modify (fun s => setTrace (e :: trace s) s).

(** [for (const x of l) { body x }] *)
Fixpoint forEach {A} (l : list A) (body : A -> M unit) : M unit :=
  match l with
  | [] => ret tt
  | x :: t => bind (body x) (fun _ => forEach t body)
  end.

End State.

Arguments State W : clear implicits.
Arguments M W A : clear implicits.

Declare Scope js_scope.
Delimit Scope js_scope with js.
Notation "'let*' x ':=' m 'in' k" := (bind m (fun x => k))
  (at level 10, x name, m at level 100, k at level 200) : js_scope.
Notation "m ;; k" := (bind m (fun _ => k))
  (at level 100, k at level 200, right associativity) : js_scope.

End Proc.

(** ** Node primitives: child processes, prompts, the log, the files *)

Module Node.
Import Domain Proc.
Local Open Scope js_scope.

Section Node.
Context {W : Type} `{Sys W}.

(** [exec] (promisified) and [execSync]: the command runs to its end. *)
Definition execCommand (command : string) (cwd : option string) : M W ExecOutcome :=
  fun s =>
    let '(o, w) := sys_exec command cwd (world s) in
    (Ok o, setTrace (EvExec command :: trace s) (setWorld w s)).

(** [execSync(command, ...)] where only success matters *)
Definition execSyncOk (command : string) : M W bool :=
  let* o := execCommand command None in
  match o with
  | ExecOk _ _ => ret true
  | ExecErr _ _ _ _ => ret false
  end.

(** [spawn(...)] of a shell command, to be stopped after [limit] ms *)
Definition spawnTimed (command : string) (limit : N) : M W ChildBehaviour :=
  fun s =>
    let '(b, w) := sys_spawn command limit (world s) in
    (Ok b, setTrace (EvSpawn command :: trace s) (setWorld w s)).

(** [spawn(file, args, { stdio: "inherit" })], waited for *)
Definition spawnWait (file : string) (args : list string) : M W SpawnEnd :=
  fun s =>
    let '(e, w) := sys_spawn_wait file args (world s) in
    (Ok e, setTrace (EvSpawn (JS.join " " (file :: args)) :: trace s) (setWorld w s)).

(** [p.confirm({ message, ... })] *)
Definition confirm (message : string) : M W (option bool) :=
  fun s =>
    let '(a, w) := sys_confirm message (world s) in
    (Ok a, setTrace (EvConfirm message a :: trace s) (setWorld w s)).

(** [p.select({ message, options })] *)
Definition select (message : string) : M W (option string) :=
  fun s =>
    let '(a, w) := sys_select message (world s) in
    (Ok a, setTrace (EvSelect message a :: trace s) (setWorld w s)).

(** [p.isCancel(x) || !x] for the answer of a [confirm] *)
Definition cancelledOrNo (a : option bool) : bool :=
  match a with
  | Some true => false
  | _ => true
  end.

(** [p.log.*] and [console.*] *)
Definition log (level : LogLevel) (message : string) : M W unit :=
  emit (EvLog level message).

(** [Date.now()] *)
Definition now : M W Z := gets (fun s => sys_now (world s)).

(** [process.platform] through [getCurrentOS()]: Linux is the fallback. *)
Definition getCurrentOS : M W OperatingSystem :=
  gets (fun s => match mapPlatformToOS (platform s) with
                 | Some os => os
                 | None => linux
                 end).

(** [process.env[name] || ""] *)
Definition envOrEmpty (name : string) : M W string :=
  gets (fun s => match env s !! name with Some v => v | None => EmptyString end).

(** [process.env[name] = value] *)
Definition setEnvVar (name value : string) : M W unit :=
  modify (fun s => setEnv (<[name := value]> (env s)) s).

(** [existsSync(path)] *)
Definition existsSync (path : string) : M W bool :=
  gets (fun s => Domain.defined (files s !! path)).

(** [readFileSync(path, "utf-8")] *)
Definition readFileSync (path : string) : M W string :=
  fun s => match files s !! path with
           | Some c => (Ok c, s)
           | None => (Throw (mkError ("ENOENT: no such file or directory, open '" ++ path ++ "'")), s)
           end.

(** [appendFileSync(path, data)]: the file is created when missing. *)
Definition appendFileSync (path data : string) : M W unit :=
  fun s =>
    if bool_decide (path ∈ readOnly s) then
      (Throw (mkError ("EACCES: permission denied, open '" ++ path ++ "'")), s)
    else
      let old := match files s !! path with Some c => c | None => EmptyString end in
      (Ok tt, setFiles (<[path := old ++ data]> (files s)) s).

End Node.
End Node.

(** ** The shell wrapper *)

Module ShellWrapper.
Import Domain Proc Node.
Local Open Scope js_scope.

Record ShellOptions := {
  verbose : option bool;
  silent : option bool;
  cwd : option string;
}.

Record InteractiveOptions := {
  i_cwd : option string;
  timeout : option N;
}.

Record ShellResult := {
  exitCode : Z;
  stdout : string;
  stderr : string;
  command : string;
}.

(** [error.code || 1] *)
Definition codeOr1 (code : option Z) : Z :=
  match code with
  | Some c => if Z.eqb c 0 then 1%Z else c
  | None => 1%Z
  end.

(** [error.stdout?.trim() || ""] *)
Definition trimOrEmpty (o : option string) : string :=
  match o with
  | Some s => JS.trim s
  | None => EmptyString
  end.

Definition zToString (z : Z) : string := NilZero.string_of_int (Z.to_int z).

(** The default of [executeInteractive]: five minutes. *)
Definition defaultTimeout : N := 300000.

Section ShellWrapper.
Context {W : Type} `{Sys W}.

(** [shell.executeString(command, options)]. [setVerbose] is never called,
    so [this.verbose] is [false]. *)
Definition executeString (command : string) (options : option ShellOptions)
  : M W ShellResult :=
  let verbose := default false (options ≫= verbose) in
  let silent := default false (options ≫= silent) in
  let cwd := options ≫= cwd in
  (if verbose then log LConsole ("$ " ++ command) else ret tt) ;;
  let* o := execCommand command cwd in
  match o with
  | ExecOk out err =>
      ret {| exitCode := 0; stdout := JS.trim out; stderr := JS.trim err;
             command := command |}
  | ExecErr code out err _ =>
      let shellError :=
        ShellError ("Comando falhou com exit code " ++ zToString (codeOr1 code))
                   (codeOr1 code) command (trimOrEmpty out) (trimOrEmpty err) in
      if silent then
        ret {| exitCode := codeOr1 code; stdout := trimOrEmpty out;
               stderr := trimOrEmpty err; command := command |}
      else throw shellError
  end.

(** The timer of [executeInteractive] firing: SIGTERM to the child, and the
    promise is rejected. *)
Definition onTimeout (command : string) (timeout : N) : M W ShellResult :=
  emit (EvKill "SIGTERM") ;;
  throw (ShellError ("Comando excedeu o timeout de " ++ JS.millisAsSeconds timeout ++ "s")
                    124 command EmptyString "Timeout").

(** [shell.executeInteractive(command, options)]. The child is the shell
    running [cmd] and [args] joined again; whichever of the timer, the
    [close] event and the [error] event comes first settles the promise.
    An empty [cmd] makes [spawn] itself throw. *)
Definition executeInteractive (command : string) (options : option InteractiveOptions)
  : M W ShellResult :=
  let timeout := default defaultTimeout (options ≫= timeout) in
  log LConsole ("$ " ++ command) ;;
  match JS.split " " command with
  | EmptyString :: _ | [] =>
      throw (Error "TypeError" "The argument 'file' cannot be empty. Received ''")
  | parts =>
      let* b := spawnTimed (JS.join " " parts) timeout in
      match b with
      | Closes t code =>
          if (t <? timeout)%N then
            ret {| exitCode := default 0%Z code; stdout := EmptyString;
                   stderr := EmptyString; command := command |}
          else onTimeout command timeout
      | Errors t message =>
          if (t <? timeout)%N then
            throw (ShellError ("Erro ao executar comando: " ++ message) 1 command
                              EmptyString message)
          else onTimeout command timeout
      | Hangs => onTimeout command timeout
      end
  end.

End ShellWrapper.
End ShellWrapper.

(** ** Privileges *)

Module PrivilegeChecker.
Import Domain Proc Node.
Local Open Scope js_scope.

Section PrivilegeChecker.
Context {W : Type} `{Sys W}.

(** [process.getuid?.() === 0] *)
Definition isUnixRoot : M W bool :=
  gets (fun s => match uid s with
                 | Some 0%Z => true
                 | _ => false
                 end).

(** A network session can only be opened by an administrator. *)
Definition isWindowsAdmin : M W bool := execSyncOk "net session".

Definition isAdmin : M W bool :=
  let* os := getCurrentOS in
  match os with
  | macos | linux => isUnixRoot
  | windows => isWindowsAdmin
  end.

(** [sudo -n true] succeeds when no password is needed. *)
Definition isSudoCached : M W bool :=
  let* os := getCurrentOS in
  match os with
  | windows => ret false
  | _ => execSyncOk "sudo -n true"
  end.

(** [startSudoKeepAlive(intervalMs)]: the handle that stops the timer. The
    timer runs [sudo -v] in the background; what that does to the sudo
    cache belongs to the world. *)
Definition startSudoKeepAlive (intervalMs : N) : M W KeepAlive :=
  let* os := getCurrentOS in
  match os with
  | windows => ret NoOpStop
  | _ => ret (IntervalStop intervalMs)
  end.

End PrivilegeChecker.
End PrivilegeChecker.

Module SudoExecutor.
Import Domain Proc Node.
Local Open Scope js_scope.

Record SudoExecResult := {
  success : bool;
  stdout : string;
  stderr : string;
  exitCode : Z;
}.

(** The two questions asked before an elevation. *)
Definition unixConsentMessage : string := "Deseja continuar e fornecer a senha?".
Definition windowsConsentMessage : string := "Deseja continuar?".

Section SudoExecutor.
Context {W : Type} `{Sys W}.

Definition startKeepAlive : M W unit :=
  let* k := gets keepAliveStop in
  match k with
  | Some _ => ret tt
  | None =>
      let* stop := PrivilegeChecker.startSudoKeepAlive 60000 in
      modify (fun s => setKeepAlive (Some stop) (S (exitHandlers s)) s)
  end.

Definition stopKeepAlive : M W unit :=
  let* k := gets keepAliveStop in
  match k with
  | Some _ => modify (fun s => setKeepAlive None (exitHandlers s) s)
  | None => ret tt
  end.

Definition requestUnixPrivileges : M W bool :=
  log LInfo "Você será solicitado a digitar sua senha de administrador." ;;
  log LInfo "Isso é necessário para instalar ferramentas do sistema.
" ;;
  let* shouldContinue := confirm unixConsentMessage in
  if cancelledOrNo shouldContinue then
    log LWarn "Operação cancelada. Algumas ferramentas podem não ser instaladas." ;;
    ret false
  else
    let* child := spawnWait "sudo" ["-v"] in
    match child with
    | Closed (Some 0%Z) =>
        log LSuccess "✓ Privilégios de administrador obtidos.
" ;;
        startKeepAlive ;;
        ret true
    | Closed _ =>
        log LError "✗ Falha ao obter privilégios de administrador." ;;
        ret false
    | Errored _ =>
        log LError "✗ Erro ao solicitar privilégios." ;;
        ret false
    end.

Definition requestWindowsPrivileges : M W bool :=
  log LInfo "No Windows, o UAC (Controle de Conta de Usuário) pode solicitar permissão." ;;
  log LInfo "Por favor, aceite a solicitação quando aparecer.
" ;;
  let* shouldContinue := confirm windowsConsentMessage in
  if cancelledOrNo shouldContinue then
    log LWarn "Operação cancelada. Algumas ferramentas podem não ser instaladas." ;;
    ret false
  else ret true.

Definition requestPrivileges : M W bool :=
  let* os := getCurrentOS in
  let* admin := PrivilegeChecker.isAdmin in
  if admin then ret true
  else
    let* cached := (if os_eqb os windows then ret false else PrivilegeChecker.isSudoCached) in
    if cached then ret true
    else
      log LWarn "⚠️  Esta operação requer privilégios de administrador." ;;
      if os_eqb os windows then requestWindowsPrivileges else requestUnixPrivileges.

(** [error.stderr?.trim() || error.message || ""] *)
Definition stderrOrMessage (err : option string) (message : string) : string :=
  match ShellWrapper.trimOrEmpty err with
  | EmptyString => message
  | e => e
  end.

Definition execDirect (command : string) : M W SudoExecResult :=
  let* o := execCommand command None in
  match o with
  | ExecOk out err =>
      ret {| success := true; stdout := JS.trim out; stderr := JS.trim err;
             exitCode := 0 |}
  | ExecErr code out err message =>
      ret {| success := false; stdout := ShellWrapper.trimOrEmpty out;
             stderr := stderrOrMessage err message;
             exitCode := ShellWrapper.codeOr1 code |}
  end.

Definition exec (command : string) : M W SudoExecResult :=
  let* os := getCurrentOS in
  if os_eqb os windows then execDirect command
  else
    let* admin := PrivilegeChecker.isAdmin in
    let* adminOrCached := (if admin then ret true else PrivilegeChecker.isSudoCached) in
    if adminOrCached then
      let* admin2 := PrivilegeChecker.isAdmin in
      execDirect (if admin2 then command else "sudo " ++ command)
    else
      let* hasPrivileges := requestPrivileges in
      if negb hasPrivileges then
        ret {| success := false; stdout := EmptyString;
               stderr := "Privilégios de administrador não foram obtidos";
               exitCode := 1 |}
      else execDirect ("sudo " ++ command).

End SudoExecutor.
End SudoExecutor.

(** ** Environment managers *)

Module Environment.
Import Domain Proc.

Record EnvironmentResult := {
  success : bool;
  message : string;
  requiresRestart : option bool;
}.

(** [path.join] of a directory in normal form and a relative file name. *)
Definition pathJoin (dir file : string) : string :=
  match dir with
  | EmptyString => file
  | _ => if JS.endsWith dir "/" then dir ++ file else dir ++ "/" ++ file
  end.

End Environment.

Module UnixEnvironmentManager.
Import Domain Proc Node Environment.
Local Open Scope js_scope.

(** [generateExportLine(path, shell)] *)
Definition generateExportLine (path : string) (shell : ShellKind) : string :=
  match shell with
  | fish => "set -gx PATH " ++ JS.dq ++ path ++ JS.dq ++ " $PATH"
  | _ => "export PATH=" ++ JS.dq ++ path ++ ":$PATH" ++ JS.dq
  end.

(** The text appended to the rc file for one PATH entry. *)
Definition lineToAdd (exportLine : string) : string :=
  "
# Adicionado por Genesis
" ++ exportLine ++ "
".

Definition isUnknown (k : ShellKind) : bool :=
  match k with unknown => true | _ => false end.

Section UnixEnvironmentManager.
Context {W : Type} `{Sys W}.

Definition detectShell : M W ShellInfo :=
  let* cached := gets shellInfo in
  match cached with
  | Some info => ret info
  | None =>
      let* home := gets home in
      let* shellEnv := envOrEmpty "SHELL" in
      let* platform := gets platform in
      let* found :=
        (if JS.includes shellEnv "zsh" then
           let zshrc := pathJoin home ".zshrc" in
           let zprofile := pathJoin home ".zprofile" in
           let* hasZshrc := existsSync zshrc in
           let configFile := if hasZshrc then zshrc else zprofile in
           let* hasConfig := existsSync configFile in
           ret (zsh, if hasConfig then configFile else zshrc)
         else if JS.includes shellEnv "bash" then
           let bashrc := pathJoin home ".bashrc" in
           let bashProfile := pathJoin home ".bash_profile" in
           let* hasProfile := existsSync bashProfile in
           let* hasBashrc := existsSync bashrc in
           let configFile :=
             if String.eqb platform "darwin"
             then (if hasProfile then bashProfile else bashrc)
             else (if hasBashrc then bashrc else bashProfile) in
           let* hasConfig := existsSync configFile in
           ret (bash, if hasConfig then configFile else bashrc)
         else if JS.includes shellEnv "fish" then
           ret (fish, pathJoin (pathJoin (pathJoin home ".config") "fish") "config.fish")
         else ret (unknown, EmptyString)) in
      let os := if String.eqb platform "darwin" then macos else linux in
      let info := {| shell := fst found; configFile := snd found; si_os := os |} in
      modify (setShellInfo (Some info)) ;;
      ret info
  end.

(** [isInPath(path)]: an entry of the live PATH, compared as it is. *)
Definition isInPath (path : string) : M W bool :=
  let* currentPath := envOrEmpty "PATH" in
  ret (JS.arrIncludes (JS.split ":" currentPath) path).

(** [refreshProcessPath(path)]: put the entry in front of the live PATH. *)
Definition refreshProcessPath (path : string) : M W unit :=
  let* currentPath := envOrEmpty "PATH" in
  if negb (JS.arrIncludes (JS.split ":" currentPath) path)
  then setEnvVar "PATH" (path ++ ":" ++ currentPath)
  else ret tt.

(** [addToPath(path)] *)
Definition addToPath (path : string) : M W EnvironmentResult :=
  let* already := isInPath path in
  if already then
    ret {| success := true; message := path ++ " já está no PATH";
           requiresRestart := Some false |}
  else
    let* shellInfo := detectShell in
    if isUnknown (shell shellInfo) || negb (truthyStr (configFile shellInfo)) then
      ret {| success := false;
             message := "Não foi possível detectar o shell do usuário";
             requiresRestart := None |}
    else
      tryCatch
        (let exportLine := generateExportLine path (shell shellInfo) in
         let* fileExists := existsSync (configFile shellInfo) in
         let* configured :=
           (if fileExists then
              let* content := readFileSync (configFile shellInfo) in
              ret (JS.includes content path)
            else ret false) in
         if configured then
           ret {| success := true;
                  message := path ++ " já está configurado em " ++ configFile shellInfo;
                  requiresRestart := Some false |}
         else
           appendFileSync (configFile shellInfo) (lineToAdd exportLine) ;;
           refreshProcessPath path ;;
           ret {| success := true;
                  message := path ++ " adicionado ao PATH em " ++ configFile shellInfo;
                  requiresRestart := Some true |})
        (fun error =>
           ret {| success := false;
                  message := "Erro ao adicionar ao PATH: " ++ exnMessage error;
                  requiresRestart := None |}).

End UnixEnvironmentManager.
End UnixEnvironmentManager.

Module WindowsEnvironmentManager.
Import Domain Proc Node Environment.
Local Open Scope js_scope.

(** The ceiling of [setx] on the length of a value. *)
Definition setxLimit : nat := 1024.

(** The PowerShell command that reads the user's PATH from the registry. *)
Definition readUserPathCommand : string :=
  "powershell -Command " ++ JS.dq
  ++ "[Environment]::GetEnvironmentVariable('PATH', 'User')" ++ JS.dq.

(** [`setx ${name} "${value}"`] *)
Definition setxCommand (name value : string) : string :=
  "setx " ++ name ++ " " ++ JS.dq ++ value ++ JS.dq.

(** The PowerShell command that removes a variable of the user. *)
Definition removeVariableCommand (name : string) : string :=
  "powershell -Command " ++ JS.dq
  ++ "[Environment]::SetEnvironmentVariable('" ++ name ++ "', $null, 'User')" ++ JS.dq.

Section WindowsEnvironmentManager.
Context {W : Type} `{Sys W}.

(** [p.toLowerCase().replace(/\//g, "\\")] *)
Definition normalize (p : string) : string :=
  JS.replaceSlashes (sys_toLowerCase p).

(** [isInPath(path)]: an entry of the live PATH, letter case and the
    direction of the slashes set aside. *)
Definition isInPath (path : string) : M W bool :=
  let* currentPath := envOrEmpty "PATH" in
  let normalizedPath := normalize path in
  ret (existsb (fun p => String.eqb (normalize p) normalizedPath)
               (JS.split ";" currentPath)).

Definition refreshProcessPath (path : string) : M W unit :=
  let* currentPath := envOrEmpty "PATH" in
  if negb (JS.arrIncludes (JS.split ";" currentPath) path)
  then setEnvVar "PATH" (path ++ ";" ++ currentPath)
  else ret tt.

(** [getUserPath()]: the registry value, or the live PATH when PowerShell
    fails. *)
Definition getUserPath : M W string :=
  let* o := execCommand readUserPathCommand None in
  match o with
  | ExecOk out _ => ret (JS.trim out)
  | ExecErr _ _ _ _ => envOrEmpty "PATH"
  end.

(** [execSync(command, { stdio: "ignore" })]: throws when the command fails. *)
Definition execSyncThrow (command : string) : M W unit :=
  let* o := execCommand command None in
  match o with
  | ExecOk _ _ => ret tt
  | ExecErr _ _ _ message => throw (mkError message)
  end.

(** [addToPath(path)] *)
Definition addToPath (path : string) : M W EnvironmentResult :=
  let* already := isInPath path in
  if already then
    ret {| success := true; message := path ++ " já está no PATH";
           requiresRestart := Some false |}
  else
    tryCatch
      (let* currentPath := getUserPath in
       let newPath := currentPath ++ ";" ++ path in
       if (setxLimit <? JS.length newPath)%nat then
         ret {| success := false;
                message := "O PATH excede o limite de 1024 caracteres do setx. Considere remover entradas antigas.";
                requiresRestart := None |}
       else
         execSyncThrow (setxCommand "PATH" newPath) ;;
         refreshProcessPath path ;;
         ret {| success := true;
                message := path ++ " adicionado ao PATH do usuário";
                requiresRestart := Some true |})
      (fun error =>
         ret {| success := false;
                message := "Erro ao adicionar ao PATH: " ++ exnMessage error;
                requiresRestart := None |}).

(** [setVariable(name, value)] *)
Definition setVariable (name value : string) : M W EnvironmentResult :=
  tryCatch
    (if (setxLimit <? JS.length value)%nat then
       ret {| success := false;
              message := "O valor da variável " ++ name
                         ++ " excede o limite de 1024 caracteres do setx";
              requiresRestart := None |}
     else
       execSyncThrow (setxCommand name value) ;;
       setEnvVar name value ;;
       ret {| success := true;
              message := "Variável " ++ name ++ " definida no registro do usuário";
              requiresRestart := Some true |})
    (fun error =>
       ret {| success := false;
              message := "Erro ao definir variável: " ++ exnMessage error;
              requiresRestart := None |}).

(** [removeVariable(name)]: PowerShell clears the value in the registry. *)
Definition removeVariable (name : string) : M W EnvironmentResult :=
  tryCatch
    (execSyncThrow (removeVariableCommand name) ;;
     modify (fun s => setEnv (delete name (env s)) s) ;;
     ret {| success := true;
            message := "Variável " ++ name ++ " removida do registro do usuário";
            requiresRestart := Some true |})
    (fun error =>
       ret {| success := false;
              message := "Erro ao remover variável: " ++ exnMessage error;
              requiresRestart := None |}).

(** [getVariable(name)]: [process.env[name]] *)
Definition getVariable (name : string) : M W (option string) :=
  gets (fun s => env s !! name).

End WindowsEnvironmentManager.
End WindowsEnvironmentManager.

(** ** Package-manager adapters *)

Module HomebrewAdapter.
Import Domain Proc Node.
Local Open Scope js_scope.

Definition brewCommand : string := "brew".

Definition brewPaths : list string :=
  [ "/opt/homebrew/bin/brew"; "/usr/local/bin/brew"; "/home/linuxbrew/.linuxbrew/bin/brew" ].

(** The timeout given to the interactive run of an install: ten minutes. *)
Definition installTimeout : N := 600000.

Definition homebrewNotInstalledError : Exn :=
  Error "HomebrewNotInstalledError" "Homebrew não está instalado. Instale em https://brew.sh".

(** [translateHomebrewError(error, tool)], on the fields of a [ShellError] *)
Definition translateHomebrewError (message stdout stderr : string) (tool : Tool) : string :=
  let lerr := JS.toLowerCase stderr in
  let lout := JS.toLowerCase stdout in
  if JS.includes lerr "no available formula" || JS.includes lerr "no available cask"
     || JS.includes lerr "could not find"
  then "Pacote '" ++ name tool ++ "' não encontrado no Homebrew. Verifique se o nome está correto."
  else if JS.includes lerr "timeout" || JS.includes lerr "connection"
          || JS.includes lerr "network"
  then "Falha de conexão ao tentar instalar '" ++ name tool
       ++ "'. Verifique sua conexão com a internet."
  else if JS.includes lerr "permission" || JS.includes lerr "sudo"
  then "Permissão negada ao tentar instalar '" ++ name tool
       ++ "'. Pode ser necessário executar com privilégios de administrador."
  else if JS.includes lerr "already installed" || JS.includes lout "already installed"
  then "'" ++ name tool ++ "' já está instalado."
  else "Erro ao instalar '" ++ name tool ++ "': "
       ++ (if truthyStr stderr then stderr else message).

Section HomebrewAdapter.
Context {W : Type} `{Sys W}.

(** The first loop of [isAvailable]: one of the known paths exists. *)
Fixpoint anyExists (paths : list string) : M W bool :=
  match paths with
  | [] => ret false
  | p :: rest =>
      let* e := existsSync p in
      if e then ret true else anyExists rest
  end.

(** The last loop of [isAvailable]: one of the known paths runs. *)
Fixpoint anyRuns (paths : list string) : M W bool :=
  match paths with
  | [] => ret false
  | p :: rest =>
      let* ok := execSyncOk (p ++ " --version") in
      if ok then ret true else anyRuns rest
  end.

Definition isAvailable : M W bool :=
  let* found := anyExists brewPaths in
  if found then ret true
  else
    let* onPath := execSyncOk "brew --version" in
    if onPath then ret true else anyRuns brewPaths.

Definition isInstalled (tool : Tool) : M W bool :=
  tryCatch
    (let* result := ShellWrapper.executeString (checkCommand tool)
                      (Some {| ShellWrapper.verbose := None;
                               ShellWrapper.silent := Some true;
                               ShellWrapper.cwd := None |}) in
     ret (Z.eqb (ShellWrapper.exitCode result) 0))
    (fun _ => ret false).

(** [update()]: [brew update], every time it is called. *)
Definition update : M W unit :=
  let* available := isAvailable in
  if negb available then throw homebrewNotInstalledError
  else
    tryCatch
      (ShellWrapper.executeString (brewCommand ++ " update")
         (Some {| ShellWrapper.verbose := Some false;
                  ShellWrapper.silent := None;
                  ShellWrapper.cwd := None |}) ;;
       ret tt)
      (fun error =>
         match error with
         | ShellError message _ _ _ stderr =>
             throw (mkError ("Falha ao atualizar Homebrew: "
                             ++ (if truthyStr stderr then stderr else message)))
         | _ => throw error
         end).

(** [install(tool)]: the command of the tool, run interactively; what the
    run resolves to is not looked at. *)
Definition install (tool : Tool) : M W unit :=
  let* available := isAvailable in
  if negb available then throw homebrewNotInstalledError
  else
    let* os := getCurrentOS in
    if negb (os_eqb os macos) then
      throw (mkError "HomebrewAdapter só pode ser usado no macOS")
    else
      match getInstallCommand tool os with
      | Some (String c r as installCommand) =>
          tryCatch
            (ShellWrapper.executeInteractive installCommand
               (Some {| ShellWrapper.i_cwd := None;
                        ShellWrapper.timeout := Some installTimeout |}) ;;
             ret tt)
            (fun error =>
               match error with
               | ShellError message _ _ stdout stderr =>
                   throw (mkError (translateHomebrewError message stdout stderr tool))
               | _ => throw error
               end)
      | _ =>
          throw (mkError ("Ferramenta " ++ name tool
                          ++ " não possui comando de instalação para macOS"))
      end.

End HomebrewAdapter.
End HomebrewAdapter.

Module HomebrewInstaller.
Import Domain Proc Node.
Local Open Scope js_scope.

Section HomebrewInstaller.
Context {W : Type} `{Sys W}.

(** [HomebrewInstaller.isAvailable()]: the same probes as the adapter. *)
Definition isAvailable : M W bool :=
  let* found := HomebrewAdapter.anyExists HomebrewAdapter.brewPaths in
  if found then ret true
  else
    let* onPath := execSyncOk "brew --version" in
    if onPath then ret true else HomebrewAdapter.anyRuns HomebrewAdapter.brewPaths.

(** [HomebrewInstaller.install()]: the guided bootstrap. *)
Definition install : M W bool :=
  log LStep "Instalação do Homebrew" ;;
  log LInfo "A instalação do Homebrew requer interação manual (senha do administrador).
" ;;
  log LInfo "📋 Instruções:
" ;;
  log LInfo "  1. Abra um novo terminal" ;;
  log LInfo "  2. Execute o comando:" ;;
  log LInfo ("     /bin/bash -c " ++ JS.dq
             ++ "$(curl -fsSL https://raw.githubusercontent.com/Homebrew/install/HEAD/install.sh)"
             ++ JS.dq) ;;
  log LInfo "  3. Ou visite: https://brew.sh
" ;;
  let* action := select "O que você deseja fazer?" in
  match action with
  | None => ret false
  | Some a =>
      if String.eqb a "cancel" then ret false
      else if String.eqb a "skip" then
        log LInfo "⏭️  Pulando instalação do Homebrew. Continuando sem ele...
" ;;
        ret false
      else
        log LInfo "🔍 Verificando se o Homebrew está disponível...
" ;;
        let* available := isAvailable in
        if available then
          log LSuccess "✓ Homebrew detectado! Continuando com a instalação...
" ;;
          ret true
        else
          log LWarn "⚠️  Homebrew ainda não foi detectado no PATH.
" ;;
          log LInfo "Possíveis causas:" ;;
          log LInfo "  • O Homebrew não foi instalado ainda" ;;
          log LInfo "  • O Homebrew foi instalado mas não está no PATH atual" ;;
          log LInfo "  • É necessário reiniciar o terminal após a instalação
" ;;
          let* retry := confirm "Deseja tentar verificar novamente?" in
          if cancelledOrNo retry then ret false
          else
            let* again := isAvailable in
            if again then
              log LSuccess "✓ Homebrew detectado! Continuando com a instalação...
" ;;
              ret true
            else
              log LWarn "⚠️  Homebrew ainda não foi detectado. Continuando sem ele...
" ;;
              ret false
  end.

End HomebrewInstaller.
End HomebrewInstaller.

Module WinGetAdapter.
Import Domain Proc Node.
Local Open Scope js_scope.

Definition wingetCommand : string := "winget".

Definition winGetNotInstalledError : Exn :=
  Error "WinGetNotInstalledError"
    "WinGet não está instalado. Instale o App Installer da Microsoft Store ou atualize o Windows 11.".

(** The longest prefix of [s] whose characters satisfy [f], and the rest. *)
Fixpoint spanWhile (f : ascii -> bool) (s : string) : string * string :=
  match s with
  | EmptyString => (EmptyString, EmptyString)
  | String c s' =>
      if f c then let '(a, b) := spanWhile f s' in (String c a, b)
      else (EmptyString, s)
  end.

Definition isIdSeparator (c : ascii) : bool := Ascii.eqb c "="%char || JS.isSpace c.

(** The group of [/--id[=\s]+([^\s]+)/i] once [--id] and the text [t] after
    it are fixed: the separators are greedy and give back characters until
    a character that is not white space follows them. *)
Fixpoint captureAfter (k : nat) (t : string) : option string :=
  match k with
  | O => None
  | S k' =>
      match JS.drop k t with
      | String c _ =>
          if JS.isSpace c then captureAfter k' t
          else Some (fst (spanWhile (fun x => negb (JS.isSpace x)) (JS.drop k t)))
      | EmptyString => captureAfter k' t
      end
  end.

Definition matchIdHere (s : string) : option string :=
  if String.eqb (JS.toLowerCase (JS.take 4 s)) "--id" then
    let t := JS.drop 4 s in
    captureAfter (String.length (fst (spanWhile isIdSeparator t))) t
  else None.

Fixpoint matchId (s : string) : option string :=
  match matchIdHere s with
  | Some g => Some g
  | None =>
      match s with
      | EmptyString => None
      | String _ s' => matchId s'
      end
  end.

(** [parts.findIndex(p => p.toLowerCase() === "install")], then the part
    after it. *)
Fixpoint afterInstall (parts : list string) : option string :=
  match parts with
  | [] => None
  | p :: rest =>
      if String.eqb (JS.toLowerCase p) "install" then
        match rest with
        | next :: _ => if truthyStr next then Some next else None
        | [] => None
        end
      else afterInstall rest
  end.

(** [extractPackageId(command)] *)
Definition extractPackageId (command : string) : option string :=
  match matchId command with
  | Some g => Some g
  | None => afterInstall (JS.splitWords command)
  end.

(** [buildInstallCommand(packageId)] *)
Definition buildInstallCommand (packageId : string) : string :=
  let flags := [ "--id"; packageId; "--exact"; "--silent";
                 "--accept-package-agreements"; "--accept-source-agreements" ] in
  wingetCommand ++ " install " ++ JS.join " " flags.

(** [translateWinGetError(error, tool)], on the fields of a [ShellError] *)
Definition translateWinGetError (message : string) (exitCode : Z) (stdout stderr : string)
    (tool : Tool) : string :=
  let lerr := JS.toLowerCase stderr in
  let lout := JS.toLowerCase stdout in
  if JS.includes lerr "no package found" || JS.includes lerr "no applicable package"
     || JS.includes lerr "could not find"
  then "Pacote '" ++ name tool ++ "' não encontrado no WinGet. Verifique se o ID está correto."
  else if JS.includes lerr "timeout" || JS.includes lerr "connection"
          || JS.includes lerr "network" || JS.includes lerr "failed to download"
  then "Falha de conexão ao tentar instalar '" ++ name tool
       ++ "'. Verifique sua conexão com a internet."
  else if JS.includes lerr "access denied" || JS.includes lerr "permission"
          || JS.includes lerr "administrator" || JS.includes lerr "elevation"
  then "Permissão negada ao tentar instalar '" ++ name tool
       ++ "'. Pode ser necessário executar com privilégios de administrador."
  else if JS.includes lerr "already installed" || JS.includes lout "already installed"
          || Z.eqb exitCode 0
  then "'" ++ name tool ++ "' já está instalado ou a instalação foi concluída."
  else if JS.includes lerr "cancelled" || JS.includes lerr "user cancelled"
  then "Instalação de '" ++ name tool ++ "' foi cancelada pelo usuário."
  else "Erro ao instalar '" ++ name tool ++ "': "
       ++ (if truthyStr stderr then stderr else message).

Section WinGetAdapter.
Context {W : Type} `{Sys W}.

Definition isAvailable : M W bool :=
  let* os := getCurrentOS in
  if negb (os_eqb os windows) then ret false
  else
    tryCatch
      (let* result := ShellWrapper.executeString (wingetCommand ++ " --version")
                        (Some {| ShellWrapper.verbose := None;
                                 ShellWrapper.silent := Some true;
                                 ShellWrapper.cwd := None |}) in
       ret (Z.eqb (ShellWrapper.exitCode result) 0
            && (0 <? String.length (JS.trim (ShellWrapper.stdout result)))%nat))
      (fun _ => ret false).

(** [update()]: [winget upgrade], every time it is called; its errors are
    ignored. *)
Definition update : M W unit :=
  let* available := isAvailable in
  if negb available then throw winGetNotInstalledError
  else
    tryCatch
      (ShellWrapper.executeString (wingetCommand ++ " upgrade --all --include-unknown")
         (Some {| ShellWrapper.verbose := Some false;
                  ShellWrapper.silent := Some true;
                  ShellWrapper.cwd := None |}) ;;
       ret tt)
      (fun _ => ret tt).

Definition install (tool : Tool) : M W unit :=
  let* available := isAvailable in
  if negb available then throw winGetNotInstalledError
  else
    let* os := getCurrentOS in
    if negb (os_eqb os windows) then
      throw (mkError "WinGetAdapter só pode ser usado no Windows")
    else
      match getInstallCommand tool os with
      | Some (String c r as installCommand) =>
          match extractPackageId installCommand with
          | None =>
              throw (mkError ("Não foi possível extrair o ID do pacote do comando: "
                              ++ installCommand))
          | Some packageId =>
              let fullCommand := buildInstallCommand packageId in
              tryCatch
                (ShellWrapper.executeString fullCommand
                   (Some {| ShellWrapper.verbose := Some true;
                            ShellWrapper.silent := None;
                            ShellWrapper.cwd := None |}) ;;
                 ret tt)
                (fun error =>
                   match error with
                   | ShellError message exitCode _ stdout stderr =>
                       throw (mkError (translateWinGetError message exitCode stdout stderr tool))
                   | _ => throw error
                   end)
          end
      | _ =>
          throw (mkError ("Ferramenta " ++ name tool
                          ++ " não possui comando de instalação para Windows"))
      end.

End WinGetAdapter.
End WinGetAdapter.

Module LinuxInstaller.
Import Domain Proc Node.
Local Open Scope js_scope.

Inductive InstallType := apt | snap | curl | wget | flatpak | direct.

(** [detectInstallType(command)] *)
Definition detectInstallType (command : string) : InstallType :=
  let lowerCommand := JS.toLowerCase command in
  if JS.includes lowerCommand "apt-get install" || JS.includes lowerCommand "apt install"
  then apt
  else if JS.includes lowerCommand "snap install" then snap
  else if JS.includes lowerCommand "flatpak install" then flatpak
  else if JS.includes lowerCommand "curl" then curl
  else if JS.includes lowerCommand "wget" then wget
  else direct.

(** [translateError(stderr, tool)] *)
Definition translateError (stderr : string) (tool : Tool) : string :=
  let lowerStderr := JS.toLowerCase stderr in
  if JS.includes lowerStderr "unable to locate package"
     || JS.includes lowerStderr "package not found"
  then "Pacote '" ++ name tool
       ++ "' não encontrado nos repositórios. Pode ser necessário adicionar um PPA ou usar outro método de instalação."
  else if JS.includes lowerStderr "failed to fetch"
          || JS.includes lowerStderr "temporary failure"
  then "Falha de conexão ao tentar instalar '" ++ name tool
       ++ "'. Verifique sua conexão com a internet."
  else if JS.includes lowerStderr "snap" && JS.includes lowerStderr "not found"
  then "Snap '" ++ name tool ++ "' não encontrado no Snap Store."
  else if JS.includes lowerStderr "permission denied"
  then "Permissão negada ao tentar instalar '" ++ name tool ++ "'. Tente executar com sudo."
  else "Falha ao instalar '" ++ name tool ++ "': "
       ++ (if truthyStr stderr then stderr else "Erro desconhecido").

(** The command given to [SudoExecutor.exec] by [installWithApt]. *)
Definition aptCleanCommand (command : string) : string :=
  let c1 := JS.stripLeadingSudo command in
  let c2 := if negb (JS.includes c1 "DEBIAN_FRONTEND=noninteractive")
            then "DEBIAN_FRONTEND=noninteractive " ++ c1 else c1 in
  if negb (JS.includes c2 " -y ") && negb (JS.includes c2 " -y")
  then JS.insertYesFlag c2 else c2.

Definition silentOptions : option ShellWrapper.ShellOptions :=
  Some {| ShellWrapper.verbose := None; ShellWrapper.silent := Some true;
          ShellWrapper.cwd := None |}.

Section LinuxInstaller.
Context {W : Type} `{Sys W}.

(** [this.aptUpdateExecuted] of the installer object [self] *)
Definition getAptUpdateExecuted (self : Adapter) : M W bool :=
  gets (fun s => default false (aptUpdateExecuted s !! adapterId self)).

Definition setAptUpdateExecutedOf (self : Adapter) (b : bool) : M W unit :=
  modify (fun s => setAptUpdateExecuted (<[adapterId self := b]> (aptUpdateExecuted s)) s).

Definition isAvailable : M W bool :=
  let* os := getCurrentOS in
  ret (os_eqb os linux).

Definition isInstalled (tool : Tool) : M W bool :=
  tryCatch
    (let* result := ShellWrapper.executeString (checkCommand tool) silentOptions in
     ret (Z.eqb (ShellWrapper.exitCode result) 0))
    (fun _ => ret false).

(** [update()]: the index refresh of APT, once per installer object. *)
Definition update (self : Adapter) : M W unit :=
  let* executed := getAptUpdateExecuted self in
  if executed then ret tt
  else
    let* hasApt :=
      tryCatch
        (let* result := ShellWrapper.executeString "which apt-get" silentOptions in
         ret (Z.eqb (ShellWrapper.exitCode result) 0))
        (fun _ => ret false) in
    if negb hasApt then ret tt
    else
      let* hasPrivileges := SudoExecutor.requestPrivileges in
      if negb hasPrivileges then
        throw (mkError "Privilégios de administrador necessários para atualizar o APT.")
      else
        let* result := SudoExecutor.exec "apt-get update" in
        (if negb (SudoExecutor.success result)
         then log LConsoleWarn "⚠️  Aviso: Não foi possível atualizar cache do APT"
         else ret tt) ;;
        setAptUpdateExecutedOf self true.

Definition installWithApt (self : Adapter) (tool : Tool) (command : string) : M W unit :=
  let* executed := getAptUpdateExecuted self in
  (if negb executed then update self else ret tt) ;;
  let* result := SudoExecutor.exec (aptCleanCommand command) in
  if negb (SudoExecutor.success result)
  then throw (mkError (translateError (SudoExecutor.stderr result) tool))
  else ret tt.

Definition installWithSnap (tool : Tool) (command : string) : M W unit :=
  let* snapCheck := ShellWrapper.executeString "which snap" silentOptions in
  if negb (Z.eqb (ShellWrapper.exitCode snapCheck) 0) then
    throw (mkError "Snap não está instalado. Execute: sudo apt install snapd")
  else
    let* result := SudoExecutor.exec (JS.stripLeadingSudo command) in
    if negb (SudoExecutor.success result)
    then throw (mkError (translateError (SudoExecutor.stderr result) tool))
    else ret tt.

Definition installWithFlatpak (tool : Tool) (command : string) : M W unit :=
  let* flatpakCheck := ShellWrapper.executeString "which flatpak" silentOptions in
  if negb (Z.eqb (ShellWrapper.exitCode flatpakCheck) 0) then
    throw (mkError "Flatpak não está instalado. Execute: sudo apt install flatpak")
  else
    let* result := SudoExecutor.exec (JS.stripLeadingSudo command) in
    if negb (SudoExecutor.success result)
    then throw (mkError (translateError (SudoExecutor.stderr result) tool))
    else ret tt.

(** [installWithScript]: the script runs interactively; a failing check
    afterwards is only a warning. *)
Definition installWithScript (tool : Tool) (command : string) : M W unit :=
  tryCatch
    (ShellWrapper.executeInteractive command None ;;
     let* checkResult := ShellWrapper.executeString (checkCommand tool) silentOptions in
     if negb (Z.eqb (ShellWrapper.exitCode checkResult) 0) then
       log LConsoleWarn
         ("⚠️  " ++ name tool
          ++ " instalado, mas pode ser necessário reiniciar o terminal ou executar: source ~/.bashrc")
     else ret tt)
    (fun error =>
       throw (mkError ("Falha ao instalar " ++ name tool ++ " via script: "
                       ++ exnMessage error))).

Definition installDirect (tool : Tool) (command : string) : M W unit :=
  let needsSudo := JS.includes (JS.toLowerCase command) "sudo" in
  let cleanCommand := JS.stripLeadingSudo command in
  let* result :=
    (if needsSudo then
       let* r := SudoExecutor.exec cleanCommand in
       ret (SudoExecutor.success r, SudoExecutor.stderr r)
     else
       let* shellResult :=
         ShellWrapper.executeString command
           (Some {| ShellWrapper.verbose := None; ShellWrapper.silent := Some false;
                    ShellWrapper.cwd := None |}) in
       ret (Z.eqb (ShellWrapper.exitCode shellResult) 0, ShellWrapper.stderr shellResult)) in
  if negb (fst result) then throw (mkError (translateError (snd result) tool))
  else ret tt.

Definition install (self : Adapter) (tool : Tool) : M W unit :=
  let* os := getCurrentOS in
  if negb (os_eqb os linux) then
    throw (mkError "LinuxInstaller só pode ser usado no Linux")
  else
    match getInstallCommand tool os with
    | Some (String c r as installCommand) =>
        match detectInstallType installCommand with
        | apt => installWithApt self tool installCommand
        | snap => installWithSnap tool installCommand
        | flatpak => installWithFlatpak tool installCommand
        | curl | wget => installWithScript tool installCommand
        | direct => installDirect tool installCommand
        end
    | _ =>
        throw (mkError ("Ferramenta " ++ name tool
                        ++ " não possui comando de instalação para Linux"))
    end.

End LinuxInstaller.
End LinuxInstaller.

(** ** The installation service *)

Module InstallationService.
Import Domain Proc Node.
Local Open Scope js_scope.

Record InstallationResult := {
  tool : Tool;
  success : bool;
  alreadyInstalled : bool;
  message : string;
  error : option string;
}.

(** The directories added to the live PATH after an install. *)
Definition commonPaths (os : OperatingSystem) : list string :=
  match os with
  | macos => [ "/opt/homebrew/bin"; "/usr/local/bin"; "/opt/homebrew/sbin"; "/usr/local/sbin" ]
  | linux => [ "/home/linuxbrew/.linuxbrew/bin"; "/usr/local/bin"; "/snap/bin" ]
  | windows => []
  end.

Definition countWhere (f : InstallationResult -> bool) (l : list InstallationResult) : string :=
  JS.natToString (N.of_nat (List.length (List.filter f l))).

Section InstallationService.
Context {W : Type} `{Sys W}.

(** [new C()]: a fresh object; a [LinuxInstaller] starts with
    [aptUpdateExecuted = false]. *)
Definition newAdapter (c : AdapterClass) : M W Adapter :=
  fun s =>
    let a := {| adapterClass := c; adapterId := nextId s |} in
    let s1 := setNextId (S (nextId s)) (setTrace (EvNew a :: trace s) s) in
    match c with
    | LinuxInstallerC =>
        (Ok a, setAptUpdateExecuted (<[adapterId a := false]> (aptUpdateExecuted s1)) s1)
    | _ => (Ok a, s1)
    end.

(** The methods of [IPackageManager], dispatched on the class of the object. *)
Definition pmIsAvailable (pm : Adapter) : M W bool :=
  match adapterClass pm with
  | HomebrewAdapterC => HomebrewAdapter.isAvailable
  | WinGetAdapterC => WinGetAdapter.isAvailable
  | LinuxInstallerC => LinuxInstaller.isAvailable
  end.

Definition pmInstall (pm : Adapter) (t : Tool) : M W unit :=
  emit (EvCall pm "install") ;;
  match adapterClass pm with
  | HomebrewAdapterC => HomebrewAdapter.install t
  | WinGetAdapterC => WinGetAdapter.install t
  | LinuxInstallerC => LinuxInstaller.install pm t
  end.

Definition pmUpdate (pm : Adapter) : M W unit :=
  emit (EvCall pm "update") ;;
  match adapterClass pm with
  | HomebrewAdapterC => HomebrewAdapter.update
  | WinGetAdapterC => WinGetAdapter.update
  | LinuxInstallerC => LinuxInstaller.update pm
  end.

Definition cache (adapter : Adapter) : M W Adapter :=
  modify (setPackageManager (Some adapter)) ;;
  ret adapter.

(** [getPackageManager()] *)
Definition getPackageManager : M W Adapter :=
  let* cached := gets packageManager in
  match cached with
  | Some pm => ret pm
  | None =>
      let* os := getCurrentOS in
      match os with
      | macos =>
          let* adapter := newAdapter HomebrewAdapterC in
          let* available := HomebrewAdapter.isAvailable in
          if available then cache adapter
          else
            log LWarn "⚠️  Homebrew não está instalado no sistema." ;;
            let* shouldInstall :=
              confirm "Deseja instalar o Homebrew agora? (Recomendado para macOS)" in
            if cancelledOrNo shouldInstall then
              throw (mkError "Homebrew não está disponível e a instalação foi cancelada. Instale manualmente em https://brew.sh")
            else
              let* installed := HomebrewInstaller.install in
              if negb installed then
                throw (mkError "Homebrew não está disponível. Algumas ferramentas podem não ser instaladas.")
              else
                let* again := HomebrewAdapter.isAvailable in
                if again then cache adapter
                else
                  throw (mkError "Homebrew não está disponível no PATH. Reinicie o terminal ou adicione ao PATH manualmente.")
      | windows =>
          let* adapter := newAdapter WinGetAdapterC in
          let* available := WinGetAdapter.isAvailable in
          if available then cache adapter
          else throw (mkError "WinGet não está disponível no sistema")
      | linux =>
          let* installer := newAdapter LinuxInstallerC in
          let* available := LinuxInstaller.isAvailable in
          if available then cache installer
          else throw (mkError "Sistema Linux não detectado")
      end
  end.

(** [checkInstalled(tool)]: the check command of the tool exits with 0. *)
Definition checkInstalled (t : Tool) : M W bool :=
  tryCatch
    (let* result := ShellWrapper.executeString (checkCommand t)
                      (Some {| ShellWrapper.verbose := None;
                               ShellWrapper.silent := Some true;
                               ShellWrapper.cwd := None |}) in
     ret (Z.eqb (ShellWrapper.exitCode result) 0))
    (fun _ => ret false).

(** The environment manager of the factory, chosen by the platform. *)
Definition envIsInPath (os : OperatingSystem) (path : string) : M W bool :=
  match os with
  | windows => WindowsEnvironmentManager.isInPath path
  | _ => UnixEnvironmentManager.isInPath path
  end.

Definition envRefreshProcessPath (os : OperatingSystem) (path : string) : M W unit :=
  match os with
  | windows => WindowsEnvironmentManager.refreshProcessPath path
  | _ => UnixEnvironmentManager.refreshProcessPath path
  end.

(** [refreshPathAfterInstall()] *)
Definition refreshPathAfterInstall : M W unit :=
  let* os := getCurrentOS in
  forEach (commonPaths os)
    (fun path =>
       let* present := envIsInPath os path in
       if negb present then envRefreshProcessPath os path else ret tt).

(** [((Date.now() - startTime) / 1000).toFixed(1)] *)
Definition elapsedSince (startTime : Z) : M W string :=
  let* t := now in
  ret (sys_toFixed1 (t - startTime)%Z).

(** [installTool(tool, showProgress)] *)
Definition installTool (t : Tool) (showProgress : bool) : M W InstallationResult :=
  let* startTime := now in
  let* isInstalled := checkInstalled t in
  if isInstalled then
    (if showProgress then log LSuccess ("✓ " ++ name t ++ " já está instalado") else ret tt) ;;
    ret {| tool := t; success := true; alreadyInstalled := true;
           message := name t ++ " já está instalado"; error := None |}
  else
    let* resolved :=
      tryCatch (let* pm := getPackageManager in ret (inl pm))
               (fun error => ret (inr (exnMessage error))) in
    match resolved with
    | inr errorMessage =>
        ret {| tool := t; success := false; alreadyInstalled := false;
               message := "Não foi possível instalar " ++ name t;
               error := Some errorMessage |}
    | inl pm =>
        (if showProgress then log LStep ("Instalando " ++ name t ++ "...") else ret tt) ;;
        tryCatch
          (pmInstall pm t ;;
           let* elapsedTime := elapsedSince startTime in
           refreshPathAfterInstall ;;
           (if showProgress
            then log LSuccess ("✓ " ++ name t ++ " instalado com sucesso em "
                               ++ elapsedTime ++ "s")
            else ret tt) ;;
           ret {| tool := t; success := true; alreadyInstalled := false;
                  message := name t ++ " instalado com sucesso em " ++ elapsedTime ++ "s";
                  error := None |})
          (fun error =>
             let errorMessage := exnMessage error in
             let* elapsedTime := elapsedSince startTime in
             (if truthyFlag (isGUI t)
              then log LWarn ("⚠️  " ++ name t ++ " - falha na instalação ("
                              ++ elapsedTime ++ "s) - continuando...")
              else log LError ("✗ Falha ao instalar " ++ name t ++ " ("
                               ++ elapsedTime ++ "s)")) ;;
             ret {| tool := t; success := false; alreadyInstalled := false;
                    message := "Falha ao instalar " ++ name t;
                    error := Some errorMessage |})
    end.

(** The loop of [installTools]: one result per tool, in order. *)
Fixpoint installEach (ts : list Tool) (showProgress : bool) : M W (list InstallationResult) :=
  match ts with
  | [] => ret []
  | t :: rest =>
      let* result := installTool t showProgress in
      let* results := installEach rest showProgress in
      ret (result :: results)
  end.

(** [installTools(tools, showProgress)] *)
Definition installTools (ts : list Tool) (showProgress : bool)
  : M W (list InstallationResult) :=
  (if showProgress && (0 <? List.length ts)%nat
   then log LInfo ("
📦 Iniciando instalação de " ++ JS.natToString (N.of_nat (List.length ts))
                   ++ " ferramenta(s)...
")
   else ret tt) ;;
  let* results := installEach ts showProgress in
  (if showProgress then
     let successful := countWhere success results in
     let failed := countWhere (fun r => negb (success r)) results in
     let skipped := countWhere alreadyInstalled results in
     log LInfo "
" ;;
     log LInfo ("✅ Concluído: " ++ successful ++ " instalada(s), " ++ skipped
                ++ " já instalada(s), " ++ failed ++ " falha(s)")
   else ret tt) ;;
  ret results.

(** [updatePackageManager()] *)
Definition updatePackageManager : M W unit :=
  let* pm := getPackageManager in
  pmUpdate pm.

End InstallationService.
End InstallationService.

(** ** The health check service *)

Module HealthCheckService.
Import Domain Proc Node.
Local Open Scope js_scope.

Record HealthCheckResult := {
  tool : Tool;
  isInstalled : bool;
  binaryPath : option string;
  version : option string;
  message : string;
}.

(** The class [\w]: letters, digits and the underscore. *)
Definition isWordChar (c : ascii) : bool :=
  let n := nat_of_ascii c in
  ((48 <=? n)%nat && (n <=? 57)%nat) || ((65 <=? n)%nat && (n <=? 90)%nat)
  || ((97 <=? n)%nat && (n <=? 122)%nat) || (n =? 95)%nat.

(** The group of [checkCommand.match(/command -v (\w+)/)]: the word after
    the first [command -v ] that is followed by a word character. *)
Fixpoint matchCommandV (s : string) : option string :=
  let here :=
    if JS.startsWith s "command -v " then
      match fst (WinGetAdapter.spanWhile isWordChar (JS.drop 11 s)) with
      | EmptyString => None
      | g => Some g
      end
    else None in
  match here with
  | Some g => Some g
  | None =>
      match s with
      | EmptyString => None
      | String _ s' => matchCommandV s'
      end
  end.

(** [text.split("\n")[0]] *)
Definition firstLine (text : string) : string :=
  match JS.split "010" text with
  | line :: _ => line
  | [] => EmptyString
  end.

Definition silentOptions : option ShellWrapper.ShellOptions :=
  Some {| ShellWrapper.verbose := None; ShellWrapper.silent := Some true;
          ShellWrapper.cwd := None |}.

Section HealthCheckService.
Context {W : Type} `{Sys W}.

(** The loop over the version commands: the first one that exits with 0
    and prints something gives the version, cut at 50 code units. *)
Fixpoint firstVersion (versionCommands : list string) : M W (option string) :=
  match versionCommands with
  | [] => ret None
  | versionCmd :: rest =>
      let* versionResult := ShellWrapper.executeString versionCmd silentOptions in
      if Z.eqb (ShellWrapper.exitCode versionResult) 0
         && truthyStr (JS.trim (ShellWrapper.stdout versionResult))
      then ret (Some (JS.substring 50 (firstLine (JS.trim (ShellWrapper.stdout versionResult)))))
      else firstVersion rest
  end.

(** [checkTool(tool)] *)
Definition checkTool (t : Tool) : M W HealthCheckResult :=
  let* installed := InstallationService.checkInstalled t in
  if negb installed then
    ret {| tool := t; isInstalled := false; binaryPath := None; version := None;
           message := "Não instalado ou não encontrado no PATH" |}
  else
    let* found :=
      tryCatch
        (let* os := getCurrentOS in
         let pathCommand :=
           if os_eqb os windows then "where " ++ JS.toLowerCase (name t)
           else
             "which " ++ match matchCommandV (checkCommand t) with
                         | Some commandName => commandName
                         | None => JS.toLowerCase (name t)
                         end in
         let* pathResult := ShellWrapper.executeString pathCommand silentOptions in
         let binaryPath :=
           if Z.eqb (ShellWrapper.exitCode pathResult) 0
              && truthyStr (JS.trim (ShellWrapper.stdout pathResult))
           then Some (firstLine (JS.trim (ShellWrapper.stdout pathResult)))
           else None in
         let* version :=
           tryCatch
             (firstVersion [ JS.toLowerCase (name t) ++ " --version";
                             JS.toLowerCase (name t) ++ " -v" ])
             (fun _ => ret None) in
         ret (binaryPath, version))
        (fun _ => ret (None, None)) in
    ret {| tool := t; isInstalled := true;
           binaryPath := fst found; version := snd found;
           message := if truthyOptStr (fst found)
                      then "Instalado em: " ++ default EmptyString (fst found)
                      else "Instalado (caminho não detectado)" |}.

(** [checkTools(tools)]: one result per tool, in order. *)
Fixpoint checkTools (ts : list Tool) : M W (list HealthCheckResult) :=
  match ts with
  | [] => ret []
  | t :: rest =>
      let* result := checkTool t in
      let* results := checkTools rest in
      ret (result :: results)
  end.

End HealthCheckService.
End HealthCheckService.

(** ** Scenarios: a simulated machine and sample tools *)

Module Scenario.
Import Domain Proc.

(** A small machine: the commands that exit with 0, what spawned children
    do, whether the sudo timestamp is valid, whether the user gives the
    right password and says yes to questions, what PowerShell prints for
    the user's PATH, and the clock. *)
Record Machine := {
  succeeding : list string;
  children : list (string * ChildBehaviour);
  sudoValid : bool;
  passwordOk : bool;
  sayYes : bool;
  menuChoice : option string;
  userPath : option string;
  clock : Z;
}.

Definition withSudo (b : bool) (m : Machine) : Machine :=
  {| succeeding := succeeding m; children := children m; sudoValid := b;
     passwordOk := passwordOk m; sayYes := sayYes m; menuChoice := menuChoice m;
     userPath := userPath m; clock := clock m |}.

Definition failed : ExecOutcome :=
  ExecErr (Some 1%Z) (Some EmptyString) (Some EmptyString) "Command failed".

Definition machineExec (command : string) (_ : option string) (m : Machine)
  : ExecOutcome * Machine :=
  if String.eqb command "sudo -n true" then
    (if sudoValid m then ExecOk EmptyString EmptyString else failed, m)
  else if String.eqb command WindowsEnvironmentManager.readUserPathCommand then
    (match userPath m with
     | Some p => ExecOk (p ++ "
") EmptyString
     | None => failed
     end, m)
  else if JS.arrIncludes (succeeding m) command then (ExecOk "ok" EmptyString, m)
  else (failed, m).

Fixpoint lookupChild (l : list (string * ChildBehaviour)) (command : string)
  : ChildBehaviour :=
  match l with
  | [] => Closes 1000 (Some 0%Z)
  | (c, b) :: rest => if String.eqb c command then b else lookupChild rest command
  end.

Definition machineSpawn (command : string) (_ : N) (m : Machine)
  : ChildBehaviour * Machine :=
  (lookupChild (children m) command, m).

Definition machineSpawnWait (file : string) (args : list string) (m : Machine)
  : SpawnEnd * Machine :=
  if String.eqb (JS.join " " (file :: args)) "sudo -v" then
    if passwordOk m then (Closed (Some 0%Z), withSudo true m)
    else (Closed (Some 1%Z), m)
  else (Closed (Some 0%Z), m).

(** The texts of the machine are ASCII, where lower-casing is the fold of
    the letters A to Z. *)
Definition machineSys : Sys Machine := {|
  sys_exec := machineExec;
  sys_spawn := machineSpawn;
  sys_spawn_wait := machineSpawnWait;
  sys_confirm := fun _ m => (Some (sayYes m), m);
  sys_select := fun _ m => (menuChoice m, m);
  sys_now := clock;
  sys_toFixed1 := fun _ => "0.0";
  sys_toLowerCase := JS.toLowerCase;
|}.

Definition quietMachine : Machine := {|
  succeeding := [];
  children := [];
  sudoValid := false;
  passwordOk := true;
  sayYes := true;
  menuChoice := None;
  userPath := None;
  clock := 0;
|}.

(** A process on a platform, with an environment and files, nothing done
    yet. *)
Definition boot (m : Machine) (platform : string) (uid : option Z)
    (env files : gmap string string) : State Machine :=
  mkState m platform uid "/home/dev" env files ∅ [] None 0 None None ∅ 0.

Definition mkTool (id checkCommand : string) (cmds : InstallationCommands) (gui : option bool)
  : Tool :=
  {| id := id; name := id; checkCommand := checkCommand; installCommands := cmds;
     categoryId := "tools"; description := None; isGUI := gui |}.

Definition onlyMac (c : string) : InstallationCommands :=
  {| cmd_macos := Some c; cmd_windows := None; cmd_linux := None |}.

Definition onlyLinux (c : string) : InstallationCommands :=
  {| cmd_macos := None; cmd_windows := None; cmd_linux := Some c |}.

Definition git : Tool :=
  mkTool "git" "command -v git"
    {| cmd_macos := Some "brew install git";
       cmd_windows := Some "winget install --id Git.Git";
       cmd_linux := Some "sudo apt-get install -y git" |} None.

Definition figma : Tool :=
  mkTool "figma" "test -d /Applications/Figma.app"
    (onlyMac "brew install --cask figma") (Some true).

Definition htop : Tool :=
  mkTool "htop" "command -v htop" (onlyLinux "sudo apt-get install -y htop") None.

Definition vlc : Tool :=
  mkTool "vlc" "command -v vlc" (onlyLinux "sudo snap install vlc") (Some true).

(** A Linux desktop where git is installed already. *)
Definition gitInstalled : State Machine :=
  boot {| succeeding := ["command -v git"]; children := []; sudoValid := false;
          passwordOk := true; sayYes := true; menuChoice := None; userPath := None;
          clock := 0 |}
       "linux" (Some 1000%Z) ∅ ∅.

(** A Windows session whose user PATH in the registry is 1020 characters
    long, and a value of 1025 characters. *)
Fixpoint repeatChar (c : ascii) (n : nat) : string :=
  match n with
  | O => EmptyString
  | S n' => String c (repeatChar c n')
  end.

Definition longUserPath : string := "C:\" ++ repeatChar "a" 1017.

Definition windowsSession : State Machine :=
  boot {| succeeding := []; children := []; sudoValid := false; passwordOk := true;
          sayYes := true; menuChoice := None; userPath := Some longUserPath; clock := 0 |}
       "win32" None {[ "PATH" := "C:\Windows;C:/Tools/Bin" ]} ∅.

(** A Mac with Homebrew where the install of figma fails with exit code 1
    after two seconds, and one where it never ends. *)
Definition macWith (figmaChild : ChildBehaviour) : State Machine :=
  boot {| succeeding := []; children := [("brew install --cask figma", figmaChild)];
          sudoValid := false; passwordOk := true; sayYes := true; menuChoice := None;
          userPath := None; clock := 0 |}
       "darwin" (Some 501%Z) ∅ {[ "/opt/homebrew/bin/brew" := EmptyString ]}.

Definition macFailingInstall : State Machine := macWith (Closes 2000 (Some 1%Z)).
Definition macHangingInstall : State Machine := macWith Hangs.

(** A Linux shell session with bash, whose live PATH has /usr/local/bin
    and whose rc file has no PATH line. *)
Definition bashSession : State Machine :=
  boot quietMachine "linux" (Some 1000%Z)
       {[ "PATH" := "/usr/local/bin:/usr/bin"; "SHELL" := "/bin/bash" ]}
       {[ "/home/dev/.bashrc" := "# rc
" ]}.

(** An Ubuntu desktop, not root, with no valid sudo timestamp, where APT
    and snap are present and the installs succeed. *)
Definition ubuntuDesktop : State Machine :=
  boot {| succeeding := [ "which apt-get"; "sudo apt-get update";
                          "sudo DEBIAN_FRONTEND=noninteractive apt-get install -y htop";
                          "which snap"; "sudo snap install vlc" ];
          children := []; sudoValid := false; passwordOk := true; sayYes := true;
          menuChoice := None; userPath := None; clock := 0 |}
       "linux" (Some 1000%Z) ∅ ∅.

(** A Mac with Homebrew on which [brew update] succeeds. *)
Definition macReady : State Machine :=
  boot {| succeeding := ["brew update"]; children := []; sudoValid := false;
          passwordOk := true; sayYes := true; menuChoice := None; userPath := None;
          clock := 0 |}
       "darwin" (Some 501%Z) ∅ {[ "/opt/homebrew/bin/brew" := EmptyString ]}.

(** A Linux session whose shell is none of zsh, bash and fish. *)
Definition dashSession : State Machine :=
  boot quietMachine "linux" (Some 1000%Z)
       {[ "PATH" := "/usr/bin"; "SHELL" := "/bin/dash" ]} ∅.

(** A bash session whose rc file mentions /opt/tools/bin in a comment. *)
Definition configuredSession : State Machine :=
  boot quietMachine "linux" (Some 1000%Z)
       {[ "PATH" := "/usr/bin"; "SHELL" := "/bin/bash" ]}
       {[ "/home/dev/.bashrc" := "# see /opt/tools/bin
" ]}.

(** A bash session whose rc file cannot be written. *)
Definition lockedSession : State Machine :=
  mkState quietMachine "linux" (Some 1000%Z) "/home/dev"
    {[ "PATH" := "/usr/bin"; "SHELL" := "/bin/bash" ]}
    {[ "/home/dev/.bashrc" := "# rc
" ]}
    {[ "/home/dev/.bashrc" ]} [] None 0 None None ∅ 0.

(** Root on Linux; a user with a valid sudo timestamp; a user who says no
    to every question. *)
Definition rootSession : State Machine :=
  boot quietMachine "linux" (Some 0%Z) ∅ ∅.

Definition sudoReady : State Machine :=
  boot (withSudo true quietMachine) "linux" (Some 1000%Z) ∅ ∅.

Definition refusingUser : State Machine :=
  boot {| succeeding := []; children := []; sudoValid := false; passwordOk := true;
          sayYes := false; menuChoice := None; userPath := None; clock := 0 |}
       "linux" (Some 1000%Z) ∅ ∅.

(** A Windows session in which the given commands succeed, with a short
    user PATH in the registry. *)
Definition windowsWith (ok : list string) : State Machine :=
  boot {| succeeding := ok; children := []; sudoValid := false; passwordOk := true;
          sayYes := true; menuChoice := None; userPath := Some "C:\Users\dev\bin";
          clock := 0 |}
       "win32" None {[ "PATH" := "C:\Windows" ]} ∅.

End Scenario.

(** ** Vocabulary of the properties *)

Module Observe.
Import Domain Proc.

(** The events that ask the user to consent to an elevation. *)
Definition isConsentMessage (m : string) : bool :=
  String.eqb m SudoExecutor.unixConsentMessage
  || String.eqb m SudoExecutor.windowsConsentMessage.

Definition isConsent (e : Event) : bool :=
  match e with
  | EvConfirm m _ => isConsentMessage m
  | _ => false
  end.

(** The events that show an elevation attempt failing: consent refused or
    cancelled, or one of the two errors reported after [sudo -v]. *)
Definition isElevationFailure (e : Event) : bool :=
  match e with
  | EvConfirm m a => isConsentMessage m && Node.cancelledOrNo a
  | EvLog LError m =>
      String.eqb m "✗ Falha ao obter privilégios de administrador."
      || String.eqb m "✗ Erro ao solicitar privilégios."
  | _ => false
  end.

(** The events about adapter objects. *)
Definition isCall (e : Event) : bool :=
  match e with
  | EvCall _ _ => true
  | _ => false
  end.

Definition isObjectEvent (e : Event) : bool :=
  match e with
  | EvNew _ | EvCall _ _ => true
  | _ => false
  end.

(** The refresh of the package index of each manager. *)
Definition isAptRefreshCommand (c : string) : bool :=
  String.eqb c "apt-get update" || String.eqb c "sudo apt-get update".

Definition isAptRefresh (e : Event) : bool :=
  match e with
  | EvExec c => isAptRefreshCommand c
  | _ => false
  end.

Definition isBrewRefresh (e : Event) : bool :=
  match e with
  | EvExec c => String.eqb c "brew update"
  | _ => false
  end.

Definition isWinGetRefresh (e : Event) : bool :=
  match e with
  | EvExec c => String.eqb c "winget upgrade --all --include-unknown"
  | _ => false
  end.

Definition isKill (e : Event) : bool :=
  match e with
  | EvKill _ => true
  | _ => false
  end.

(** The commands that the process ran or started, newest first. *)
Fixpoint commandsOf (tr : list Event) : list string :=
  match tr with
  | [] => []
  | EvExec c :: rest => c :: commandsOf rest
  | EvSpawn c :: rest => c :: commandsOf rest
  | _ :: rest => commandsOf rest
  end.

(** A command that ran to its end with exit code 0. *)
Definition succeeded (o : ExecOutcome) : bool :=
  match o with
  | ExecOk _ _ => true
  | ExecErr _ _ _ _ => false
  end.

(** The sets of events that the invariants below allow a method to add. *)
Definition notConsent (e : Event) : bool := negb (isConsent e).
Definition notObject (e : Event) : bool := negb (isObjectEvent e).
Definition notAptRefresh (e : Event) : bool := negb (isAptRefresh e).
Definition notBrewRefresh (e : Event) : bool := negb (isBrewRefresh e).
Definition notWinGetRefresh (e : Event) : bool := negb (isWinGetRefresh e).

(** How many events of a trace satisfy a test. *)
Definition count (f : Event -> bool) (tr : list Event) : nat :=
  List.length (List.filter f tr).

Definition prompts (tr : list Event) : nat := count isConsent tr.

Definition noElevationFailure (tr : list Event) : bool :=
  forallb (fun e => negb (isElevationFailure e)) tr.

(** The child was still running when the timer fired. *)
Definition outlives (b : ChildBehaviour) (limit : N) : bool :=
  match b with
  | Closes t _ => negb (t <? limit)%N
  | Errors t _ => negb (t <? limit)%N
  | Hangs => true
  end.

(** How many times [sub] occurs in [s]. *)
Fixpoint occurrences (sub s : string) : nat :=
  (if JS.startsWith s sub then 1 else 0)
  + match s with
    | EmptyString => 0
    | String _ s' => occurrences sub s'
    end.

(** A string whose characters all pass a test. *)
Fixpoint allChars (f : ascii -> bool) (s : string) : bool :=
  match s with
  | EmptyString => true
  | String c s' => f c && allChars f s'
  end.

(** A string without white space. *)
Definition noSpaces (s : string) : bool := allChars (fun c => negb (JS.isSpace c)) s.

(** A string without a given character. *)
Fixpoint lacks (c : ascii) (s : string) : bool :=
  match s with
  | EmptyString => true
  | String d s' => negb (Ascii.eqb d c) && lacks c s'
  end.

Section Observe.
Context {W : Type} `{Sys W}.


Definition result {A} (m : M W A) (s : State W) : Res A := fst (m s).
Definition after {A} (m : M W A) (s : State W) : State W := snd (m s).

(** [process.env.PATH || ""] *)
Definition livePath (s : State W) : string :=
  match env s !! "PATH" with Some v => v | None => EmptyString end.

(** The operating system that [getCurrentOS()] reports. *)
Definition osOf (s : State W) : OperatingSystem :=
  match mapPlatformToOS (platform s) with
  | Some os => os
  | None => linux
  end.

(** One step of the outside world: some oracle was asked. *)
Inductive wstep : W -> W -> Prop :=
| wstep_exec c d w : wstep w (snd (sys_exec c d w))
| wstep_spawn c l w : wstep w (snd (sys_spawn c l w))
| wstep_spawn_wait f a w : wstep w (snd (sys_spawn_wait f a w))
| wstep_confirm m w : wstep w (snd (sys_confirm m w))
| wstep_select m w : wstep w (snd (sys_select m w)).

(** What every method keeps: it only adds events to the trace, it moves
    the world by oracle steps, and it leaves the platform, the user id,
    the cached adapter and the object counter alone. [ok] says which events
    it may add. *)
Record steps (ok : Event -> bool) (s s' : State W) : Prop := {
  steps_trace : exists evs, trace s' = (evs ++ trace s)%list /\ forallb ok evs = true;
  steps_world : rtc wstep (world s) (world s');
  steps_platform : platform s' = platform s;
  steps_uid : uid s' = uid s;
  steps_pm : packageManager s' = packageManager s;
  steps_nextId : nextId s' = nextId s;
}.

Definition framed {A} (ok : Event -> bool) (m : M W A) : Prop :=
  forall s, steps ok s (after m s).

(** A statement about the state before and after a method. *)
Definition hoare {A} (P : State W -> Prop) (m : M W A) (Q : State W -> Prop) : Prop :=
  forall s, P s -> Q (after m s).

(** A statement about the result and the state after a method started in
    [s]. *)
Definition wp {A} (m : M W A) (Q : Res A -> State W -> Prop) (s : State W) : Prop :=
  Q (result m s) (after m s).

(** A statement about the value returned, or the state in which an error
    is thrown, by a method started in a state that satisfies [P]. *)
Definition triple {A} (P : State W -> Prop) (m : M W A)
    (Q : A -> State W -> Prop) (E : State W -> Prop) : Prop :=
  forall s, P s -> match m s with
                   | (Ok a, s') => Q a s'
                   | (Throw _, s') => E s'
                   end.

(** A method that never throws. *)
Definition total {A} (m : M W A) : Prop :=
  forall s, exists a, result m s = Ok a.

(** What a set of allowed events may be asked to contain: the output and
    the children of the process, every command, the questions that are not
    about elevation, the questions about elevation. *)
Class Basic (ok : Event -> bool) : Prop := {
  ok_log : forall l m, ok (EvLog l m) = true;
  ok_spawn : forall c, ok (EvSpawn c) = true;
  ok_kill : forall g, ok (EvKill g) = true;
  ok_select : forall m a, ok (EvSelect m a) = true;
}.

Class AnyCommand (ok : Event -> bool) : Prop :=
  ok_exec : forall c, ok (EvExec c) = true.

Class AnyQuestion (ok : Event -> bool) : Prop :=
  ok_confirm : forall m a, isConsentMessage m = false -> ok (EvConfirm m a) = true.

Class AnyConsent (ok : Event -> bool) : Prop :=
  ok_consent : forall m a, isConsentMessage m = true -> ok (EvConfirm m a) = true.

(** What is assumed of sudo: a set of worlds in which the timestamp is
    valid, entered by a successful [sudo -v], never left while the batch
    runs (the keep-alive timer sees to that), and in which [sudo -n true]
    succeeds. *)
Record SudoCache (warm : W -> Prop) : Prop := {
  warm_validate : forall w w',
    sys_spawn_wait "sudo" ["-v"] w = (Closed (Some 0%Z), w') -> warm w';
  warm_stays : forall w w', wstep w w' -> warm w -> warm w';
  warm_probe : forall w, warm w ->
    exists out err w', sys_exec "sudo -n true" None w = (ExecOk out err, w');
}.

(** The invariant of the elevation prompts: as long as no attempt has
    failed there has been at most one prompt, and after it the timestamp is
    valid. *)
Definition promptInvariant (warm : W -> Prop) (s : State W) : Prop :=
  noElevationFailure (trace s) = true ->
  (prompts (trace s) <= 1)%nat /\ (prompts (trace s) = 1%nat -> warm (world s)).

(** The same on a platform with sudo. *)
Definition promptInvariantOnUnix (warm : W -> Prop) (s : State W) : Prop :=
  osOf s <> windows /\ promptInvariant warm s.

(** The invariant of the adapter cache: every adapter call so far was made
    on the cached adapter. *)
Definition cacheInvariant (s : State W) : Prop :=
  forall a m, In (EvCall a m) (trace s) -> packageManager s = Some a.


(** The invariant of the cache, knowing which adapter (if any) is cached. *)
Definition cachedInvariant (known : option Adapter) (s : State W) : Prop :=
  cacheInvariant s /\ forall pm, known = Some pm -> packageManager s = Some pm.

(** No adapter is cached and none has been called. *)
Definition unresolved (s : State W) : Prop :=
  packageManager s = None /\ count isCall (trace s) = 0%nat.

(** [this.aptUpdateExecuted] of an installer object. *)
Definition aptFlag (self : Adapter) (s : State W) : bool :=
  default false (aptUpdateExecuted s !! adapterId self).

(** The persisted entries for [path]: how many times its export line is in
    the rc file of the user's shell. *)
Definition persistedEntries (path : string) (s : State W) : nat :=
  match result UnixEnvironmentManager.detectShell s with
  | Ok info =>
      match files s !! configFile info with
      | Some content =>
          occurrences (UnixEnvironmentManager.generateExportLine path (shell info)) content
      | None => 0
      end
  | Throw _ => 0
  end.

(** The state after a method was called [n] times in a row. *)
Fixpoint repeatedly {A} (n : nat) (m : M W A) (s : State W) : State W :=
  match n with
  | O => s
  | S n' => repeatedly n' m (after m s)
  end.

(** A method that runs the refresh of APT at most [n] times. *)
Definition refreshesAtMost {A} (n : nat) (m : M W A) : Prop :=
  forall s, (count isAptRefresh (trace (after m s)) <= count isAptRefresh (trace s) + n)%nat.

(** The state after [addToPath(path)] called twice in a row. *)
Definition addedTwice (path : string) (s : State W) : State W :=
  after (UnixEnvironmentManager.addToPath path)
        (after (UnixEnvironmentManager.addToPath path) s).

End Observe.
End Observe.

(** * Properties *)

(** ** The catalog filter *)

Section CatalogFilter.
Import Domain.

Lemma filterCategory_tools os c c' :
  filterCategory os c = Some c' ->
  tools c' = List.filter (fun tool => defined (commandFor (installCommands tool) os)) (tools c).
Proof.
  unfold filterCategory.
  destruct (String.eqb (cat_id c) "ios" && negb (os_eqb os macos)); [discriminate|].
  destruct (List.length _ =? 0)%nat; [discriminate|].
  intros [= <-]. reflexivity.
Qed.

Lemma filterCategoriesByOS_In categories os c' :
  In c' (filterCategoriesByOS categories os) ->
  exists c, In c categories /\ filterCategory os c = Some c'.
Proof.
  unfold filterCategoriesByOS.
  induction categories as [|c cs IH]; simpl; [intros []|].
  destruct (filterCategory os c) as [d|] eqn:E; simpl.
  - intros [<-|Hin].
    + exists c. split; [now left | exact E].
    + destruct (IH Hin) as (c0 & H0 & H1). exists c0. split; [now right | exact H1].
  - intros Hin. destruct (IH Hin) as (c0 & H0 & H1).
    exists c0. split; [now right | exact H1].
Qed.

(** C9. A tool whose [installCommands] has no entry for the operating
    system is in no category that [filterCategoriesByOS] returns: the
    selection, and so the batch, is built from tools that have one. *)
Theorem filter_excludes_tools_without_command :
  forall (categories : list Category) (os : OperatingSystem) (t : Tool),
    commandFor (installCommands t) os = None ->
    forall c, In c (filterCategoriesByOS categories os) -> ~ In t (tools c).
Proof.
  intros categories os t Hnone c Hc Hin.
  destruct (filterCategoriesByOS_In _ _ _ Hc) as (c0 & _ & Hf).
  rewrite (filterCategory_tools _ _ _ Hf) in Hin.
  apply filter_In in Hin as [_ Hdef].
  rewrite Hnone in Hdef. discriminate.
Qed.

Definition sampleCategory : Category :=
  {| cat_id := "design"; cat_name := "Design"; cat_description := None;
     tools := [Scenario.figma; Scenario.git]; allowsMultipleSelection := true;
     order := Some 11%Z |}.

Lemma filter_excludes_tools_without_command_witness :
  commandFor (installCommands Scenario.figma) windows = None
  /\ Forall (fun c => ~ In Scenario.figma (tools c))
            (filterCategoriesByOS [sampleCategory] windows).
Proof.
  split; [reflexivity|].
  apply List.Forall_forall.
  apply (filter_excludes_tools_without_command [sampleCategory] windows Scenario.figma).
  reflexivity.
Defined.

(** The ids that the CLI hands over come from the filtered categories, and
    [main] looks them up in the whole catalog: with unique ids the tools to
    install are tools of the filtered categories. *)
Lemma findToolById_unique (allTools : list Tool) (t : Tool) :
  List.NoDup (map id allTools) -> In t allTools -> findToolById allTools (id t) = Some t.
Proof.
  unfold findToolById. induction allTools as [|a l IH]; simpl; [intros _ []|].
  intros Hnd Hin. apply NoDup_cons_iff in Hnd as [Hnotin Hnd].
  destruct (String.eqb (id a) (id t)) eqn:E.
  - destruct Hin as [->|Hin]; [reflexivity|].
    apply String.eqb_eq in E. exfalso. apply Hnotin. rewrite E.
    apply in_map. exact Hin.
  - destruct Hin as [->|Hin]; [rewrite String.eqb_refl in E; discriminate|].
    apply IH; assumption.
Qed.

Lemma toolsToInstall_have_command (categories : list Category) (os : OperatingSystem)
    (allTools : list Tool) (selected : list string) :
  List.NoDup (map id allTools) ->
  (forall c t, In c categories -> In t (tools c) -> In t allTools) ->
  (forall i, In i selected ->
     exists c t, In c (filterCategoriesByOS categories os) /\ In t (tools c) /\ id t = i) ->
  forall t, In t (toolsToInstall allTools selected) ->
            commandFor (installCommands t) os <> None.
Proof.
  intros Hnd Hall Hsel t Hin Hnone.
  unfold toolsToInstall in Hin.
  apply list_elem_of_In, list_elem_of_omap in Hin as (i & Hi & Hfind).
  apply list_elem_of_In in Hi.
  destruct (Hsel i Hi) as (c & t' & Hc & Ht' & <-).
  destruct (filterCategoriesByOS_In _ _ _ Hc) as (c0 & Hc0 & Hf).
  pose proof Ht' as Hfil. rewrite (filterCategory_tools _ _ _ Hf) in Hfil.
  apply filter_In in Hfil as [Hin0 Hdef].
  rewrite (findToolById_unique allTools t' Hnd (Hall _ _ Hc0 Hin0)) in Hfind.
  injection Hfind as <-. rewrite Hnone in Hdef. discriminate.
Qed.

End CatalogFilter.

(** ** Rules for reasoning about methods *)

Section Logic.
Import Domain Proc Node Observe.
Context {W : Type} `{Sys W}.

(** *** Results and final states *)

Lemma wp_ret {A} (a : A) (Q : Res A -> State W -> Prop) s :
  Q (Ok a) s -> wp (ret a) Q s.
Proof. exact (fun q => q). Qed.

Lemma wp_throw {A} (e : Exn) (Q : Res A -> State W -> Prop) s :
  Q (Throw e) s -> wp (throw e) Q s.
Proof. exact (fun q => q). Qed.

Lemma wp_bind {A B} (m : M W A) (k : A -> M W B) (Q : Res B -> State W -> Prop) s :
  wp m (fun r s' => match r with
                    | Ok a => wp (k a) Q s'
                    | Throw e => Q (Throw e) s'
                    end) s ->
  wp (bind m k) Q s.
Proof.
  unfold wp, result, after, bind. destruct (m s) as [[a|e] s']; exact (fun q => q).
Qed.

Lemma wp_tryCatch {A} (m : M W A) (h : Exn -> M W A) (Q : Res A -> State W -> Prop) s :
  wp m (fun r s' => match r with
                    | Ok a => Q (Ok a) s'
                    | Throw e => wp (h e) Q s'
                    end) s ->
  wp (tryCatch m h) Q s.
Proof.
  unfold wp, result, after, tryCatch. destruct (m s) as [[a|e] s']; exact (fun q => q).
Qed.

Lemma wp_gets {A} (f : State W -> A) (Q : Res A -> State W -> Prop) s :
  Q (Ok (f s)) s -> wp (gets f) Q s.
Proof. exact (fun q => q). Qed.

Lemma wp_modify (f : State W -> State W) (Q : Res unit -> State W -> Prop) s :
  Q (Ok tt) (f s) -> wp (modify f) Q s.
Proof. exact (fun q => q). Qed.

Lemma wp_weaken {A} (m : M W A) (Q Q' : Res A -> State W -> Prop) s :
  (forall r s', Q r s' -> Q' r s') -> wp m Q s -> wp m Q' s.
Proof. unfold wp. auto. Qed.

(** *** Methods that never throw *)

Lemma total_ret {A} (a : A) : total (ret a : M W A).
Proof. intros s. now exists a. Qed.

Lemma total_gets {A} (f : State W -> A) : total (gets f).
Proof. intros s. now exists (f s). Qed.

Lemma total_modify (f : State W -> State W) : total (modify f).
Proof. intros s. now exists tt. Qed.

Lemma total_bind {A B} (m : M W A) (k : A -> M W B) :
  total m -> (forall a, total (k a)) -> total (bind m k).
Proof.
  intros Hm Hk s. unfold result, bind. destruct (Hm s) as [a Ha].
  unfold result in Ha. destruct (m s) as [r s']. simpl in Ha. subst r.
  apply Hk.
Qed.

Lemma total_tryCatch {A} (m : M W A) (h : Exn -> M W A) :
  (forall e, total (h e)) -> total (tryCatch m h).
Proof.
  intros Hh s. unfold result, tryCatch. destruct (m s) as [[a|e] s'].
  - now exists a.
  - apply Hh.
Qed.

Lemma total_forEach {A} (l : list A) (body : A -> M W unit) :
  (forall a, total (body a)) -> total (forEach l body).
Proof.
  intros Hb. induction l as [|x t IH]; simpl.
  - apply total_ret.
  - apply total_bind; [apply Hb | intros _; exact IH].
Qed.

Lemma total_execCommand c d : total (execCommand c d).
Proof.
  intros s. unfold result, execCommand. destruct (sys_exec c d (world s)) as [o w].
  now exists o.
Qed.

Lemma total_spawnTimed c l : total (spawnTimed c l).
Proof.
  intros s. unfold result, spawnTimed. destruct (sys_spawn c l (world s)) as [o w].
  now exists o.
Qed.

Lemma total_spawnWait f a : total (spawnWait f a).
Proof.
  intros s. unfold result, spawnWait. destruct (sys_spawn_wait f a (world s)) as [o w].
  now exists o.
Qed.

Lemma total_confirm m : total (confirm m).
Proof.
  intros s. unfold result, confirm. destruct (sys_confirm m (world s)) as [o w].
  now exists o.
Qed.

Lemma total_select m : total (select m).
Proof.
  intros s. unfold result, select. destruct (sys_select m (world s)) as [o w].
  now exists o.
Qed.

Lemma wp_total {A} (m : M W A) (Q : Res A -> State W -> Prop) s :
  total m -> (forall a s', Q (Ok a) s') -> wp m Q s.
Proof.
  intros Hm HQ. unfold wp. destruct (Hm s) as [a ->]. apply HQ.
Qed.

(** *** Frames *)

Lemma steps_refl ok (s : State W) : steps ok s s.
Proof.
  split; try reflexivity. exists []. split; reflexivity.
Qed.

Lemma steps_trans ok (s1 s2 s3 : State W) :
  steps ok s1 s2 -> steps ok s2 s3 -> steps ok s1 s3.
Proof.
  intros [(e1 & T1 & O1) W1 P1 U1 M1 N1] [(e2 & T2 & O2) W2 P2 U2 M2 N2].
  split; try congruence.
  - exists (e2 ++ e1)%list. split.
    + rewrite T2, T1. apply app_assoc.
    + rewrite forallb_app, O1, O2. reflexivity.
  - etransitivity; eassumption.
Qed.

Lemma steps_event ok (e : Event) (s : State W) :
  ok e = true -> steps ok s (setTrace (e :: trace s) s).
Proof.
  intros He. split; try reflexivity.
  exists [e]. split; [reflexivity|]. simpl. now rewrite He.
Qed.

Lemma steps_world_event ok (e : Event) (w : W) (s : State W) :
  ok e = true -> wstep (world s) w ->
  steps ok s (setTrace (e :: trace s) (setWorld w s)).
Proof.
  intros He Hw. split; try reflexivity.
  - exists [e]. split; [reflexivity|]. simpl. now rewrite He.
  - simpl. now apply rtc_once.
Qed.

Lemma framed_ret {A} ok (a : A) : framed ok (ret a : M W A).
Proof. intros s. apply steps_refl. Qed.

Lemma framed_throw {A} ok (e : Exn) : framed ok (throw e : M W A).
Proof. intros s. apply steps_refl. Qed.

Lemma framed_gets {A} ok (f : State W -> A) : framed ok (gets f).
Proof. intros s. apply steps_refl. Qed.

Lemma framed_bind {A B} ok (m : M W A) (k : A -> M W B) :
  framed ok m -> (forall a, framed ok (k a)) -> framed ok (bind m k).
Proof.
  intros Hm Hk s. specialize (Hm s). unfold after, bind in *.
  destruct (m s) as [[a|e] s']; simpl in *.
  - eapply steps_trans; [exact Hm | apply Hk].
  - exact Hm.
Qed.

Lemma framed_tryCatch {A} ok (m : M W A) (h : Exn -> M W A) :
  framed ok m -> (forall e, framed ok (h e)) -> framed ok (tryCatch m h).
Proof.
  intros Hm Hh s. specialize (Hm s). unfold after, tryCatch in *.
  destruct (m s) as [[a|e] s']; simpl in *.
  - exact Hm.
  - eapply steps_trans; [exact Hm | apply Hh].
Qed.

Lemma framed_forEach {A} ok (l : list A) (body : A -> M W unit) :
  (forall a, framed ok (body a)) -> framed ok (forEach l body).
Proof.
  intros Hb. induction l as [|x t IH]; simpl.
  - apply framed_ret.
  - apply framed_bind; [apply Hb | intros _; exact IH].
Qed.

Lemma framed_emit ok (e : Event) : ok e = true -> framed ok (emit e).
Proof. intros He s. now apply steps_event. Qed.

Lemma framed_log ok `{!Basic ok} l m : framed ok (log l m).
Proof. apply framed_emit, ok_log. Qed.

Lemma framed_execCommand ok c d : ok (EvExec c) = true -> framed ok (execCommand c d).
Proof.
  intros He s. unfold after, execCommand.
  pose proof (wstep_exec c d (world s)) as Hw.
  destruct (sys_exec c d (world s)) as [o w]. simpl in *.
  now apply steps_world_event.
Qed.

Lemma framed_execSyncOk ok c : ok (EvExec c) = true -> framed ok (execSyncOk c).
Proof.
  intros He. apply framed_bind; [now apply framed_execCommand|].
  intros []; apply framed_ret.
Qed.

Lemma framed_spawnTimed ok `{!Basic ok} c l : framed ok (spawnTimed c l).
Proof.
  intros s. unfold after, spawnTimed.
  pose proof (wstep_spawn c l (world s)) as Hw.
  destruct (sys_spawn c l (world s)) as [o w]. simpl in *.
  apply steps_world_event; [apply ok_spawn | exact Hw].
Qed.

Lemma framed_spawnWait ok `{!Basic ok} f a : framed ok (spawnWait f a).
Proof.
  intros s. unfold after, spawnWait.
  pose proof (wstep_spawn_wait f a (world s)) as Hw.
  destruct (sys_spawn_wait f a (world s)) as [o w]. simpl in *.
  apply steps_world_event; [apply ok_spawn | exact Hw].
Qed.

Lemma framed_confirm ok m :
  (forall a, ok (EvConfirm m a) = true) -> framed ok (confirm m).
Proof.
  intros He s. unfold after, confirm.
  pose proof (wstep_confirm m (world s)) as Hw.
  destruct (sys_confirm m (world s)) as [o w]. simpl in *.
  apply steps_world_event; [apply He | exact Hw].
Qed.

Lemma framed_select ok `{!Basic ok} m : framed ok (select m).
Proof.
  intros s. unfold after, select.
  pose proof (wstep_select m (world s)) as Hw.
  destruct (sys_select m (world s)) as [o w]. simpl in *.
  apply steps_world_event; [apply ok_select | exact Hw].
Qed.

Lemma framed_now ok : framed ok now.
Proof. apply framed_gets. Qed.

Lemma framed_getCurrentOS ok : framed ok getCurrentOS.
Proof. apply framed_gets. Qed.

Lemma framed_envOrEmpty ok n : framed ok (envOrEmpty n).
Proof. apply framed_gets. Qed.

Lemma framed_existsSync ok p : framed ok (existsSync p).
Proof. apply framed_gets. Qed.

Lemma framed_setEnvVar ok n v : framed ok (setEnvVar n v).
Proof. intros s. split; try reflexivity. exists []. split; reflexivity. Qed.

Lemma framed_readFileSync ok p : framed ok (readFileSync p).
Proof.
  intros s. unfold after, readFileSync. destruct (files s !! p); apply steps_refl.
Qed.

Lemma framed_appendFileSync ok p d : framed ok (appendFileSync p d).
Proof.
  intros s. unfold after, appendFileSync. destruct (bool_decide _); simpl.
  - apply steps_refl.
  - split; try reflexivity. exists []. split; reflexivity.
Qed.

Lemma framed_setShellInfo ok i : framed ok (modify (setShellInfo i)).
Proof. intros s. split; try reflexivity. exists []. split; reflexivity. Qed.

Lemma framed_setKeepAlive ok (f : State W -> option KeepAlive) (g : State W -> nat) :
  framed ok (modify (fun s => setKeepAlive (f s) (g s) s)).
Proof. intros s. split; try reflexivity. exists []. split; reflexivity. Qed.

Lemma framed_setAptUpdateExecuted ok (f : State W -> gmap nat bool) :
  framed ok (modify (fun s => setAptUpdateExecuted (f s) s)).
Proof. intros s. split; try reflexivity. exists []. split; reflexivity. Qed.

(** *** Invariants *)

Lemma hoare_ret {A} (I : State W -> Prop) (a : A) : hoare I (ret a : M W A) I.
Proof. intros s. exact (fun i => i). Qed.

Lemma hoare_throw {A} (I : State W -> Prop) (e : Exn) : hoare I (throw e : M W A) I.
Proof. intros s. exact (fun i => i). Qed.

Lemma hoare_gets {A} (I : State W -> Prop) (f : State W -> A) : hoare I (gets f) I.
Proof. intros s. exact (fun i => i). Qed.

Lemma hoare_bind {A B} (I : State W -> Prop) (m : M W A) (k : A -> M W B) :
  hoare I m I -> (forall a, hoare I (k a) I) -> hoare I (bind m k) I.
Proof.
  intros Hm Hk s Hs. specialize (Hm s Hs). unfold after, bind in *.
  destruct (m s) as [[a|e] s']; simpl in *.
  - now apply Hk.
  - exact Hm.
Qed.

Lemma hoare_tryCatch {A} (I : State W -> Prop) (m : M W A) (h : Exn -> M W A) :
  hoare I m I -> (forall e, hoare I (h e) I) -> hoare I (tryCatch m h) I.
Proof.
  intros Hm Hh s Hs. specialize (Hm s Hs). unfold after, tryCatch in *.
  destruct (m s) as [[a|e] s']; simpl in *.
  - exact Hm.
  - now apply Hh.
Qed.

Lemma hoare_forEach {A} (I : State W -> Prop) (l : list A) (body : A -> M W unit) :
  (forall a, hoare I (body a) I) -> hoare I (forEach l body) I.
Proof.
  intros Hb. induction l as [|x t IH]; simpl.
  - apply hoare_ret.
  - apply hoare_bind; [apply Hb | intros _; exact IH].
Qed.

(** What a frame keeps, an invariant keeps. *)
Lemma hoare_framed {A} ok (I : State W -> Prop) (m : M W A) :
  (forall s s', steps ok s s' -> I s -> I s') -> framed ok m -> hoare I m I.
Proof. intros HI Hm s Hs. exact (HI _ _ (Hm s) Hs). Qed.

End Logic.

Create HintDb framed discriminated.
Create HintDb total discriminated.

#[export] Hint Resolve framed_ret framed_throw framed_gets framed_log framed_execCommand
  framed_execSyncOk framed_spawnTimed framed_spawnWait framed_confirm framed_select
  framed_now framed_getCurrentOS framed_envOrEmpty framed_existsSync framed_setEnvVar
  framed_readFileSync framed_appendFileSync framed_setShellInfo framed_setKeepAlive
  framed_setAptUpdateExecuted framed_emit : framed.
#[export] Hint Resolve Observe.ok_log Observe.ok_spawn Observe.ok_kill Observe.ok_select
  Observe.ok_exec Observe.ok_confirm Observe.ok_consent : framed.
#[export] Hint Extern 1 (Observe.isConsentMessage _ = _) => reflexivity : framed.
#[export] Hint Extern 1 (_ (Proc.EvExec _) = true) => reflexivity : framed.

#[export] Hint Resolve total_ret total_gets total_modify total_execCommand total_spawnTimed
  total_spawnWait total_confirm total_select : total.

(** One step through the structure of a method, for each judgement. *)
Ltac framed_step :=
  lazymatch goal with
  | |- Observe.framed _ (Proc.bind _ _) => apply framed_bind; [|intros ?]
  | |- Observe.framed _ (Proc.tryCatch _ _) => apply framed_tryCatch; [|intros ?]
  | |- Observe.framed _ (Proc.forEach _ _) => apply framed_forEach; intros ?
  | |- Observe.framed _ (if ?b then _ else _) => destruct b
  | |- Observe.framed _ (match ?x with _ => _ end) => destruct x
  | |- Observe.framed _ ?m =>
      first [ solve [eauto with framed]
            | match m with context [if ?b then _ else _] => is_var b; destruct b end ]
  end.

Ltac framed_auto := repeat framed_step.

Ltac total_step :=
  lazymatch goal with
  | |- Observe.total (Proc.bind _ _) => apply total_bind; [|intros ?]
  | |- Observe.total (Proc.tryCatch _ _) => apply total_tryCatch; intros ?
  | |- Observe.total (Proc.forEach _ _) => apply total_forEach; intros ?
  | |- Observe.total (if ?b then _ else _) => destruct b
  | |- Observe.total (match ?x with _ => _ end) => destruct x
  | |- Observe.total _ => solve [eauto with total]
  end.

Ltac total_auto := repeat total_step.

Ltac hoare_step tac :=
  lazymatch goal with
  | |- Observe.hoare _ (Proc.bind _ _) _ => apply hoare_bind; [|intros ?]
  | |- Observe.hoare _ (Proc.tryCatch _ _) _ => apply hoare_tryCatch; [|intros ?]
  | |- Observe.hoare _ (Proc.forEach _ _) _ => apply hoare_forEach; intros ?
  | |- Observe.hoare _ (Proc.ret _) _ => apply hoare_ret
  | |- Observe.hoare _ (Proc.throw _) _ => apply hoare_throw
  | |- Observe.hoare _ (Proc.gets _) _ => apply hoare_gets
  | |- Observe.hoare _ (if ?b then _ else _) _ => destruct b
  | |- Observe.hoare _ (match ?x with _ => _ end) _ => destruct x
  | |- Observe.hoare _ _ _ => solve [tac]
  end.

(** ** Frames of the shell, the adapters and the environment managers *)

Section Frames.
Import Domain Proc Node Observe.
Context {W : Type} `{Sys W}.
Context (ok : Event -> bool) `{!Basic ok}.

Lemma framed_executeString c o :
  ok (EvExec c) = true -> framed ok (ShellWrapper.executeString c o).
Proof. intros Hc. unfold ShellWrapper.executeString. framed_auto. Qed.

Lemma framed_onTimeout c t : framed ok (ShellWrapper.onTimeout c t).
Proof. unfold ShellWrapper.onTimeout. framed_auto. Qed.

Lemma framed_executeInteractive c o : framed ok (ShellWrapper.executeInteractive c o).
Proof.
  unfold ShellWrapper.executeInteractive.
  apply framed_bind; [framed_auto|]. intros _.
  destruct (JS.split " " c) as [|[|a p] l]; [framed_auto..|].
  apply framed_bind; [framed_auto|]. intros b.
  pose proof framed_onTimeout.
  destruct b; framed_auto.
Qed.

Lemma framed_isUnixRoot : framed ok PrivilegeChecker.isUnixRoot.
Proof. apply framed_gets. Qed.

Lemma framed_isAdmin :
  ok (EvExec "net session") = true -> framed ok PrivilegeChecker.isAdmin.
Proof.
  intros Hc. pose proof framed_isUnixRoot.
  unfold PrivilegeChecker.isAdmin, PrivilegeChecker.isWindowsAdmin. framed_auto.
Qed.

Lemma framed_isSudoCached :
  ok (EvExec "sudo -n true") = true -> framed ok PrivilegeChecker.isSudoCached.
Proof. intros Hc. unfold PrivilegeChecker.isSudoCached. framed_auto. Qed.

Lemma framed_startSudoKeepAlive n : framed ok (PrivilegeChecker.startSudoKeepAlive n).
Proof. unfold PrivilegeChecker.startSudoKeepAlive. framed_auto. Qed.

Lemma framed_startKeepAlive : framed ok SudoExecutor.startKeepAlive.
Proof.
  pose proof framed_startSudoKeepAlive.
  unfold SudoExecutor.startKeepAlive. framed_auto.
Qed.

Lemma framed_requestPrivileges `{!AnyConsent ok} :
  ok (EvExec "net session") = true -> ok (EvExec "sudo -n true") = true ->
  framed ok SudoExecutor.requestPrivileges.
Proof.
  intros Hn Hs.
  pose proof (framed_isAdmin Hn). pose proof (framed_isSudoCached Hs).
  pose proof framed_startKeepAlive.
  unfold SudoExecutor.requestPrivileges, SudoExecutor.requestWindowsPrivileges,
    SudoExecutor.requestUnixPrivileges.
  framed_auto.
Qed.

Lemma framed_execDirect c : ok (EvExec c) = true -> framed ok (SudoExecutor.execDirect c).
Proof. intros Hc. unfold SudoExecutor.execDirect. framed_auto. Qed.

Lemma framed_sudo_exec `{!AnyConsent ok} c :
  ok (EvExec "net session") = true -> ok (EvExec "sudo -n true") = true ->
  ok (EvExec c) = true -> ok (EvExec ("sudo " ++ c)) = true ->
  framed ok (SudoExecutor.exec c).
Proof.
  intros Hn Hs Hc Hsc.
  pose proof (framed_isAdmin Hn). pose proof (framed_isSudoCached Hs).
  pose proof (framed_requestPrivileges Hn Hs).
  pose proof (framed_execDirect _ Hc). pose proof (framed_execDirect _ Hsc).
  unfold SudoExecutor.exec. framed_auto.
Qed.

(** Under a policy that allows every command and every question that is
    not about elevation. *)
Context `{!AnyCommand ok} `{!AnyQuestion ok}.

Lemma framed_unix_isInPath p : framed ok (UnixEnvironmentManager.isInPath p).
Proof. unfold UnixEnvironmentManager.isInPath. framed_auto. Qed.

Lemma framed_unix_refreshProcessPath p :
  framed ok (UnixEnvironmentManager.refreshProcessPath p).
Proof. unfold UnixEnvironmentManager.refreshProcessPath. framed_auto. Qed.

Lemma framed_windows_isInPath p : framed ok (WindowsEnvironmentManager.isInPath p).
Proof. unfold WindowsEnvironmentManager.isInPath. framed_auto. Qed.

Lemma framed_windows_refreshProcessPath p :
  framed ok (WindowsEnvironmentManager.refreshProcessPath p).
Proof. unfold WindowsEnvironmentManager.refreshProcessPath. framed_auto. Qed.

Lemma framed_anyExists l : framed ok (HomebrewAdapter.anyExists l).
Proof. induction l; simpl; framed_auto. Qed.

Lemma framed_anyRuns l : framed ok (HomebrewAdapter.anyRuns l).
Proof. induction l; simpl; framed_auto. Qed.

Lemma framed_brew_isAvailable : framed ok HomebrewAdapter.isAvailable.
Proof.
  pose proof framed_anyExists. pose proof framed_anyRuns.
  unfold HomebrewAdapter.isAvailable. framed_auto.
Qed.

Lemma framed_brew_update : framed ok HomebrewAdapter.update.
Proof.
  pose proof framed_brew_isAvailable. pose proof framed_executeString.
  unfold HomebrewAdapter.update. framed_auto.
Qed.

Lemma framed_brew_install t : framed ok (HomebrewAdapter.install t).
Proof.
  pose proof framed_brew_isAvailable. pose proof framed_executeInteractive.
  unfold HomebrewAdapter.install. framed_auto.
Qed.

Lemma framed_brewInstaller_isAvailable : framed ok HomebrewInstaller.isAvailable.
Proof.
  pose proof framed_anyExists. pose proof framed_anyRuns.
  unfold HomebrewInstaller.isAvailable. framed_auto.
Qed.

Lemma framed_brewInstaller_install : framed ok HomebrewInstaller.install.
Proof.
  pose proof framed_brewInstaller_isAvailable.
  unfold HomebrewInstaller.install. framed_auto.
Qed.

Lemma framed_winget_isAvailable : framed ok WinGetAdapter.isAvailable.
Proof.
  pose proof framed_executeString.
  unfold WinGetAdapter.isAvailable. framed_auto.
Qed.

Lemma framed_winget_update : framed ok WinGetAdapter.update.
Proof.
  pose proof framed_winget_isAvailable. pose proof framed_executeString.
  unfold WinGetAdapter.update. framed_auto.
Qed.

Lemma framed_winget_install t : framed ok (WinGetAdapter.install t).
Proof.
  pose proof framed_winget_isAvailable. pose proof framed_executeString.
  unfold WinGetAdapter.install. framed_auto.
Qed.

Lemma framed_checkInstalled t : framed ok (InstallationService.checkInstalled t).
Proof.
  pose proof framed_executeString.
  unfold InstallationService.checkInstalled. framed_auto.
Qed.

Lemma framed_refreshPathAfterInstall : framed ok InstallationService.refreshPathAfterInstall.
Proof.
  pose proof framed_unix_isInPath. pose proof framed_unix_refreshProcessPath.
  pose proof framed_windows_isInPath. pose proof framed_windows_refreshProcessPath.
  unfold InstallationService.refreshPathAfterInstall, InstallationService.envIsInPath,
    InstallationService.envRefreshProcessPath.
  framed_auto.
Qed.

Lemma framed_elapsedSince t : framed ok (InstallationService.elapsedSince t).
Proof. unfold InstallationService.elapsedSince. framed_auto. Qed.

(** The Linux installer also asks for consent. *)
Context `{!AnyConsent ok}.

Lemma framed_linux_update self : framed ok (LinuxInstaller.update self).
Proof.
  pose proof framed_executeString.
  pose proof (framed_requestPrivileges (ok_exec _) (ok_exec _)).
  pose proof (fun c => framed_sudo_exec c (ok_exec _) (ok_exec _) (ok_exec _) (ok_exec _)).
  unfold LinuxInstaller.update, LinuxInstaller.getAptUpdateExecuted,
    LinuxInstaller.setAptUpdateExecutedOf.
  framed_auto.
Qed.

Lemma framed_linux_install self t : framed ok (LinuxInstaller.install self t).
Proof.
  pose proof framed_executeString. pose proof framed_executeInteractive.
  pose proof framed_linux_update.
  pose proof (fun c => framed_sudo_exec c (ok_exec _) (ok_exec _) (ok_exec _) (ok_exec _)).
  unfold LinuxInstaller.install, LinuxInstaller.installWithApt,
    LinuxInstaller.installWithSnap, LinuxInstaller.installWithFlatpak,
    LinuxInstaller.installWithScript, LinuxInstaller.installDirect,
    LinuxInstaller.getAptUpdateExecuted.
  framed_auto.
Qed.

End Frames.

Lemma wp_any {W : Type} {A} (m : Proc.M W A) (Q : Proc.Res A -> Proc.State W -> Prop) s :
  (forall r s', Q r s') -> Observe.wp m Q s.
Proof. intros HQ. apply HQ. Qed.

(** One step through a method whose result matters. *)
Ltac wp_step :=
  lazymatch goal with
  | |- Observe.wp (Proc.bind _ _) _ _ => apply wp_bind
  | |- Observe.wp (Proc.tryCatch _ _) _ _ => apply wp_tryCatch
  | |- Observe.wp (Proc.ret _) _ _ => apply wp_ret
  | |- Observe.wp (Proc.throw _) _ _ => apply wp_throw
  | |- Observe.wp (Proc.gets _) _ _ => apply wp_gets
  | |- Observe.wp (Proc.modify _) _ _ => apply wp_modify
  | |- Observe.wp (if ?b then _ else _) _ _ => destruct b
  | |- Observe.wp (match ?x with _ => _ end) _ _ => destruct x
  | |- Observe.wp ?m _ _ =>
      first [ apply wp_total; [solve [eauto with total] | intros ? ?]
            | apply wp_any; intros [?|?] ? ]
  end; cbn beta iota.

(** ** The orchestrator, tool by tool *)

Section Orchestrator.
Import Domain Proc Node Observe InstallationService.
Context {W : Type} `{Sys W}.

Lemma total_log l m : total (log l m : M W unit).
Proof. apply total_modify. Qed.

Lemma total_checkInstalled t : total (checkInstalled t : M W bool).
Proof. unfold checkInstalled. total_auto. Qed.

Lemma total_elapsedSince t : total (elapsedSince t : M W string).
Proof. unfold elapsedSince, now. total_auto. Qed.

Lemma total_refreshPathAfterInstall : total (refreshPathAfterInstall : M W unit).
Proof.
  unfold refreshPathAfterInstall, getCurrentOS, envIsInPath, envRefreshProcessPath,
    WindowsEnvironmentManager.isInPath, WindowsEnvironmentManager.refreshProcessPath,
    UnixEnvironmentManager.isInPath, UnixEnvironmentManager.refreshProcessPath,
    envOrEmpty, setEnvVar.
  total_auto.
Qed.

Hint Resolve total_log total_checkInstalled total_elapsedSince
  total_refreshPathAfterInstall : total.

(** With the check command exiting 0, [checkInstalled] answers yes and runs
    nothing else. *)
Lemma checkInstalled_ok (t : Tool) (s : State W) out err w' :
  sys_exec (checkCommand t) None (world s) = (ExecOk out err, w') ->
  checkInstalled t s
  = (Ok true, setTrace (EvExec (checkCommand t) :: trace s) (setWorld w' s)).
Proof.
  intros Hx.
  unfold checkInstalled, tryCatch, ShellWrapper.executeString, bind, execCommand, ret.
  cbn. rewrite Hx. reflexivity.
Qed.

(** C1. When the check command of a tool exits with code 0, [installTool]
    reports [success = true] and [alreadyInstalled = true]; the only thing
    it runs is the check command, it creates and calls no adapter, and the
    cached package manager is left as it was (nothing is resolved). *)
Theorem already_installed_skips_manager :
  forall (t : Tool) (showProgress : bool) (s : State W) out err w',
    sys_exec (checkCommand t) None (world s) = (ExecOk out err, w') ->
    exists r,
      result (installTool t showProgress) s = Ok r
      /\ success r = true /\ alreadyInstalled r = true
      /\ packageManager (after (installTool t showProgress) s) = packageManager s
      /\ nextId (after (installTool t showProgress) s) = nextId s
      /\ count isObjectEvent (trace (after (installTool t showProgress) s))
         = count isObjectEvent (trace s)
      /\ List.filter (fun e => negb (match e with EvLog _ _ => true | _ => false end))
           (trace (after (installTool t showProgress) s))
         = EvExec (checkCommand t)
           :: List.filter (fun e => negb (match e with EvLog _ _ => true | _ => false end))
                (trace s).
Proof.
  intros t showProgress s out err w' Hx.
  unfold result, after, installTool, bind, now, gets.
  rewrite (checkInstalled_ok t s out err w' Hx).
  destruct showProgress; cbn; eexists; repeat split; reflexivity.
Qed.

(** [installTool] never throws, answers for the tool it was given, and
    reports a tool as already installed only together with success. *)
Lemma installTool_returns (t : Tool) (showProgress : bool) (s : State W) :
  exists r, result (installTool t showProgress) s = Ok r
            /\ tool r = t
            /\ (alreadyInstalled r = true -> success r = true).
Proof.
  change (wp (installTool t showProgress)
             (fun r _ => exists res, r = Ok res /\ tool res = t
                                     /\ (alreadyInstalled res = true -> success res = true))
             s).
  unfold installTool, now.
  repeat wp_step; eexists; (split; [reflexivity|]); split; try reflexivity;
    cbn; congruence.
Qed.

Lemma installEach_returns (ts : list Tool) (showProgress : bool) (s : State W) :
  exists results,
    result (installEach ts showProgress) s = Ok results
    /\ map tool results = ts
    /\ Forall (fun r => alreadyInstalled r = true -> success r = true) results.
Proof.
  revert s. induction ts as [|t ts IH]; intros s; simpl.
  - exists []. repeat split. constructor.
  - destruct (installTool_returns t showProgress s) as (r & Hr & Ht & Hinv).
    unfold result, bind in *.
    destruct (installTool t showProgress s) as [r0 s1]. simpl in Hr. subst r0.
    destruct (IH s1) as (rs & Hrs & Hts & Hall).
    destruct (installEach ts showProgress s1) as [r1 s2]. simpl in Hrs. subst r1.
    exists (r :: rs). simpl. repeat split.
    + now rewrite Ht, Hts.
    + now constructor.
Qed.

Lemma installTools_returns (ts : list Tool) (showProgress : bool) (s : State W) :
  exists results,
    result (installTools ts showProgress) s = Ok results
    /\ map tool results = ts
    /\ Forall (fun r => alreadyInstalled r = true -> success r = true) results.
Proof.
  destruct (installEach_returns ts showProgress
              (after (if showProgress && (0 <? List.length ts)%nat
                      then log LInfo ("
📦 Iniciando instalação de " ++ JS.natToString (N.of_nat (List.length ts))
                                      ++ " ferramenta(s)...
")
                      else ret tt) s)) as (rs & Hrs & Hts & Hall).
  exists rs. split; [|now split].
  unfold result, after, installTools, bind in *.
  destruct (showProgress && (0 <? List.length ts)%nat); cbn in *;
    match goal with
    | H : fst (installEach ?a ?b ?c) = _ |- _ =>
        destruct (installEach a b c) as [r0 s2]; simpl in H; subst r0
    end; destruct showProgress; reflexivity.
Qed.

(** C8. Every outcome that the orchestrator produces, for one tool or for
    a batch, has [success = true] whenever it has [alreadyInstalled = true];
    the orchestrator always returns (it never throws), with one outcome per
    tool, in the order of the tools. *)
Theorem already_installed_implies_success :
  forall (ts : list Tool) (t : Tool) (showProgress : bool) (s : State W),
    (exists r, result (installTool t showProgress) s = Ok r
               /\ tool r = t
               /\ (alreadyInstalled r = true -> success r = true))
    /\ (exists results,
          result (installTools ts showProgress) s = Ok results
          /\ map tool results = ts
          /\ Forall (fun r => alreadyInstalled r = true -> success r = true) results).
Proof.
  intros ts t showProgress s. split.
  - apply installTool_returns.
  - apply installTools_returns.
Qed.

End Orchestrator.

Section OrchestratorWitness.
Import Domain Proc Node Observe InstallationService Scenario.

Lemma already_installed_skips_manager_witness :
  sys_exec (Sys := machineSys) (checkCommand git) None (world gitInstalled)
  = (ExecOk "ok" EmptyString, world gitInstalled)
  /\ exists r,
      result (installTool (H := machineSys) git true) gitInstalled = Ok r
      /\ success r = true /\ alreadyInstalled r = true
      /\ packageManager (after (installTool (H := machineSys) git true) gitInstalled) = None.
Proof.
  split; [reflexivity|].
  destruct (already_installed_skips_manager (H := machineSys) git true gitInstalled
              "ok" EmptyString (world gitInstalled) eq_refl)
    as (r & Hr & Hs & Ha & Hp & _).
  exists r. repeat split; assumption.
Defined.

End OrchestratorWitness.

(** ** The Windows environment manager *)

Section WindowsEnvironment.
Import Domain Proc Node Observe Environment WindowsEnvironmentManager.
Context {W : Type} `{Sys W}.




End WindowsEnvironment.

Section WindowsEnvironmentWitness.
Import Domain Proc Node Observe Environment WindowsEnvironmentManager Scenario.



(** The limit counts code units, not bytes: a value of 600 accented
    letters is 1200 bytes of UTF-8 and has length 600, so [setVariable]
    runs [setx] for it. *)
Lemma windows_limit_counts_code_units :
  let value := JS.join EmptyString (List.repeat "é" 600) in
  String.length value = 1200%nat
  /\ JS.length value = 600%nat
  /\ commandsOf (trace (after (setVariable (H := machineSys) "GREETING" value)
                           windowsSession))
     = setxCommand "GREETING" value :: commandsOf (trace windowsSession).
Proof. vm_compute. repeat split; reflexivity. Qed.

End WindowsEnvironmentWitness.

(** ** The interactive run and its timeout *)

Section InteractiveRun.
Import Domain Proc Node Observe ShellWrapper.
Context {W : Type} `{Sys W}.

Lemma split_nonempty (sep : ascii) (s : string) : JS.split sep s <> [].
Proof.
  destruct s as [|c s]; simpl; [discriminate|].
  destruct (Ascii.eqb c sep); [discriminate|].
  destruct (JS.split sep s); discriminate.
Qed.

(** Joining the pieces of a split with the separator gives the string back:
    the child runs the command as it was written. *)
Lemma join_split (sep : ascii) (s : string) :
  JS.join (String sep EmptyString) (JS.split sep s) = s.
Proof.
  induction s as [|c s IH]; simpl; [reflexivity|].
  destruct (Ascii.eqb c sep) eqn:E.
  - apply Ascii.eqb_eq in E. subst c.
    pose proof (split_nonempty sep s) as Hne.
    simpl. destruct (JS.split sep s) as [|h t]; [contradiction|].
    simpl in *. now rewrite IH.
  - pose proof (split_nonempty sep s) as Hne.
    destruct (JS.split sep s) as [|h t]; [contradiction|].
    simpl in *. destruct t; simpl in *; now rewrite <- IH.
Qed.

Lemma split_head (sep c : ascii) (r : string) :
  c <> sep -> exists h t, JS.split sep (String c r) = String c h :: t.
Proof.
  intros Hc. simpl. destruct (Ascii.eqb c sep) eqn:E.
  - apply Ascii.eqb_eq in E. contradiction.
  - pose proof (split_nonempty sep r) as Hne.
    destruct (JS.split sep r) as [|h t]; [contradiction|]. now exists h, t.
Qed.

(** What [executeInteractive] does with a command that starts with a word:
    it logs it, starts the child with the limit, and looks at what the child
    does. *)
Lemma executeInteractive_run (c : ascii) (r : string) options (s : State W) b w' :
  c <> " "%char ->
  sys_spawn (String c r) (default defaultTimeout (options ≫= timeout)) (world s) = (b, w') ->
  let limit := default defaultTimeout (options ≫= timeout) in
  let s1 := setTrace (EvSpawn (String c r) :: EvLog LConsole ("$ " ++ String c r) :: trace s)
              (setWorld w' s) in
  executeInteractive (String c r) options s
  = match b with
    | Closes t code =>
        if (t <? limit)%N then
          (Ok {| exitCode := default 0%Z code; stdout := EmptyString;
                 stderr := EmptyString; command := String c r |}, s1)
        else onTimeout (String c r) limit s1
    | Errors t message =>
        if (t <? limit)%N then
          (Throw (ShellError ("Erro ao executar comando: " ++ message) 1 (String c r)
                             EmptyString message), s1)
        else onTimeout (String c r) limit s1
    | Hangs => onTimeout (String c r) limit s1
    end.
Proof.
  intros Hc Hsp limit s1.
  unfold executeInteractive.
  destruct (split_head " " c r Hc) as (h & t & Hsplit).
  pose proof (join_split " " (String c r)) as Hjoin.
  rewrite Hsplit in *. rewrite Hjoin.
  unfold bind, log, emit, modify, spawnTimed. cbn [fst snd world trace setTrace setWorld].
  rewrite Hsp. subst limit s1.
  destruct b as [t0 code|t0 m|]; try reflexivity;
    destruct (t0 <? _)%N; reflexivity.
Qed.

(** The Homebrew adapter, when Homebrew is found and the tool has a command
    for macOS, hands the command to the interactive run with a limit of
    600000 ms. *)
Lemma homebrew_install_run (t : Tool) (c : ascii) (r : string) (s : State W) :
  HomebrewAdapter.isAvailable s = (Ok true, s) ->
  osOf s = macos ->
  getInstallCommand t macos = Some (String c r) ->
  HomebrewAdapter.install t s
  = tryCatch
      (bind (executeInteractive (String c r)
               (Some {| i_cwd := None; timeout := Some 600000%N |}))
            (fun _ => ret tt))
      (fun error =>
         match error with
         | ShellError message _ _ stdout stderr =>
             throw (mkError (HomebrewAdapter.translateHomebrewError message stdout stderr t))
         | _ => throw error
         end) s.
Proof.
  intros Hav Hos Hcmd.
  unfold HomebrewAdapter.install, bind at 1. rewrite Hav. cbn [negb].
  unfold bind at 1, getCurrentOS, gets. fold (osOf s). rewrite Hos. cbn [os_eqb negb].
  rewrite Hcmd. reflexivity.
Qed.

(** C7. The interactive run has a wall-clock limit, 300000 ms unless the
    caller gives another one. When the child is still running at the limit,
    the run sends it SIGTERM and fails with the [ShellError] of a timeout:
    exit code 124, the command, the text [Timeout], and a message that gives
    the limit in seconds. The Homebrew adapter gives 600000 ms: an install
    whose child is still running after that is sent SIGTERM and fails. *)
Theorem interactive_run_enforces_timeout :
  forall (c : ascii) (r : string) (s : State W) b w',
    c <> " "%char ->
    (forall options : option InteractiveOptions,
       sys_spawn (String c r) (default 300000%N (options ≫= timeout)) (world s) = (b, w') ->
       outlives b (default 300000%N (options ≫= timeout)) = true ->
       result (executeInteractive (String c r) options) s
       = Throw (ShellError
                  ("Comando excedeu o timeout de "
                   ++ JS.millisAsSeconds (default 300000%N (options ≫= timeout)) ++ "s")
                  124 (String c r) EmptyString "Timeout")
       /\ trace (after (executeInteractive (String c r) options) s)
          = EvKill "SIGTERM" :: EvSpawn (String c r)
            :: EvLog LConsole ("$ " ++ String c r) :: trace s)
    /\ (forall t : Tool,
          HomebrewAdapter.isAvailable s = (Ok true, s) ->
          osOf s = macos ->
          getInstallCommand t macos = Some (String c r) ->
          sys_spawn (String c r) 600000%N (world s) = (b, w') ->
          outlives b 600000%N = true ->
          result (HomebrewAdapter.install t) s
          = Throw (mkError (HomebrewAdapter.translateHomebrewError
                              "Comando excedeu o timeout de 600s" EmptyString "Timeout" t))
          /\ trace (after (HomebrewAdapter.install t) s)
             = EvKill "SIGTERM" :: EvSpawn (String c r)
               :: EvLog LConsole ("$ " ++ String c r) :: trace s).
Proof.
  intros c r s b w' Hc. split.
  - intros options Hsp Hout.
    unfold result, after.
    rewrite (executeInteractive_run c r options s b w' Hc Hsp).
    change defaultTimeout with 300000%N.
    destruct b as [t code|t m|]; simpl in Hout.
    + apply negb_true_iff in Hout. rewrite Hout. split; reflexivity.
    + apply negb_true_iff in Hout. rewrite Hout. split; reflexivity.
    + split; reflexivity.
  - intros t Hav Hos Hcmd Hsp Hout.
    unfold result, after.
    rewrite (homebrew_install_run t c r s Hav Hos Hcmd).
    unfold tryCatch, bind.
    rewrite (executeInteractive_run c r
               (Some {| i_cwd := None; timeout := Some 600000%N |}) s b w' Hc Hsp).
    change (default defaultTimeout (Some {| i_cwd := None; timeout := Some 600000%N |}
                                    ≫= timeout)) with 600000%N.
    destruct b as [t0 code|t0 m|]; simpl in Hout.
    + apply negb_true_iff in Hout. rewrite Hout. split; reflexivity.
    + apply negb_true_iff in Hout. rewrite Hout. split; reflexivity.
    + split; reflexivity.
Qed.

End InteractiveRun.

Section InteractiveRunWitness.
Import Domain Proc Node Observe ShellWrapper Scenario.

Lemma interactive_run_enforces_timeout_witness :
  (result (executeInteractive (H := machineSys) "brew install --cask figma" None)
          macHangingInstall
   = Throw (ShellError "Comando excedeu o timeout de 300s" 124
                       "brew install --cask figma" EmptyString "Timeout")
   /\ trace (after (executeInteractive (H := machineSys) "brew install --cask figma" None)
                   macHangingInstall)
      = [ EvKill "SIGTERM"; EvSpawn "brew install --cask figma";
          EvLog LConsole "$ brew install --cask figma" ])
  /\ (result (HomebrewAdapter.install (H := machineSys) figma) macHangingInstall
      = Throw (mkError "Falha de conexão ao tentar instalar 'figma'. Verifique sua conexão com a internet.")
      /\ trace (after (HomebrewAdapter.install (H := machineSys) figma) macHangingInstall)
         = [ EvKill "SIGTERM"; EvSpawn "brew install --cask figma";
             EvLog LConsole "$ brew install --cask figma" ]).
Proof.
  destruct (interactive_run_enforces_timeout (H := machineSys) "b" "rew install --cask figma"
              macHangingInstall Hangs (world macHangingInstall)) as [Hrun Hbrew].
  - discriminate.
  - split.
    + apply (Hrun None); reflexivity.
    + apply (Hbrew figma); reflexivity.
Defined.

End InteractiveRunWitness.

(** ** The Unix environment manager *)

Section UnixEnvironment.
Import Domain Proc Node Observe Environment UnixEnvironmentManager.
Context {W : Type}.

Lemma startsWith_app (p r : string) : JS.startsWith (p ++ r) p = true.
Proof.
  induction p as [|c p IH]; simpl.
  - destruct r; reflexivity.
  - rewrite Ascii.eqb_refl. exact IH.
Qed.

Lemma includes_unfold (s sub : string) :
  JS.includes s sub
  = if JS.startsWith s sub then true
    else match s with
         | EmptyString => false
         | String _ s' => JS.includes s' sub
         end.
Proof. destruct s; reflexivity. Qed.

Lemma includes_app (a p b : string) : JS.includes (a ++ p ++ b) p = true.
Proof.
  induction a as [|c a IH].
  - change (EmptyString ++ p ++ b) with (p ++ b).
    now rewrite includes_unfold, startsWith_app.
  - rewrite includes_unfold.
    change (String c a ++ p ++ b) with (String c (a ++ p ++ b)).
    destruct (JS.startsWith (String c (a ++ p ++ b)) p); [reflexivity | exact IH].
Qed.

Lemma split_app (sep : ascii) (p rest : string) :
  lacks sep p = true ->
  JS.split sep (p ++ String sep rest) = p :: JS.split sep rest.
Proof.
  induction p as [|c p IH]; simpl; intros Hl.
  - now rewrite Ascii.eqb_refl.
  - apply andb_true_iff in Hl as [Hc Hp]. apply negb_true_iff in Hc.
    rewrite Hc, (IH Hp). reflexivity.
Qed.

Lemma arrIncludes_head (p : string) (l : list string) : JS.arrIncludes (p :: l) p = true.
Proof. unfold JS.arrIncludes. simpl. now rewrite String.eqb_refl. Qed.

Lemma setShellInfo_same (s : State W) : setShellInfo (shellInfo s) s = s.
Proof. destruct s. reflexivity. Qed.

(** [detectShell] never throws and only fills its cache. *)
Lemma detectShell_spec (s : State W) :
  exists info, detectShell s = (Ok info, setShellInfo (Some info) s).
Proof.
  unfold detectShell, envOrEmpty, existsSync, bind, gets, modify, ret.
  destruct (shellInfo s) as [info|] eqn:E.
  - exists info. now rewrite <- E, setShellInfo_same.
  - cbn beta iota.
    repeat match goal with
           | |- context [if ?b then _ else _] => destruct b
           end; eexists; reflexivity.
Qed.

Lemma unix_isInPath_spec (path : string) (s : State W) :
  isInPath path s = (Ok (JS.arrIncludes (JS.split ":" (livePath s)) path), s).
Proof. reflexivity. Qed.

(** [addToPath] of a path that is in the live PATH: success, nothing done. *)
Lemma addToPath_present (path : string) (s : State W) :
  JS.arrIncludes (JS.split ":" (livePath s)) path = true ->
  exists r, addToPath path s = (Ok r, s) /\ success r = true.
Proof.
  intros Hin. unfold addToPath, bind. rewrite unix_isInPath_spec, Hin.
  eexists. split; reflexivity.
Qed.

(** [addToPath] of a path that is neither in the live PATH nor in the rc
    file, with a detected shell and a file that can be written: one entry
    is appended and the path is put in front of the live PATH. *)
Lemma addToPath_fresh (path : string) (s : State W) (info : ShellInfo) :
  JS.arrIncludes (JS.split ":" (livePath s)) path = false ->
  result detectShell s = Ok info ->
  isUnknown (shell info) = false ->
  truthyStr (configFile info) = true ->
  configFile info ∉ readOnly s ->
  (forall content, files s !! configFile info = Some content ->
                   JS.includes content path = false) ->
  exists r,
    addToPath path s
    = (Ok r,
       setEnv (<["PATH" := path ++ ":" ++ livePath s]> (env s))
         (setFiles (<[configFile info :=
                        default EmptyString (files s !! configFile info)
                        ++ lineToAdd (generateExportLine path (shell info))]> (files s))
            (setShellInfo (Some info) s)))
    /\ success r = true.
Proof.
  intros Hout Hinfo Hknown Hcfg Hrw Hfile.
  destruct (detectShell_spec s) as (info' & Hd).
  unfold result in Hinfo. rewrite Hd in Hinfo. injection Hinfo as ->.
  unfold addToPath, bind at 1. rewrite unix_isInPath_spec, Hout.
  unfold bind at 1. rewrite Hd, Hknown, Hcfg. cbn [orb negb].
  unfold tryCatch, bind at 1, existsSync, gets.
  cbn [files setShellInfo].
  unfold appendFileSync, refreshProcessPath, envOrEmpty, setEnvVar, readFileSync,
    bind, gets, modify, ret, livePath in *.
  destruct s as [w pl u h e f ro tr k x si pm apt n].
  cbn [files setShellInfo readOnly env setFiles fst snd setEnv world platform uid home
       trace keepAliveStop exitHandlers shellInfo packageManager aptUpdateExecuted nextId]
    in *.
  assert (Hro : bool_decide (configFile info ∈ ro) = false)
    by now apply bool_decide_eq_false_2.
  destruct (f !! configFile info) as [c|] eqn:E; cbn [defined default from_option id];
    cbn [files setShellInfo readOnly env setFiles fst snd setEnv];
    rewrite ?E, ?(Hfile c eq_refl); cbn [files setShellInfo readOnly env setFiles fst snd];
    rewrite Hro; cbn [files setShellInfo readOnly env setFiles fst snd]; rewrite ?E, Hout;
    cbn [negb]; eexists; (split; [reflexivity|]); reflexivity.
Qed.

(** C2 (amended). [addToPath(p)] twice in a row, for a path without a
    colon, a detected shell and an rc file that can be written and does not
    mention [p]: when [p] is not in the live PATH the first call appends
    exactly one entry (the export line after the Genesis comment) to the rc
    file and the second call writes nothing; when [p] is in the live PATH
    already neither call writes anything. In both cases both calls succeed
    and [isInPath(p)] is true after the first call and after the second. *)
Theorem addToPath_twice_persists_at_most_once :
  forall (s : State W) (p : string) (info : ShellInfo),
    lacks ":" p = true ->
    result detectShell s = Ok info ->
    isUnknown (shell info) = false ->
    truthyStr (configFile info) = true ->
    configFile info ∉ readOnly s ->
    (forall content, files s !! configFile info = Some content ->
                     JS.includes content p = false) ->
    let s1 := after (addToPath p) s in
    let s2 := after (addToPath p) s1 in
    (exists r1 r2, result (addToPath p) s = Ok r1 /\ result (addToPath p) s1 = Ok r2
                   /\ success r1 = true /\ success r2 = true)
    /\ result (isInPath p) s1 = Ok true
    /\ result (isInPath p) s2 = Ok true
    /\ files s2 = files s1
    /\ files s1
       = if JS.arrIncludes (JS.split ":" (livePath s)) p then files s
         else <[configFile info :=
                  default EmptyString (files s !! configFile info)
                  ++ lineToAdd (generateExportLine p (shell info))]> (files s).
Proof.
  intros s p info Hp Hinfo Hknown Hcfg Hrw Hfile. cbv zeta.
  destruct (JS.arrIncludes (JS.split ":" (livePath s)) p) eqn:Hin.
  - destruct (addToPath_present p s Hin) as (r & Hr & Hs).
    assert (E1 : after (addToPath p) s = s) by (unfold after; now rewrite Hr).
    rewrite !E1. unfold result. rewrite Hr, unix_isInPath_spec, Hin.
    repeat split; try reflexivity. exists r, r. repeat split; assumption.
  - destruct (addToPath_fresh p s info Hin Hinfo Hknown Hcfg Hrw Hfile) as (r & Hr & Hs).
    remember (after (addToPath p) s) as s1 eqn:E1.
    assert (Hs1 : s1 = setEnv (<["PATH" := p ++ ":" ++ livePath s]> (env s))
                         (setFiles (<[configFile info :=
                                        default EmptyString (files s !! configFile info)
                                        ++ lineToAdd (generateExportLine p (shell info))]>
                                      (files s))
                            (setShellInfo (Some info) s)))
      by (rewrite E1; unfold after; now rewrite Hr).
    assert (Hin1 : JS.arrIncludes (JS.split ":" (livePath s1)) p = true).
    { rewrite Hs1. unfold livePath. cbn [snd env setEnv].
      rewrite lookup_insert_eq.
      match goal with
      | |- context [p ++ ":" ++ ?x] => change (p ++ ":" ++ x) with (p ++ String ":" x)
      end.
      rewrite (split_app ":" p _ Hp). apply arrIncludes_head. }
    destruct (addToPath_present p s1 Hin1) as (r' & Hr' & Hs').
    assert (E2 : after (addToPath p) s1 = s1) by (unfold after; now rewrite Hr').
    rewrite !E2. unfold result. rewrite Hr, Hr', unix_isInPath_spec, Hin1.
    repeat split; try reflexivity.
    + exists r, r'. repeat split; assumption.
    + rewrite Hs1. reflexivity.
Qed.

End UnixEnvironment.

Section UnixEnvironmentWitness.
Import Domain Proc Node Observe Environment UnixEnvironmentManager Scenario.

(** C2, as stated, fails: [/usr/local/bin] is in the live PATH of the
    session already, so neither of the two calls writes, and the rc file
    holds no entry for it, not one. *)
Lemma addToPath_twice_can_persist_nothing :
  ~ (persistedEntries "/usr/local/bin" (addedTwice "/usr/local/bin" bashSession) = 1%nat
     /\ result (isInPath "/usr/local/bin")
               (after (addToPath "/usr/local/bin") bashSession) = Ok true
     /\ result (isInPath "/usr/local/bin") (addedTwice "/usr/local/bin" bashSession)
        = Ok true).
Proof.
  intros [Hone _]. vm_compute in Hone. discriminate.
Qed.

Lemma addToPath_twice_persists_at_most_once_witness :
  persistedEntries "/opt/tool/bin" (addedTwice "/opt/tool/bin" bashSession) = 1%nat
  /\ result (isInPath "/opt/tool/bin") (after (addToPath "/opt/tool/bin") bashSession)
     = Ok true
  /\ result (isInPath "/opt/tool/bin") (addedTwice "/opt/tool/bin" bashSession) = Ok true
  /\ files (addedTwice "/opt/tool/bin" bashSession)
     = files (after (addToPath "/opt/tool/bin") bashSession).
Proof.
  split; [reflexivity|].
  destruct (addToPath_twice_persists_at_most_once bashSession "/opt/tool/bin"
              {| shell := bash; configFile := "/home/dev/.bashrc"; si_os := linux |})
    as (_ & H1 & H2 & H3 & _).
  - reflexivity.
  - reflexivity.
  - reflexivity.
  - reflexivity.
  - vm_compute. set_solver.
  - intros content Hc. vm_compute in Hc. injection Hc as <-. reflexivity.
  - repeat split; assumption.
Defined.

End UnixEnvironmentWitness.


Section OracleRules.
Import Domain Proc Node Observe.
Context {W : Type} `{Sys W}.

Lemma wp_log l m (Q : Res unit -> State W -> Prop) s :
  Q (Ok tt) (setTrace (EvLog l m :: trace s) s) -> wp (log l m) Q s.
Proof. exact (fun q => q). Qed.

Lemma wp_emit e (Q : Res unit -> State W -> Prop) s :
  Q (Ok tt) (setTrace (e :: trace s) s) -> wp (emit e) Q s.
Proof. exact (fun q => q). Qed.

Lemma wp_execCommand c d (Q : Res ExecOutcome -> State W -> Prop) s :
  (forall o w, sys_exec c d (world s) = (o, w) ->
               Q (Ok o) (setTrace (EvExec c :: trace s) (setWorld w s))) ->
  wp (execCommand c d) Q s.
Proof.
  intros HQ. unfold wp, result, after, execCommand.
  destruct (sys_exec c d (world s)) as [o w] eqn:E. now apply HQ.
Qed.

Lemma wp_confirm m (Q : Res (option bool) -> State W -> Prop) s :
  (forall a w, sys_confirm m (world s) = (a, w) ->
               Q (Ok a) (setTrace (EvConfirm m a :: trace s) (setWorld w s))) ->
  wp (confirm m) Q s.
Proof.
  intros HQ. unfold wp, result, after, confirm.
  destruct (sys_confirm m (world s)) as [o w] eqn:E. now apply HQ.
Qed.

Lemma wp_spawnWait f a (Q : Res SpawnEnd -> State W -> Prop) s :
  (forall o w, sys_spawn_wait f a (world s) = (o, w) ->
               Q (Ok o) (setTrace (EvSpawn (JS.join " " (f :: a)) :: trace s)
                           (setWorld w s))) ->
  wp (spawnWait f a) Q s.
Proof.
  intros HQ. unfold wp, result, after, spawnWait.
  destruct (sys_spawn_wait f a (world s)) as [o w] eqn:E. now apply HQ.
Qed.

Lemma wp_framed {A} ok (m : M W A) (Q : Res A -> State W -> Prop) s :
  framed ok m -> (forall r s', steps ok s s' -> Q r s') -> wp m Q s.
Proof. intros Hm HQ. apply HQ, Hm. Qed.

End OracleRules.

(** One step through a method, keeping the answers of the oracles. *)
Ltac wp_run :=
  lazymatch goal with
  | |- Observe.wp (Proc.bind _ _) _ _ => apply wp_bind
  | |- Observe.wp (Proc.tryCatch _ _) _ _ => apply wp_tryCatch
  | |- Observe.wp (Proc.ret _) _ _ => apply wp_ret
  | |- Observe.wp (Proc.throw _) _ _ => apply wp_throw
  | |- Observe.wp (Proc.gets _) _ _ => apply wp_gets
  | |- Observe.wp (Proc.modify _) _ _ => apply wp_modify
  | |- Observe.wp (Node.log _ _) _ _ => apply wp_log
  | |- Observe.wp (Proc.emit _) _ _ => apply wp_emit
  | |- Observe.wp (Node.execCommand _ _) _ _ => apply wp_execCommand; intros ? ? ?
  | |- Observe.wp (Node.confirm _) _ _ => apply wp_confirm; intros ? ? ?
  | |- Observe.wp (Node.spawnWait _ _) _ _ => apply wp_spawnWait; intros ? ? ?
  end; cbn beta iota.

(** ** Counting events *)

Section Counting.
Import Domain Proc Node Observe.

#[export] Instance notConsent_basic : Basic notConsent.
Proof. split; reflexivity. Qed.

#[export] Instance notConsent_anyCommand : AnyCommand notConsent.
Proof. intros c. reflexivity. Qed.

#[export] Instance notConsent_anyQuestion : AnyQuestion notConsent.
Proof. intros m a Hm. unfold notConsent. simpl. now rewrite Hm. Qed.

#[export] Instance notObject_basic : Basic notObject.
Proof. split; reflexivity. Qed.

#[export] Instance notObject_anyCommand : AnyCommand notObject.
Proof. intros c. reflexivity. Qed.

#[export] Instance notObject_anyQuestion : AnyQuestion notObject.
Proof. intros m a _. reflexivity. Qed.

#[export] Instance notObject_anyConsent : AnyConsent notObject.
Proof. intros m a _. reflexivity. Qed.

#[export] Instance notAptRefresh_basic : Basic notAptRefresh.
Proof. split; reflexivity. Qed.

#[export] Instance notAptRefresh_anyConsent : AnyConsent notAptRefresh.
Proof. intros m a _. reflexivity. Qed.

Lemma count_app f (a b : list Event) : count f (a ++ b) = (count f a + count f b)%nat.
Proof. unfold count. now rewrite List.filter_app, List.length_app. Qed.

Lemma count_none f (l : list Event) :
  forallb (fun e => negb (f e)) l = true -> count f l = 0%nat.
Proof.
  unfold count. induction l as [|e l IH]; simpl; [reflexivity|].
  intros Hl. apply andb_true_iff in Hl as [He Hl].
  apply negb_true_iff in He. rewrite He. now apply IH.
Qed.

Lemma count_steps {W : Type} `{Sys W} f ok (s s' : State W) :
  (forall e, ok e = true -> f e = false) ->
  steps ok s s' -> count f (trace s') = count f (trace s).
Proof.
  intros Hok [(evs & -> & Hev) _ _ _ _ _].
  rewrite count_app, count_none; [reflexivity|].
  apply forallb_forall. intros e He.
  rewrite forallb_forall in Hev. now rewrite (Hok e (Hev e He)).
Qed.

End Counting.

(** ** Elevation prompts *)

Section Elevation.
Import Domain Proc Node Observe.
Context {W : Type} `{Sys W}.
Context (warm : W -> Prop) (Hwarm : SudoCache warm).

Lemma warm_reach (w w' : W) : rtc wstep w w' -> warm w -> warm w'.
Proof.
  induction 1 as [|x y z Hxy _ IH]; [exact (fun h => h)|].
  intros Hx. apply IH. exact (warm_stays warm Hwarm x y Hxy Hx).
Qed.

Lemma noElevationFailure_app (a b : list Event) :
  noElevationFailure (a ++ b) = noElevationFailure a && noElevationFailure b.
Proof. apply forallb_app. Qed.

(** The invariant is kept by whatever adds no consent prompt. *)
Lemma promptInvariant_steps (s s' : State W) :
  steps notConsent s s' -> promptInvariant warm s -> promptInvariant warm s'.
Proof.
  intros Hst HI Hnf.
  assert (Hc : count isConsent (trace s') = count isConsent (trace s)).
  { apply (count_steps isConsent notConsent s s'); [|exact Hst].
    intros e He. unfold notConsent in He. now apply negb_true_iff in He. }
  destruct Hst as [(evs & Ht & Hev) Hw _ _ _ _].
  unfold prompts. rewrite Hc.
  rewrite Ht, noElevationFailure_app in Hnf. apply andb_true_iff in Hnf as [_ Hnf].
  destruct (HI Hnf) as [Hle Hone]. split; [exact Hle|].
  intros H1. eapply warm_reach; [exact Hw | now apply Hone].
Qed.

Lemma hoare_prompt_framed {A} (m : M W A) :
  framed notConsent m -> hoare (promptInvariant warm) m (promptInvariant warm).
Proof. apply hoare_framed. exact promptInvariant_steps. Qed.

(** A trace that shows a failed attempt satisfies the invariant. *)
Lemma promptInvariant_failed (s : State W) :
  noElevationFailure (trace s) = false -> promptInvariant warm s.
Proof. intros Hf Hnf. congruence. Qed.

(** When [sudo -n true] fails the timestamp is not valid, so no prompt has
    been answered with a valid password so far. *)
Lemma cold_no_prompt (s : State W) c o e m w :
  sys_exec "sudo -n true" None (world s) = (ExecErr c o e m, w) ->
  promptInvariant warm s ->
  noElevationFailure (trace s) = true -> prompts (trace s) = 0%nat.
Proof.
  intros Hx HI Hnf. destruct (HI Hnf) as [Hle Hone].
  destruct (prompts (trace s)) as [|[|n]] eqn:E; [reflexivity | | lia].
  destruct (warm_probe warm Hwarm _ (Hone eq_refl)) as (out & err & w' & Hok).
  congruence.
Qed.

(** [requestUnixPrivileges], started when no prompt has been shown, shows
    one; if it grants the privileges the timestamp is valid afterwards, and
    if it does not the trace shows the failure. *)
Lemma requestUnixPrivileges_prompt (s : State W) :
  (noElevationFailure (trace s) = true -> prompts (trace s) = 0%nat) ->
  promptInvariant warm (after SudoExecutor.requestUnixPrivileges s).
Proof.
  intros Hcold.
  change (wp SudoExecutor.requestUnixPrivileges (fun _ s' => promptInvariant warm s') s).
  unfold SudoExecutor.requestUnixPrivileges.
  do 6 wp_run.
  rename H0 into Hc.
  destruct (cancelledOrNo a) eqn:Hno.
  - repeat wp_run. apply promptInvariant_failed.
    cbn [trace setTrace]. unfold noElevationFailure. simpl forallb.
    rewrite Hno. reflexivity.
  - destruct a as [[|]|]; try discriminate.
    wp_run. wp_run. rename H0 into Hsp.
    destruct o as [[[| |]|]|]; repeat wp_run;
      try (apply promptInvariant_failed; reflexivity).
    eapply wp_framed; [apply (framed_startKeepAlive notConsent)|].
    intros r s' Hst. cbn beta iota.
    assert (HI : promptInvariant warm s').
    { eapply promptInvariant_steps; [exact Hst|].
      intros Hnf. cbn [trace setTrace world setWorld] in *.
      assert (Hnf' : noElevationFailure (trace s) = true).
      { unfold noElevationFailure in *. simpl forallb in Hnf.
        repeat (apply andb_true_iff in Hnf as [_ Hnf]). exact Hnf. }
      specialize (Hcold Hnf').
      unfold prompts, count in *. simpl List.filter. simpl List.length.
      rewrite Hcold. split; [lia|]. intros _.
      exact (warm_validate warm Hwarm _ _ Hsp). }
    destruct r; [wp_run|]; exact HI.
Qed.

(** On Unix [requestPrivileges] keeps the invariant: it prompts only when
    the timestamp is not valid, and a prompt that is followed by a
    successful [sudo -v] leaves it valid. *)
Lemma requestPrivileges_prompt (s : State W) :
  osOf s <> windows ->
  promptInvariant warm s ->
  promptInvariant warm (after SudoExecutor.requestPrivileges s).
Proof.
  intros Hos HI.
  unfold after, SudoExecutor.requestPrivileges, bind at 1, getCurrentOS, gets.
  fold (osOf s).
  assert (Hadmin : PrivilegeChecker.isAdmin s = (Ok (match uid s with
                                                     | Some 0%Z => true
                                                     | _ => false
                                                     end), s)).
  { unfold PrivilegeChecker.isAdmin, bind, getCurrentOS, gets. fold (osOf s).
    destruct (osOf s); [reflexivity | contradiction | reflexivity]. }
  unfold bind at 1. rewrite Hadmin.
  destruct (match uid s with Some 0%Z => true | _ => false end); [exact HI|].
  assert (Hw : os_eqb (osOf s) windows = false)
    by (destruct (osOf s); [reflexivity | contradiction | reflexivity]).
  rewrite Hw.
  assert (Hcached : PrivilegeChecker.isSudoCached s
                    = let '(o, w) := sys_exec "sudo -n true" None (world s) in
                      (Ok (match o with ExecOk _ _ => true | _ => false end),
                       setTrace (EvExec "sudo -n true" :: trace s) (setWorld w s))).
  { unfold PrivilegeChecker.isSudoCached, bind at 1, getCurrentOS, gets. fold (osOf s).
    unfold execSyncOk, bind, execCommand.
    destruct (osOf s); try contradiction;
      destruct (sys_exec "sudo -n true" None (world s)) as [[]]; reflexivity. }
  unfold bind at 1. rewrite Hcached.
  pose proof (wstep_exec "sudo -n true" None (world s)) as Hstep.
  destruct (sys_exec "sudo -n true" None (world s)) as [[out err|c o e m] w1] eqn:Hx;
    cbn [snd] in Hstep.
  - apply (promptInvariant_steps s); [|exact HI].
    now apply steps_world_event.
  - unfold bind at 1, log, emit, modify. cbn [fst snd].
    apply requestUnixPrivileges_prompt.
    cbn [trace setTrace]. intros Hnf.
    unfold noElevationFailure in Hnf. simpl forallb in Hnf.
    unfold prompts, count. simpl List.filter.
    exact (cold_no_prompt s c o e m w1 Hx HI Hnf).
Qed.

Lemma osOf_steps ok (s s' : State W) : steps ok s s' -> osOf s' = osOf s.
Proof. intros Hst. unfold osOf. now rewrite (steps_platform _ _ _ Hst). Qed.

Lemma hoare_unix_framed {A} (m : M W A) :
  framed notConsent m ->
  hoare (promptInvariantOnUnix warm) m (promptInvariantOnUnix warm).
Proof.
  intros Hm s [Hos HI]. split.
  - now rewrite (osOf_steps _ _ _ (Hm s)).
  - exact (promptInvariant_steps _ _ (Hm s) HI).
Qed.

Lemma hoare_unix_requestPrivileges :
  hoare (promptInvariantOnUnix warm) SudoExecutor.requestPrivileges
        (promptInvariantOnUnix warm).
Proof.
  intros s [Hos HI]. split.
  - rewrite (osOf_steps notObject s); [exact Hos|].
    apply framed_requestPrivileges; try reflexivity; typeclasses eauto.
  - now apply requestPrivileges_prompt.
Qed.

(** The leaves of the methods of the Linux installer. *)
Ltac unix_leaf :=
  first [ solve [auto]
        | apply hoare_unix_requestPrivileges
        | apply hoare_unix_framed; solve [eauto with framed] ].

Lemma hoare_unix_sudo_exec c :
  hoare (promptInvariantOnUnix warm) (SudoExecutor.exec c) (promptInvariantOnUnix warm).
Proof.
  pose proof (framed_isAdmin notConsent (ok_exec _)).
  pose proof (framed_isSudoCached notConsent (ok_exec _)).
  pose proof (fun c => framed_execDirect notConsent c (ok_exec _)).
  unfold SudoExecutor.exec.
  repeat hoare_step unix_leaf.
Qed.

Lemma hoare_unix_linux_update self :
  hoare (promptInvariantOnUnix warm) (LinuxInstaller.update self)
        (promptInvariantOnUnix warm).
Proof.
  pose proof (fun c o => framed_executeString notConsent c o (ok_exec _)).
  pose proof hoare_unix_sudo_exec.
  unfold LinuxInstaller.update, LinuxInstaller.getAptUpdateExecuted,
    LinuxInstaller.setAptUpdateExecutedOf.
  repeat hoare_step unix_leaf.
Qed.

Lemma hoare_unix_linux_install self t :
  hoare (promptInvariantOnUnix warm) (LinuxInstaller.install self t)
        (promptInvariantOnUnix warm).
Proof.
  pose proof (fun c o => framed_executeString notConsent c o (ok_exec _)).
  pose proof (framed_executeInteractive notConsent).
  pose proof hoare_unix_sudo_exec.
  pose proof hoare_unix_linux_update.
  unfold LinuxInstaller.install, LinuxInstaller.installWithApt,
    LinuxInstaller.installWithSnap, LinuxInstaller.installWithFlatpak,
    LinuxInstaller.installWithScript, LinuxInstaller.installDirect,
    LinuxInstaller.getAptUpdateExecuted.
  repeat hoare_step unix_leaf.
Qed.

(** The Linux installer refuses to run on another platform, so it keeps
    the invariant everywhere. *)
Lemma hoare_prompt_linux_install self t :
  hoare (promptInvariant warm) (LinuxInstaller.install self t) (promptInvariant warm).
Proof.
  intros s HI.
  destruct (os_eqb (osOf s) linux) eqn:Hos.
  - apply (hoare_unix_linux_install self t s). split; [|exact HI].
    destruct (osOf s); discriminate.
  - unfold after, LinuxInstaller.install, bind, getCurrentOS, gets. fold (osOf s).
    rewrite Hos. exact HI.
Qed.

(** *** The batch *)

Ltac prompt_leaf :=
  first [ solve [auto]
        | apply hoare_prompt_framed; solve [eauto with framed] ].

Lemma hoare_prompt_newAdapter c :
  hoare (promptInvariant warm) (InstallationService.newAdapter c) (promptInvariant warm).
Proof.
  intros s HI. unfold after, InstallationService.newAdapter.
  assert (Hgen : forall s' : State W,
             trace s' = EvNew {| adapterClass := c; adapterId := nextId s |} :: trace s ->
             world s' = world s -> promptInvariant warm s').
  { intros s' Ht Hw Hnf. rewrite Ht, Hw in *. exact (HI Hnf). }
  destruct c; apply Hgen; reflexivity.
Qed.

Lemma hoare_prompt_cache a :
  hoare (promptInvariant warm) (InstallationService.cache a) (promptInvariant warm).
Proof. intros s HI. exact HI. Qed.

Lemma hoare_prompt_getPackageManager :
  hoare (promptInvariant warm) InstallationService.getPackageManager
        (promptInvariant warm).
Proof.
  pose proof hoare_prompt_newAdapter. pose proof hoare_prompt_cache.
  pose proof (framed_brew_isAvailable notConsent).
  pose proof (framed_brewInstaller_install notConsent).
  pose proof (framed_winget_isAvailable notConsent).
  unfold InstallationService.getPackageManager, LinuxInstaller.isAvailable.
  repeat hoare_step prompt_leaf.
Qed.

Lemma hoare_prompt_pmInstall pm t :
  hoare (promptInvariant warm) (InstallationService.pmInstall pm t)
        (promptInvariant warm).
Proof.
  pose proof (framed_brew_install notConsent).
  pose proof (framed_winget_install notConsent).
  pose proof hoare_prompt_linux_install.
  unfold InstallationService.pmInstall.
  repeat hoare_step prompt_leaf.
Qed.

Lemma hoare_prompt_installTool t sp :
  hoare (promptInvariant warm) (InstallationService.installTool t sp)
        (promptInvariant warm).
Proof.
  pose proof hoare_prompt_getPackageManager. pose proof hoare_prompt_pmInstall.
  pose proof (framed_checkInstalled notConsent).
  pose proof (framed_refreshPathAfterInstall notConsent).
  pose proof (framed_elapsedSince notConsent).
  unfold InstallationService.installTool.
  repeat hoare_step prompt_leaf.
Qed.

Lemma hoare_prompt_installEach ts sp :
  hoare (promptInvariant warm) (InstallationService.installEach ts sp)
        (promptInvariant warm).
Proof.
  pose proof hoare_prompt_installTool.
  induction ts as [|t ts IH]; simpl; repeat hoare_step prompt_leaf.
Qed.

Lemma hoare_prompt_installTools ts sp :
  hoare (promptInvariant warm) (InstallationService.installTools ts sp)
        (promptInvariant warm).
Proof.
  pose proof hoare_prompt_installEach.
  unfold InstallationService.installTools.
  repeat hoare_step prompt_leaf.
Qed.

(** [requestPrivileges] with the privileges at hand: no prompt. *)
Lemma requestPrivileges_no_prompt (s : State W) :
  result PrivilegeChecker.isAdmin s = Ok true
  \/ (osOf s <> windows /\ warm (world s)) ->
  result SudoExecutor.requestPrivileges s = Ok true
  /\ prompts (trace (after SudoExecutor.requestPrivileges s)) = prompts (trace s).
Proof.
  intros Hcase.
  pose proof (framed_isAdmin notConsent (ok_exec _) s) as Hadm.
  assert (Hreq : forall b s1,
             PrivilegeChecker.isAdmin s = (Ok b, s1) ->
             SudoExecutor.requestPrivileges s
             = if b then (Ok true, s1)
               else bind (if os_eqb (osOf s) windows then ret false
                          else PrivilegeChecker.isSudoCached)
                      (fun cached =>
                         if cached then ret true
                         else bind (log LWarn "⚠️  Esta operação requer privilégios de administrador.")
                                (fun _ => if os_eqb (osOf s) windows
                                          then SudoExecutor.requestWindowsPrivileges
                                          else SudoExecutor.requestUnixPrivileges)) s1).
  { intros b s1 E. unfold SudoExecutor.requestPrivileges, bind at 1, getCurrentOS, gets.
    fold (osOf s). unfold bind at 1. rewrite E. destruct b; reflexivity. }
  unfold result, after in *.
  destruct (PrivilegeChecker.isAdmin s) as [[[|]|e] s1] eqn:Eadm; cbn [fst snd] in *.
  - rewrite (Hreq true s1 eq_refl). split; [reflexivity|].
    apply (count_steps isConsent notConsent s s1); [|exact Hadm].
    intros e He. now apply negb_true_iff.
  - destruct Hcase as [Hc|[Hos Hw]]; [discriminate|].
    rewrite (Hreq false s1 eq_refl).
    assert (Hw' : os_eqb (osOf s) windows = false)
      by (destruct (osOf s); [reflexivity | contradiction | reflexivity]).
    rewrite Hw'.
    assert (Hs1 : s1 = s).
    { unfold PrivilegeChecker.isAdmin, bind, getCurrentOS, gets in Eadm.
      fold (osOf s) in Eadm.
      destruct (osOf s); try contradiction; now injection Eadm. }
    subst s1.
    destruct (warm_probe warm Hwarm _ Hw) as (out & err & w' & Hx).
    unfold PrivilegeChecker.isSudoCached, execSyncOk, execCommand, bind, getCurrentOS, gets.
    fold (osOf s).
    destruct (osOf s); try contradiction; rewrite Hx; split; reflexivity.
  - destruct Hcase as [Hc|[Hos Hw]]; [discriminate|].
    unfold PrivilegeChecker.isAdmin, bind, getCurrentOS, gets in Eadm.
    fold (osOf s) in Eadm.
    destruct (osOf s); try contradiction; discriminate.
Qed.

(** C4. In a batch in which no elevation attempt fails at most one consent
    prompt is shown, however many tools need elevated execution; and when
    the process is elevated, or sudo's timestamp is valid on a platform
    with sudo, [requestPrivileges] returns true without a prompt. (What is
    assumed of sudo is [SudoCache]: a successful [sudo -v] makes the
    timestamp valid, it stays valid while the batch runs, and [sudo -n true]
    succeeds while it is valid.) *)
Theorem at_most_one_elevation_prompt :
  forall (ts : list Tool) (showProgress : bool) (s : State W),
    prompts (trace s) = 0%nat ->
    noElevationFailure (trace (after (InstallationService.installTools ts showProgress) s))
    = true ->
    (prompts (trace (after (InstallationService.installTools ts showProgress) s)) <= 1)%nat
    /\ forall s' : State W,
         result PrivilegeChecker.isAdmin s' = Ok true
         \/ (osOf s' <> windows /\ warm (world s')) ->
         result SudoExecutor.requestPrivileges s' = Ok true
         /\ prompts (trace (after SudoExecutor.requestPrivileges s')) = prompts (trace s').
Proof.
  intros ts showProgress s H0 Hnf. split.
  - assert (HI : promptInvariant warm s).
    { intros _. rewrite H0. split; [lia | discriminate]. }
    exact (proj1 (hoare_prompt_installTools ts showProgress s HI Hnf)).
  - exact requestPrivileges_no_prompt.
Qed.

End Elevation.

Section ElevationWitness.
Import Domain Proc Node Observe Scenario.

Lemma machineExec_world c d m : snd (machineExec c d m) = m.
Proof.
  unfold machineExec.
  repeat match goal with
         | |- context [if ?b then _ else _] => destruct b
         | |- context [match ?x with Some _ => _ | None => _ end] => destruct x
         end; reflexivity.
Qed.

Lemma machine_sudo_cache :
  SudoCache (H := machineSys) (fun m => sudoValid m = true).
Proof.
  split.
  - intros w w'. cbn. unfold machineSpawnWait. cbn.
    destruct (passwordOk w); intros [= <-]. reflexivity.
  - intros w w' Hst Hw. destruct Hst as [c d w|c l w|f a w|m w|m w]; cbn.
    + now rewrite machineExec_world.
    + exact Hw.
    + unfold machineSpawnWait.
      destruct (String.eqb _ _); [destruct (passwordOk w)|]; try exact Hw; reflexivity.
    + exact Hw.
    + exact Hw.
  - intros w Hw. cbn. unfold machineExec. cbn. rewrite Hw.
    now exists EmptyString, EmptyString, w.
Qed.

Lemma at_most_one_elevation_prompt_witness :
  prompts (trace ubuntuDesktop) = 0%nat
  /\ noElevationFailure
       (trace (after (InstallationService.installTools (H := machineSys) [htop; vlc] true)
                     ubuntuDesktop)) = true
  /\ (prompts
        (trace (after (InstallationService.installTools (H := machineSys) [htop; vlc] true)
                      ubuntuDesktop)) <= 1)%nat.
Proof.
  split; [reflexivity|]. split; [reflexivity|].
  exact (proj1 (at_most_one_elevation_prompt (H := machineSys) _ machine_sudo_cache
                  [htop; vlc] true ubuntuDesktop eq_refl eq_refl)).
Defined.

End ElevationWitness.

(** ** The adapter cache *)

Section AdapterCache.
Import Domain Proc Node Observe InstallationService.
Context {W : Type} `{Sys W}.

Lemma hoare_seq {A B} (P R Q : State W -> Prop) (m : M W A) (k : A -> M W B) :
  hoare P m R -> (forall a, hoare R (k a) Q) -> (forall s, R s -> Q s) ->
  hoare P (bind m k) Q.
Proof.
  intros Hm Hk HRQ s Hs. specialize (Hm s Hs). unfold after, bind in *.
  destruct (m s) as [[a|e] s']; simpl in *.
  - now apply Hk.
  - now apply HRQ.
Qed.

Lemma count_isCall_In (tr : list Event) a m :
  count isCall tr = 0%nat -> ~ In (EvCall a m) tr.
Proof.
  unfold count. induction tr as [|e tr IH]; simpl; [tauto|].
  destruct (isCall e) eqn:E; simpl; [discriminate|].
  intros H0 [->|Hin]; [discriminate | now apply IH].
Qed.

Lemma unresolved_cacheInvariant (s : State W) : unresolved s -> cacheInvariant s.
Proof. intros [_ H0] a m Hin. now apply count_isCall_In in Hin. Qed.

Lemma cacheInvariant_unresolved (s : State W) :
  cacheInvariant s -> packageManager s = None -> unresolved s.
Proof.
  intros HC Hn. split; [exact Hn|].
  apply count_none, forallb_forall. intros e Hin.
  destruct e as [| | | | | | |a m]; try reflexivity.
  specialize (HC a m Hin). congruence.
Qed.

Lemma notObject_notCall e : notObject e = true -> isCall e = false.
Proof. unfold notObject. destruct e; simpl; intros; congruence. Qed.

Lemma cacheInvariant_steps (s s' : State W) :
  steps notObject s s' -> cacheInvariant s -> cacheInvariant s'.
Proof.
  intros [(evs & Ht & Hev) _ _ _ Hpm _] HC a m Hin.
  rewrite Hpm. apply (HC a m). rewrite Ht in Hin.
  apply in_app_or in Hin as [Hin|Hin]; [|exact Hin].
  rewrite forallb_forall in Hev. specialize (Hev _ Hin). discriminate.
Qed.

Lemma unresolved_steps (s s' : State W) :
  steps notObject s s' -> unresolved s -> unresolved s'.
Proof.
  intros Hst [Hn H0]. split.
  - now rewrite (steps_pm _ _ _ Hst).
  - rewrite (count_steps isCall notObject s s' notObject_notCall Hst). exact H0.
Qed.

Lemma hoare_cache_framed {A} (m : M W A) :
  framed notObject m -> hoare cacheInvariant m cacheInvariant.
Proof. apply hoare_framed. exact cacheInvariant_steps. Qed.

Lemma hoare_unresolved_framed {A} (m : M W A) :
  framed notObject m -> hoare unresolved m unresolved.
Proof. apply hoare_framed. exact unresolved_steps. Qed.

Lemma hoare_unresolved_newAdapter c :
  hoare unresolved (newAdapter c : M W Adapter) unresolved.
Proof.
  intros s [Hn H0]. unfold after, newAdapter.
  destruct c; split; cbn; assumption.
Qed.

Lemma hoare_unresolved_cache a :
  hoare unresolved (cache a : M W Adapter) cacheInvariant.
Proof.
  intros s [Hn H0] b m Hin. cbn in Hin. now apply count_isCall_In in Hin.
Qed.

(** One step through a method that starts with nothing resolved and may
    end by caching the adapter. *)
Ltac resolve_step :=
  lazymatch goal with
  | |- hoare unresolved (bind _ _) cacheInvariant =>
      apply (hoare_seq unresolved unresolved cacheInvariant);
      [ | intros ? | exact unresolved_cacheInvariant ]
  | |- hoare unresolved (throw _) cacheInvariant =>
      intros ? ?; now apply unresolved_cacheInvariant
  | |- hoare unresolved (cache _) cacheInvariant => apply hoare_unresolved_cache
  | |- hoare unresolved (if ?b then _ else _) _ => destruct b
  | |- hoare unresolved (match ?x with _ => _ end) _ => destruct x
  | |- hoare unresolved _ unresolved =>
      first [ apply hoare_unresolved_newAdapter
            | apply hoare_unresolved_framed; solve [eauto with framed] ]
  end.

(** [getPackageManager] keeps the invariant of the cache. *)
Lemma hoare_cache_getPackageManager :
  hoare cacheInvariant getPackageManager cacheInvariant.
Proof.
  intros s HC.
  destruct (packageManager s) as [pm|] eqn:E.
  - unfold after, getPackageManager, bind, gets. rewrite E. exact HC.
  - pose proof (cacheInvariant_unresolved s HC E) as Hun.
    unfold after, getPackageManager, bind at 1, gets. rewrite E. cbn [fst snd].
    match goal with
    | |- cacheInvariant (snd (?m s)) =>
        assert (Hh : hoare unresolved m cacheInvariant); [|exact (Hh s Hun)]
    end.
    clear s HC E Hun.
    pose proof (framed_brew_isAvailable notObject).
    pose proof (framed_brewInstaller_install notObject).
    pose proof (framed_winget_isAvailable notObject).
    unfold LinuxInstaller.isAvailable.
    repeat resolve_step.
Qed.

(** What [getPackageManager] returns is the adapter that is cached when it
    returns. *)
Lemma getPackageManager_returns_cached (s : State W) :
  forall pm, result getPackageManager s = Ok pm ->
             packageManager (after getPackageManager s) = Some pm.
Proof.
  change (wp getPackageManager
             (fun r s' => forall pm, r = Ok pm -> packageManager s' = Some pm) s).
  unfold getPackageManager, cache.
  wp_step. wp_step.
  destruct (packageManager s) as [pm0|] eqn:E.
  - wp_step. intros pm [= <-]. exact E.
  - repeat wp_step; try (intros pm0 Hpm; first [discriminate | now injection Hpm as <-]).
Qed.

(** Once an adapter is cached, [getPackageManager] returns it and does
    nothing else: the resolution happens once. *)
Lemma getPackageManager_cached (s : State W) pm :
  packageManager s = Some pm -> getPackageManager s = (Ok pm, s).
Proof. intros E. unfold getPackageManager, bind, gets. now rewrite E. Qed.

(** *** Rules for triples *)

Lemma triple_bind {A B} (P : State W -> Prop) (R : A -> State W -> Prop)
    (m : M W A) (k : A -> M W B) (Q : B -> State W -> Prop) (E : State W -> Prop) :
  triple P m R E -> (forall a, triple (R a) (k a) Q E) -> triple P (bind m k) Q E.
Proof.
  intros Hm Hk s Hs. specialize (Hm s Hs). unfold bind.
  destruct (m s) as [[a|e] s']; [now apply Hk | exact Hm].
Qed.

Lemma triple_tryCatch {A} (P E' : State W -> Prop) (m : M W A) (h : Exn -> M W A)
    (Q : A -> State W -> Prop) (E : State W -> Prop) :
  triple P m Q E' -> (forall e, triple E' (h e) Q E) -> triple P (tryCatch m h) Q E.
Proof.
  intros Hm Hh s Hs. specialize (Hm s Hs). unfold tryCatch.
  destruct (m s) as [[a|e] s']; [exact Hm | now apply Hh].
Qed.

Lemma triple_ret {A} (P : State W -> Prop) (a : A) (Q : A -> State W -> Prop) E :
  (forall s, P s -> Q a s) -> triple P (ret a) Q E.
Proof. intros HQ s Hs. now apply HQ. Qed.

Lemma triple_throw {A} (P : State W -> Prop) (e : Exn) (Q : A -> State W -> Prop)
    (E : State W -> Prop) :
  (forall s, P s -> E s) -> triple P (throw e) Q E.
Proof. intros HE s Hs. now apply HE. Qed.

Lemma triple_hoare {A} (I : State W -> Prop) (m : M W A) :
  hoare I m I -> triple I m (fun _ => I) I.
Proof.
  intros Hm s Hs. specialize (Hm s Hs). unfold after in Hm.
  destruct (m s) as [[a|e] s']; exact Hm.
Qed.

Lemma triple_after {A} (P Q : State W -> Prop) (m : M W A) :
  triple P m (fun _ => Q) Q -> hoare P m Q.
Proof.
  intros Hm s Hs. specialize (Hm s Hs). unfold after.
  destruct (m s) as [[a|e] s']; exact Hm.
Qed.

(** *** The cache through [installTool] *)

Lemma cachedInvariant_steps known (s s' : State W) :
  steps notObject s s' -> cachedInvariant known s -> cachedInvariant known s'.
Proof.
  intros Hst [HC Hk]. split.
  - exact (cacheInvariant_steps _ _ Hst HC).
  - intros pm Hpm. rewrite (steps_pm _ _ _ Hst). now apply Hk.
Qed.

Lemma cachedInvariant_forget known (s : State W) :
  cachedInvariant known s -> cachedInvariant None s.
Proof. intros [HC _]. split; [exact HC | discriminate]. Qed.

Lemma triple_cached_framed {A} known (m : M W A) :
  framed notObject m ->
  triple (cachedInvariant known) m (fun _ => cachedInvariant known)
         (cachedInvariant None).
Proof.
  intros Hm s Hs.
  pose proof (hoare_framed notObject _ m (cachedInvariant_steps known) Hm s Hs) as Hh.
  unfold after in Hh. destruct (m s) as [[a|e] s']; cbn [snd] in Hh;
    [exact Hh | exact (cachedInvariant_forget _ _ Hh)].
Qed.

Lemma triple_cached_kept {A} known (m : M W A) :
  framed notObject m ->
  triple (cachedInvariant known) m (fun _ => cachedInvariant known)
         (cachedInvariant known).
Proof.
  intros Hm. apply triple_hoare. apply (hoare_framed notObject); [|exact Hm].
  apply cachedInvariant_steps.
Qed.

Lemma triple_getPackageManager :
  triple (cachedInvariant None) getPackageManager
         (fun pm => cachedInvariant (Some pm)) (cachedInvariant None).
Proof.
  intros s [HC _].
  pose proof (hoare_cache_getPackageManager s HC) as HC'.
  pose proof (getPackageManager_returns_cached s) as Hpm.
  unfold result, after in *.
  destruct (getPackageManager s) as [[pm|e] s']; cbn [fst snd] in *.
  - split; [exact HC'|]. intros pm' [= <-]. now apply Hpm.
  - split; [exact HC' | discriminate].
Qed.

Lemma triple_pmInstall pm t :
  triple (cachedInvariant (Some pm)) (pmInstall pm t)
         (fun _ => cachedInvariant (Some pm)) (cachedInvariant (Some pm)).
Proof.
  unfold pmInstall.
  eapply triple_bind.
  - apply triple_hoare. intros s [HC Hpm]. split.
    + intros a m [Hin|Hin]; [|exact (HC a m Hin)].
      injection Hin as Ha _. subst a. now apply Hpm.
    + exact Hpm.
  - intros ?. pose proof (framed_brew_install notObject t).
    pose proof (framed_winget_install notObject t).
    pose proof (framed_linux_install notObject pm t).
    destruct (adapterClass pm); now apply triple_cached_kept.
Qed.

(** One step through [installTool] with the invariant of the cache. *)
Ltac cached_step :=
  lazymatch goal with
  | |- triple _ (bind _ _) _ _ => eapply triple_bind; [|intros ?]
  | |- triple _ (tryCatch _ _) _ _ => eapply triple_tryCatch; [|intros ?]
  | |- triple _ (ret _) _ _ => apply triple_ret; intros ? ?; try assumption
  | |- triple _ (if ?b then _ else _) _ _ => destruct b
  | |- triple _ (match ?x with _ => _ end) _ _ => destruct x
  | |- triple _ getPackageManager _ _ => apply triple_getPackageManager
  | |- triple _ (pmInstall _ _) _ _ => apply triple_pmInstall
  | |- triple _ _ _ _ =>
      first [apply triple_cached_framed | apply triple_cached_kept];
      solve [eauto with framed]
  end.

Lemma hoare_cache_installTool t sp :
  hoare (cachedInvariant None) (installTool t sp) (cachedInvariant None).
Proof.
  apply triple_after.
  pose proof (framed_checkInstalled notObject).
  pose proof (framed_refreshPathAfterInstall notObject).
  pose proof (framed_elapsedSince notObject).
  unfold installTool.
  cached_step; [cached_step|].
  cached_step; [cached_step|].
  destruct a0.
  - eapply (triple_bind _ (fun _ => cachedInvariant None)).
    + destruct sp; cached_step.
    + intros ?. cached_step.
  - eapply (triple_bind _ (fun resolved => cachedInvariant
                              (match resolved with inl pm => Some pm | inr _ => None end))).
    + eapply (triple_tryCatch _ (cachedInvariant None)).
      * cached_step; [cached_step|]. cached_step.
      * intros e. cached_step.
    + intros [pm|msg].
      * eapply (triple_bind _ (fun _ => cachedInvariant (Some pm))).
        { destruct sp; cached_step. }
        intros ?.
        eapply (triple_tryCatch _ (cachedInvariant (Some pm))).
        -- cached_step; [cached_step|].
           cached_step; [cached_step|].
           cached_step; [cached_step|].
           cached_step; [destruct sp; cached_step|].
           cached_step. eapply cachedInvariant_forget; eassumption.
        -- intros e.
           cached_step; [cached_step|].
           cached_step; [destruct (truthyFlag (isGUI t)); cached_step|].
           cached_step. eapply cachedInvariant_forget; eassumption.
      * cached_step.
Qed.

Lemma hoare_cache_installEach ts sp :
  hoare (cachedInvariant None) (installEach ts sp) (cachedInvariant None).
Proof.
  pose proof hoare_cache_installTool.
  induction ts as [|t ts IH]; simpl; repeat hoare_step ltac:(auto).
Qed.

Lemma hoare_cache_installTools ts sp :
  hoare (cachedInvariant None) (installTools ts sp) (cachedInvariant None).
Proof.
  pose proof hoare_cache_installEach.
  assert (Hf : forall {A} (m : M W A), framed notObject m ->
                 hoare (cachedInvariant None) m (cachedInvariant None)).
  { intros A m Hm. apply (hoare_framed notObject); [|exact Hm].
    apply cachedInvariant_steps. }
  unfold installTools.
  repeat hoare_step ltac:(first [solve [auto] | apply Hf; solve [eauto with framed]]).
Qed.

End AdapterCache.

(** ** The index refresh of the Linux installer *)

Section UpdateMemo.
Import Domain Proc Node Observe InstallationService.
Context {W : Type} `{Sys W}.

Local Abbreviation refreshes s := (count isAptRefresh (trace s)).

Lemma refreshes_steps (s s' : State W) :
  steps notAptRefresh s s' -> refreshes s' = refreshes s.
Proof.
  apply count_steps. intros e He. unfold notAptRefresh in He.
  now apply negb_true_iff in He.
Qed.

Lemma refreshesAtMost_framed {A} (m : M W A) :
  framed notAptRefresh m -> refreshesAtMost 0 m.
Proof. intros Hm s. rewrite (refreshes_steps _ _ (Hm s)). lia. Qed.

Lemma refreshesAtMost_bind {A B} a b (m : M W A) (k : A -> M W B) :
  refreshesAtMost a m -> (forall x, refreshesAtMost b (k x)) ->
  refreshesAtMost (a + b) (bind m k).
Proof.
  intros Hm Hk s. specialize (Hm s). unfold after, bind in *.
  destruct (m s) as [[x|e] s']; cbn [snd] in *; [|lia].
  specialize (Hk x s'). unfold after in Hk. lia.
Qed.

Lemma refreshesAtMost_execDirect c : refreshesAtMost 1 (SudoExecutor.execDirect c).
Proof.
  intros s. unfold after, SudoExecutor.execDirect, bind, execCommand.
  destruct (sys_exec c None (world s)) as [[out err|code out err msg] w];
    cbn; unfold count; cbn; destruct (isAptRefreshCommand c); cbn; lia.
Qed.

Lemma refreshesAtMost_sudo_exec c : refreshesAtMost 1 (SudoExecutor.exec c).
Proof.
  pose proof (framed_isAdmin notAptRefresh eq_refl) as Hadmin.
  pose proof (framed_isSudoCached notAptRefresh eq_refl) as Hcached.
  pose proof (framed_requestPrivileges notAptRefresh eq_refl eq_refl) as Hreq.
  unfold SudoExecutor.exec.
  apply (refreshesAtMost_bind 0 1); [apply refreshesAtMost_framed, framed_getCurrentOS|].
  intros os. destruct (os_eqb os windows); [apply refreshesAtMost_execDirect|].
  apply (refreshesAtMost_bind 0 1); [now apply refreshesAtMost_framed|].
  intros admin.
  apply (refreshesAtMost_bind 0 1).
  { apply refreshesAtMost_framed. destruct admin; [apply framed_ret | exact Hcached]. }
  intros [|].
  - apply (refreshesAtMost_bind 0 1); [now apply refreshesAtMost_framed|].
    intros ?. apply refreshesAtMost_execDirect.
  - apply (refreshesAtMost_bind 0 1); [now apply refreshesAtMost_framed|].
    intros [|]; cbn [negb].
    + apply refreshesAtMost_execDirect.
    + intros s. unfold after, ret. cbn. lia.
Qed.

Lemma total_isAdmin : total (PrivilegeChecker.isAdmin : M W bool).
Proof.
  unfold PrivilegeChecker.isAdmin, PrivilegeChecker.isUnixRoot,
    PrivilegeChecker.isWindowsAdmin, getCurrentOS, execSyncOk.
  total_auto.
Qed.

Lemma total_isSudoCached : total (PrivilegeChecker.isSudoCached : M W bool).
Proof.
  unfold PrivilegeChecker.isSudoCached, getCurrentOS, execSyncOk. total_auto.
Qed.

Lemma total_requestPrivileges : total (SudoExecutor.requestPrivileges : M W bool).
Proof.
  pose proof total_isAdmin. pose proof total_isSudoCached.
  pose proof (total_log (W := W)).
  unfold SudoExecutor.requestPrivileges, SudoExecutor.requestWindowsPrivileges,
    SudoExecutor.requestUnixPrivileges, SudoExecutor.startKeepAlive,
    PrivilegeChecker.startSudoKeepAlive, getCurrentOS.
  total_auto.
Qed.

Lemma total_sudo_exec c : total (SudoExecutor.exec c : M W _).
Proof.
  pose proof total_isAdmin. pose proof total_isSudoCached.
  pose proof total_requestPrivileges.
  unfold SudoExecutor.exec, SudoExecutor.execDirect, getCurrentOS.
  total_auto.
Qed.

Lemma wp_sudo_exec c (Q : Res SudoExecutor.SudoExecResult -> State W -> Prop) s :
  (forall a s', (refreshes s' <= refreshes s + 1)%nat -> Q (Ok a) s') ->
  wp (SudoExecutor.exec c) Q s.
Proof.
  intros HQ. unfold wp. destruct (total_sudo_exec c s) as [a ->].
  apply HQ, refreshesAtMost_sudo_exec.
Qed.

(** What one call of [update()] does to the number of refreshes and to the
    flag of the installer. *)
Lemma linux_update_once self (s : State W) :
  let s' := after (LinuxInstaller.update self) s in
  (aptFlag self s = true -> s' = s) /\
  (refreshes s' = refreshes s \/
   ((refreshes s' <= refreshes s + 1)%nat /\ aptFlag self s' = true)).
Proof.
  cbv zeta. split.
  - intros Hf. unfold after, LinuxInstaller.update, LinuxInstaller.getAptUpdateExecuted,
      bind, gets. unfold aptFlag in Hf. now rewrite Hf.
  - change (wp (LinuxInstaller.update self)
              (fun _ s' => refreshes s' = refreshes s \/
                 ((refreshes s' <= refreshes s + 1)%nat /\ aptFlag self s' = true)) s).
    unfold LinuxInstaller.update, LinuxInstaller.getAptUpdateExecuted,
      LinuxInstaller.setAptUpdateExecutedOf.
    wp_run. wp_run.
    destruct (default false (aptUpdateExecuted s !! adapterId self)); [wp_run; now left|].
    wp_run.
    apply (wp_framed notAptRefresh).
    { pose proof (framed_executeString notAptRefresh "which apt-get"). framed_auto. }
    intros r s1 H1. apply refreshes_steps in H1.
    destruct r as [[|]|e]; cbn [negb]; [|wp_run; now left|now left].
    wp_run.
    apply (wp_framed notAptRefresh);
      [exact (framed_requestPrivileges notAptRefresh eq_refl eq_refl)|].
    intros r s2 H2. apply refreshes_steps in H2.
    destruct r as [[|]|e]; cbn [negb]; [|wp_run; left; lia|left; lia].
    wp_run. apply wp_sudo_exec. intros a s3 H3.
    wp_run.
    assert (Hlog : forall Q : Res unit -> State W -> Prop,
               (forall s4, refreshes s4 = refreshes s3 -> Q (Ok tt) s4) ->
               wp (if negb (SudoExecutor.success a)
                   then log LConsoleWarn "⚠️  Aviso: Não foi possível atualizar cache do APT"
                   else ret tt) Q s3).
    { intros Q HQ. destruct (negb (SudoExecutor.success a)); wp_run; now apply HQ. }
    apply Hlog. intros s4 H4. wp_run. right. split.
    + change (refreshes s4 <= refreshes s + 1)%nat. lia.
    + unfold aptFlag. cbn. now rewrite lookup_insert_eq.
Qed.

Lemma linux_pmUpdate_once self (s : State W) :
  adapterClass self = LinuxInstallerC ->
  let s' := after (pmUpdate self) s in
  (aptFlag self s = true -> refreshes s' = refreshes s /\ aptFlag self s' = true) /\
  (refreshes s' = refreshes s \/
   ((refreshes s' <= refreshes s + 1)%nat /\ aptFlag self s' = true)).
Proof.
  intros Hc. cbv zeta.
  assert (E : after (pmUpdate self) s
              = after (LinuxInstaller.update self)
                      (setTrace (EvCall self "update" :: trace s) s)).
  { unfold pmUpdate. now rewrite Hc. }
  rewrite E.
  destruct (linux_update_once self (setTrace (EvCall self "update" :: trace s) s))
    as [Hsame Hone].
  split; [|exact Hone].
  intros Hf. rewrite (Hsame Hf). split; [reflexivity | exact Hf].
Qed.

Lemma linux_update_flagged self n (s : State W) :
  adapterClass self = LinuxInstallerC -> aptFlag self s = true ->
  refreshes (repeatedly n (pmUpdate self) s) = refreshes s.
Proof.
  intros Hc. revert s. induction n as [|n IH]; intros s Hf; [reflexivity|].
  destruct (linux_pmUpdate_once self s Hc) as [Hsame _].
  destruct (Hsame Hf) as [Hr Hf']. cbn [repeatedly]. now rewrite (IH _ Hf').
Qed.

Lemma linux_update_memoized self n (s : State W) :
  adapterClass self = LinuxInstallerC ->
  (refreshes (repeatedly n (pmUpdate self) s) <= refreshes s + 1)%nat.
Proof.
  intros Hc. revert s. induction n as [|n IH]; intros s; cbn [repeatedly]; [lia|].
  destruct (linux_pmUpdate_once self s Hc) as [_ [Hr|[Hr Hf]]].
  - specialize (IH (after (pmUpdate self) s)). lia.
  - rewrite (linux_update_flagged self n _ Hc Hf). exact Hr.
Qed.

(** *** The cached adapter is never replaced *)

Lemma hoare_kept_framed {A} pm (m : M W A) :
  framed notObject m ->
  hoare (fun s => packageManager s = Some pm) m (fun s => packageManager s = Some pm).
Proof. intros Hm s Hs. now rewrite (steps_pm _ _ _ (Hm s)). Qed.

Lemma hoare_kept_getPackageManager pm :
  hoare (fun s => packageManager s = Some pm) getPackageManager
        (fun s => packageManager s = Some pm).
Proof. intros s Hs. unfold after. now rewrite (getPackageManager_cached s pm Hs). Qed.

Lemma hoare_kept_pmInstall pm a t :
  hoare (fun s => packageManager s = Some pm) (pmInstall a t)
        (fun s => packageManager s = Some pm).
Proof.
  pose proof (framed_brew_install notObject t).
  pose proof (framed_winget_install notObject t).
  pose proof (framed_linux_install notObject a t).
  unfold pmInstall. apply hoare_bind; [intros s Hs; exact Hs|].
  intros _. destruct (adapterClass a); now apply hoare_kept_framed.
Qed.

Lemma hoare_kept_installTools pm ts sp :
  hoare (fun s => packageManager s = Some pm) (installTools ts sp)
        (fun s => packageManager s = Some pm).
Proof.
  pose proof (framed_checkInstalled notObject).
  pose proof (framed_refreshPathAfterInstall notObject).
  pose proof (framed_elapsedSince notObject).
  pose proof (hoare_kept_getPackageManager pm).
  pose proof (hoare_kept_pmInstall pm).
  assert (Htool : forall t, hoare (fun s => packageManager s = Some pm) (installTool t sp)
                              (fun s => packageManager s = Some pm)).
  { intros t. unfold installTool.
    repeat hoare_step ltac:(first [solve [auto]
                                  | apply hoare_kept_framed; solve [eauto with framed]]). }
  assert (Heach : hoare (fun s => packageManager s = Some pm) (installEach ts sp)
                        (fun s => packageManager s = Some pm)).
  { induction ts as [|t ts IH]; simpl; repeat hoare_step ltac:(auto). }
  unfold installTools.
  repeat hoare_step ltac:(first [solve [auto]
                                | apply hoare_kept_framed; solve [eauto with framed]]).
Qed.

End UpdateMemo.

(** ** The updates that are not memoized *)

Section PlainUpdates.
Import Domain Proc Node Observe.
Context {W : Type} `{Sys W}.

(** A method that adds one event of a kind each time it is called in a
    state of a set adds [n] of them in [n] calls, when every call starts in
    the set. *)
Lemma count_repeatedly {A} (f : Event -> bool) (P : State W -> Prop) (m : M W A) :
  (forall s, P s -> count f (trace (after m s)) = S (count f (trace s))) ->
  forall n s, (forall k, (k < n)%nat -> P (repeatedly k m s)) ->
    count f (trace (repeatedly n m s)) = (count f (trace s) + n)%nat.
Proof.
  intros Hm n. induction n as [|n IH]; intros s Hk; cbn [repeatedly]; [lia|].
  rewrite IH.
  - rewrite (Hm s (Hk 0%nat ltac:(lia))). lia.
  - intros k Hlt. apply (Hk (S k)). lia.
Qed.

Lemma brew_isAvailable_framed : framed notBrewRefresh (HomebrewAdapter.isAvailable : M W bool).
Proof.
  assert (Hx : forall l, framed notBrewRefresh (HomebrewAdapter.anyExists l : M W bool)).
  { induction l as [|p l IH]; cbn [HomebrewAdapter.anyExists];
      [apply framed_ret|].
    apply framed_bind; [apply framed_existsSync|].
    intros [|]; [apply framed_ret | exact IH]. }
  unfold HomebrewAdapter.isAvailable.
  apply framed_bind; [apply Hx|]. intros [|]; [apply framed_ret|].
  apply framed_bind; [now apply framed_execSyncOk|]. intros [|]; [apply framed_ret|].
  cbn [HomebrewAdapter.anyRuns HomebrewAdapter.brewPaths].
  repeat (apply framed_bind; [now apply framed_execSyncOk|];
          intros [|]; [apply framed_ret|]).
  apply framed_ret.
Qed.

(** [HomebrewAdapter.update()] called when Homebrew is available runs
    [brew update] once more. *)
Lemma brew_update_refreshes (s : State W) :
  result HomebrewAdapter.isAvailable s = Ok true ->
  count isBrewRefresh (trace (after HomebrewAdapter.update s))
  = S (count isBrewRefresh (trace s)).
Proof.
  intros Hav.
  assert (Hc : count isBrewRefresh (trace (after HomebrewAdapter.isAvailable s))
               = count isBrewRefresh (trace s)).
  { apply (count_steps isBrewRefresh notBrewRefresh).
    - intros e He. now apply negb_true_iff in He.
    - apply brew_isAvailable_framed. }
  unfold result in Hav. unfold after in *.
  unfold HomebrewAdapter.update, bind at 1.
  destruct (HomebrewAdapter.isAvailable s) as [r s1]. cbn [fst snd] in *. subst r.
  cbn [negb]. rewrite <- Hc.
  unfold ShellWrapper.executeString.
  cbn [default from_option mbind option_bind ShellWrapper.verbose ShellWrapper.silent
       ShellWrapper.cwd Datatypes.id].
  unfold tryCatch, bind, ret, execCommand.
  destruct (sys_exec _ _ (world s1)) as [[out err|code out err msg] w]; reflexivity.
Qed.

Lemma winget_isAvailable_framed :
  framed notWinGetRefresh (WinGetAdapter.isAvailable : M W bool).
Proof.
  unfold WinGetAdapter.isAvailable.
  apply framed_bind; [apply framed_getCurrentOS|]. intros os.
  destruct (negb _); [apply framed_ret|].
  apply framed_tryCatch; [|intros ?; apply framed_ret].
  apply framed_bind; [|intros ?; apply framed_ret].
  unfold ShellWrapper.executeString.
  apply framed_bind; [apply framed_ret|]. intros _.
  apply framed_bind; [now apply framed_execCommand|].
  intros [out err|code out err msg]; [apply framed_ret|].
  cbn. apply framed_ret.
Qed.

(** [WinGetAdapter.update()] called when WinGet is available runs
    [winget upgrade] once more, whether it succeeds or not. *)
Lemma winget_update_refreshes (s : State W) :
  result WinGetAdapter.isAvailable s = Ok true ->
  count isWinGetRefresh (trace (after WinGetAdapter.update s))
  = S (count isWinGetRefresh (trace s)).
Proof.
  intros Hav.
  assert (Hc : count isWinGetRefresh (trace (after WinGetAdapter.isAvailable s))
               = count isWinGetRefresh (trace s)).
  { apply (count_steps isWinGetRefresh notWinGetRefresh).
    - intros e He. now apply negb_true_iff in He.
    - apply winget_isAvailable_framed. }
  unfold result in Hav. unfold after in *.
  unfold WinGetAdapter.update, bind at 1.
  destruct (WinGetAdapter.isAvailable s) as [r s1]. cbn [fst snd] in *. subst r.
  cbn [negb]. rewrite <- Hc.
  unfold ShellWrapper.executeString.
  cbn [default from_option mbind option_bind ShellWrapper.verbose ShellWrapper.silent
       ShellWrapper.cwd Datatypes.id].
  unfold tryCatch, bind, ret, execCommand.
  destruct (sys_exec _ _ (world s1)) as [[out err|code out err msg] w]; reflexivity.
Qed.

End PlainUpdates.

(** ** One adapter per batch, one refresh per installer *)

Section AdapterReuse.
Import Domain Proc Node Observe InstallationService.
Context {W : Type} `{Sys W}.

(** C3, as the code has it.  In a batch started by a service that has
    resolved no adapter, every call of an adapter is made on the one that
    the service has cached when the batch ends.  A service that has an
    adapter cached returns it without creating another, and keeps it for
    the whole batch.  Calling [update()] any number of times on a
    [LinuxInstaller] runs the index refresh of APT at most once.  The
    [update()] of the Homebrew and WinGet adapters is not memoized: [n]
    calls of [HomebrewAdapter.update()], each made while Homebrew is
    available, run [brew update] [n] times, and [n] calls of
    [WinGetAdapter.update()], each made while WinGet is available, run
    [winget upgrade] [n] times. *)
Theorem batch_uses_cached_adapter_and_apt_refresh_runs_once
    (ts : list Tool) (sp : bool) (self : Adapter) (n : nat) (s s0 : State W) :
  unresolved s -> adapterClass self = LinuxInstallerC ->
  cacheInvariant (after (installTools ts sp) s) /\
  (forall pm, packageManager s0 = Some pm ->
     getPackageManager s0 = (Ok pm, s0) /\
     packageManager (after (installTools ts sp) s0) = Some pm) /\
  (count isAptRefresh (trace (repeatedly n (pmUpdate self) s0))
   <= count isAptRefresh (trace s0) + 1)%nat /\
  ((forall k, (k < n)%nat ->
      result HomebrewAdapter.isAvailable (repeatedly k HomebrewAdapter.update s0)
      = Ok true) ->
   count isBrewRefresh (trace (repeatedly n HomebrewAdapter.update s0))
   = (count isBrewRefresh (trace s0) + n)%nat) /\
  ((forall k, (k < n)%nat ->
      result WinGetAdapter.isAvailable (repeatedly k WinGetAdapter.update s0)
      = Ok true) ->
   count isWinGetRefresh (trace (repeatedly n WinGetAdapter.update s0))
   = (count isWinGetRefresh (trace s0) + n)%nat).
Proof.
  intros Hun Hc. split; [|split; [|split; [|split]]].
  - apply (hoare_cache_installTools ts sp s). split.
    + now apply unresolved_cacheInvariant.
    + discriminate.
  - intros pm Hpm. split.
    + now apply getPackageManager_cached.
    + now apply (hoare_kept_installTools pm ts sp s0).
  - now apply linux_update_memoized.
  - apply (count_repeatedly isBrewRefresh
             (fun s1 => result HomebrewAdapter.isAvailable s1 = Ok true)).
    exact brew_update_refreshes.
  - apply (count_repeatedly isWinGetRefresh
             (fun s1 => result WinGetAdapter.isAvailable s1 = Ok true)).
    exact winget_update_refreshes.
Qed.

End AdapterReuse.

Section AdapterReuseWitness.
Import Domain Proc Node Observe InstallationService Scenario.

(** On a Mac with Homebrew, two calls of [updatePackageManager()] go to
    the same cached adapter and run [brew update] twice. *)
Lemma homebrew_update_runs_every_time :
  List.filter isCall
    (trace (repeatedly 2 (updatePackageManager (H := machineSys)) macReady))
  = [EvCall {| adapterClass := HomebrewAdapterC; adapterId := 0 |} "update";
     EvCall {| adapterClass := HomebrewAdapterC; adapterId := 0 |} "update"]
  /\ packageManager (repeatedly 2 (updatePackageManager (H := machineSys)) macReady)
     = Some {| adapterClass := HomebrewAdapterC; adapterId := 0 |}
  /\ count isBrewRefresh
       (trace (repeatedly 2 (updatePackageManager (H := machineSys)) macReady)) = 2%nat.
Proof. vm_compute. repeat split; reflexivity. Qed.

Lemma batch_uses_cached_adapter_and_apt_refresh_runs_once_witness :
  unresolved ubuntuDesktop
  /\ cacheInvariant (after (installTools (H := machineSys) [htop; vlc] true) ubuntuDesktop)
  /\ (count isAptRefresh
        (trace (repeatedly 3
                  (pmUpdate (H := machineSys)
                     {| adapterClass := LinuxInstallerC; adapterId := 0 |})
                  ubuntuDesktop))
      <= count isAptRefresh (trace ubuntuDesktop) + 1)%nat
  /\ count isBrewRefresh
       (trace (repeatedly 3 (HomebrewAdapter.update (H := machineSys)) macReady))
     = (count isBrewRefresh (trace macReady) + 3)%nat
  /\ count isWinGetRefresh
       (trace (repeatedly 3 (WinGetAdapter.update (H := machineSys))
                 (windowsWith ["winget --version"])))
     = (count isWinGetRefresh (trace (windowsWith ["winget --version"])) + 3)%nat.
Proof.
  assert (Hun : unresolved ubuntuDesktop) by (split; reflexivity).
  split; [exact Hun|].
  destruct (batch_uses_cached_adapter_and_apt_refresh_runs_once (H := machineSys)
              [htop; vlc] true {| adapterClass := LinuxInstallerC; adapterId := 0 |} 3
              ubuntuDesktop ubuntuDesktop Hun eq_refl) as (Hcache & _ & Hmemo & _).
  destruct (batch_uses_cached_adapter_and_apt_refresh_runs_once (H := machineSys)
              [htop; vlc] true {| adapterClass := LinuxInstallerC; adapterId := 0 |} 3
              ubuntuDesktop macReady Hun eq_refl) as (_ & _ & _ & Hbrew & _).
  destruct (batch_uses_cached_adapter_and_apt_refresh_runs_once (H := machineSys)
              [htop; vlc] true {| adapterClass := LinuxInstallerC; adapterId := 0 |} 3
              ubuntuDesktop (windowsWith ["winget --version"]) Hun eq_refl)
    as (_ & _ & _ & _ & Hwinget).
  split; [exact Hcache|]. split; [exact Hmemo|]. split.
  - apply Hbrew. intros [|[|[|k]]] Hk; [reflexivity..|lia].
  - apply Hwinget. intros [|[|[|k]]] Hk; [reflexivity..|lia].
Defined.

End AdapterReuseWitness.

(** ** Failed installs *)

Section InstallFailures.
Import Domain Proc Node Observe ShellWrapper InstallationService.
Context {W : Type} `{Sys W}.

(** The Homebrew adapter does not look at the exit code of the install
    command: when the child closes within the limit, [install] returns,
    whatever the code. *)
Lemma homebrew_install_ignores_exit_code (t : Tool) (c : ascii) (r : string)
    (s : State W) (closedAt : N) (code : option Z) w' :
  HomebrewAdapter.isAvailable s = (Ok true, s) ->
  osOf s = macos ->
  getInstallCommand t macos = Some (String c r) ->
  c <> " "%char ->
  sys_spawn (String c r) 600000 (world s) = (Closes closedAt code, w') ->
  (closedAt <? 600000)%N = true ->
  result (HomebrewAdapter.install t) s = Ok tt.
Proof.
  intros Hav Hos Hcmd Hc Hsp Hlt. unfold result.
  rewrite (homebrew_install_run t c r s Hav Hos Hcmd).
  unfold tryCatch, bind.
  rewrite (executeInteractive_run c r (Some {| i_cwd := None; timeout := Some 600000%N |})
             s _ w' Hc Hsp).
  cbv zeta.
  change (default defaultTimeout
            (Some {| i_cwd := None; timeout := Some 600000%N |} ≫= timeout))
    with 600000%N.
  now rewrite Hlt.
Qed.

Local Hint Resolve total_log total_checkInstalled total_elapsedSince
  total_refreshPathAfterInstall : total.

(** What [installTool] reports: a failure always carries an error string,
    a success never does. *)
Lemma installTool_reports (t : Tool) (showProgress : bool) (s : State W) :
  exists r, result (installTool t showProgress) s = Ok r
            /\ (success r = false -> defined (error r) = true)
            /\ (success r = true -> error r = None).
Proof.
  change (wp (installTool t showProgress)
             (fun r _ => exists res, r = Ok res
                          /\ (success res = false -> defined (error res) = true)
                          /\ (success res = true -> error res = None))
             s).
  unfold installTool, now.
  repeat wp_step; eexists; (split; [reflexivity|]); split; cbn; congruence.
Qed.

End InstallFailures.

Section InstallFailuresScenario.
Import Domain Proc Node Observe InstallationService Scenario.

(** When the adapter does throw (here the install of figma never ends and
    is stopped at the limit), the failure of the GUI tool is a warning, its
    outcome has [success = false] and an error string, and the next tool is
    still installed. *)
Lemma hanging_cask_install_is_a_warning :
  exists r1 r2,
    result (installTools (H := machineSys) [figma; git] true) macHangingInstall
    = Ok [r1; r2]
    /\ tool r1 = figma /\ success r1 = false
    /\ error r1 = Some "Falha de conexão ao tentar instalar 'figma'. Verifique sua conexão com a internet."
    /\ tool r2 = git /\ success r2 = true
    /\ In (EvLog LWarn "⚠️  figma - falha na instalação (0.0s) - continuando...")
          (trace (after (installTools (H := machineSys) [figma; git] true)
                        macHangingInstall)).
Proof.
  do 2 eexists. split; [vm_compute; reflexivity|].
  do 5 (split; [reflexivity|]). vm_compute. tauto.
Qed.

(** C6, where the code departs from it.  On a Mac with Homebrew, the
    install command of the GUI tool figma closes with exit code 1.  The
    interactive run resolves with that code, the Homebrew adapter does not
    look at it, and [installTool] reports the tool as installed:
    [success = true], no error string, a success line in the output and no
    warning.  The next tool of the batch is installed as well. *)
Theorem failed_cask_install_is_reported_as_success :
  sys_spawn (Sys := machineSys) "brew install --cask figma" 600000 (world macFailingInstall)
  = (Closes 2000 (Some 1%Z), world macFailingInstall)
  /\ isGUI figma = Some true
  /\ exists r1 r2,
       result (installTools (H := machineSys) [figma; git] true) macFailingInstall
       = Ok [r1; r2]
       /\ tool r1 = figma /\ success r1 = true /\ error r1 = None
       /\ message r1 = "figma instalado com sucesso em 0.0s"
       /\ tool r2 = git /\ success r2 = true
       /\ count (fun e => match e with EvLog LWarn _ => true | _ => false end)
            (trace (after (installTools (H := machineSys) [figma; git] true)
                          macFailingInstall)) = 0%nat.
Proof.
  split; [reflexivity|]. split; [reflexivity|].
  do 2 eexists. split; [vm_compute; reflexivity|].
  repeat split.
Qed.

End InstallFailuresScenario.

(** ** The catalog: filtering, selection and categories *)

Section Catalog.
Import Domain.

Lemma filter_again {A} (f : A -> bool) (l : list A) :
  List.filter f (List.filter f l) = List.filter f l.
Proof.
  induction l as [|x l IH]; [reflexivity|]. simpl.
  destruct (f x) eqn:E; simpl; [rewrite E; now f_equal | exact IH].
Qed.

Lemma filterCategory_fixed os c c' :
  filterCategory os c = Some c' -> filterCategory os c' = Some c'.
Proof.
  intros Hf. pose proof (filterCategory_tools _ _ _ Hf) as Ht.
  unfold filterCategory in *.
  destruct (String.eqb (cat_id c) "ios" && negb (os_eqb os macos)) eqn:Ei; [discriminate|].
  destruct (List.length _ =? 0)%nat eqn:El; [discriminate|].
  injection Hf as <-. cbn [cat_id tools cat_name cat_description allowsMultipleSelection order].
  rewrite Ei.
  rewrite filter_again, El. reflexivity.
Qed.

(** X1. Filtering the categories for an operating system a second time changes
    nothing. *)
Theorem filterCategoriesByOS_idempotent (categories : list Category) (os : OperatingSystem) :
  filterCategoriesByOS (filterCategoriesByOS categories os) os
  = filterCategoriesByOS categories os.
Proof.
  unfold filterCategoriesByOS.
  induction categories as [|c cs IH]; [reflexivity|].
  cbn [map omap]. destruct (filterCategory os c) as [c'|] eqn:E; cbn.
  - rewrite (filterCategory_fixed _ _ _ E). cbn. f_equal. exact IH.
  - exact IH.
Qed.

(** X2. No category of the filtered list is empty, each one comes from a
    category of the input with the same id, its tools are tools of that
    category, and the category [ios] is there only on macOS. *)
Theorem filtered_categories_are_nonempty (categories : list Category)
    (os : OperatingSystem) (c' : Category) :
  In c' (filterCategoriesByOS categories os) ->
  tools c' <> []
  /\ (cat_id c' = "ios" -> os = macos)
  /\ exists c, In c categories /\ cat_id c = cat_id c'
               /\ forall t, In t (tools c') -> In t (tools c).
Proof.
  intros Hin. destruct (filterCategoriesByOS_In _ _ _ Hin) as (c & Hc & Hf).
  pose proof (filterCategory_tools _ _ _ Hf) as Ht.
  unfold filterCategory in Hf.
  destruct (String.eqb (cat_id c) "ios" && negb (os_eqb os macos)) eqn:Ei; [discriminate|].
  destruct (List.length _ =? 0)%nat eqn:El; [discriminate|].
  injection Hf as <-. cbn [cat_id tools] in *. split; [|split].
  - intros Hnil. rewrite Hnil in El. discriminate.
  - intros Hid. rewrite Hid in Ei. cbn in Ei. destruct os; try discriminate. reflexivity.
  - exists c. split; [exact Hc|]. split; [reflexivity|].
    intros t Hin'. now apply filter_In in Hin'.
Qed.

(** X3. What the user picked in a category is reduced to ids of tools of that
    category, whatever the values were. *)
Theorem processCategorySelection_within_category (category : Category)
    (selectedValues : list string) (i : string) :
  In i (processCategorySelection category selectedValues) ->
  exists t, In t (tools category) /\ id t = i.
Proof.
  unfold processCategorySelection.
  destruct (JS.arrIncludes selectedValues "__install_all__").
  - intros Hin. apply in_map_iff in Hin as (t & <- & Ht). now exists t.
  - destruct (JS.arrIncludes selectedValues "__skip__" || _); [intros []|].
    intros Hin. apply filter_In in Hin as [_ Hf].
    apply andb_true_iff in Hf as [_ Hf].
    destruct (find _ (tools category)) as [t|] eqn:E; [|discriminate].
    apply find_some in E as [Ht He]. apply String.eqb_eq in He. now exists t.
Qed.

(** X4. The tools handed to the installer are the selected ids that the
    catalog knows, in the order of the selection; unknown ids are dropped
    without notice. *)
Theorem toolsToInstall_keeps_known_ids (allTools : list Tool) (selected : list string) :
  map id (toolsToInstall allTools selected)
  = List.filter (fun i => defined (findToolById allTools i)) selected.
Proof.
  unfold toolsToInstall.
  induction selected as [|i l IH]; [reflexivity|].
  simpl. destruct (findToolById allTools i) as [t|] eqn:E; simpl.
  - unfold findToolById in E. apply find_some in E as [_ He].
    apply String.eqb_eq in He. f_equal; [exact He | exact IH].
  - exact IH.
Qed.

Lemma NoDup_snoc {A} (l : list A) (x : A) :
  List.NoDup l -> ~ In x l -> List.NoDup (l ++ [x]).
Proof.
  induction 1 as [|y l Hy Hl IH]; intros Hx; simpl.
  - constructor; [intros [] | constructor].
  - constructor.
    + intros Hin. apply in_app_or in Hin as [Hin|[<-|[]]]; [now apply Hy|].
      apply Hx. now left.
    + apply IH. intros Hin. apply Hx. now right.
Qed.

Lemma find_app_none {A} (f : A -> bool) (l : list A) (x : A) :
  find f l = None -> find f (l ++ [x]) = if f x then Some x else None.
Proof.
  induction l as [|y l IH]; simpl; [reflexivity|].
  destruct (f y); [discriminate | exact IH].
Qed.

Lemma find_none_notin (l : list Tool) (i : string) :
  find (fun t => String.eqb (id t) i) l = None -> ~ In i (map id l).
Proof.
  intros Hf Hin. apply in_map_iff in Hin as (t & Hi & Ht).
  pose proof (find_none _ _ Hf t Ht) as Hn. cbn in Hn.
  rewrite Hi, String.eqb_refl in Hn. discriminate.
Qed.

(** X5. Adding a tool to a category: afterwards a tool with that id is found,
    the ids stay distinct when they were, and adding it again changes
    nothing. *)
Theorem addToolToCategory_keeps_ids_distinct (category : Category) (tool : Tool) :
  (exists t, findToolInCategory (addToolToCategory category tool) (id tool) = Some t
             /\ id t = id tool)
  /\ (List.NoDup (map id (tools category)) ->
      List.NoDup (map id (tools (addToolToCategory category tool))))
  /\ addToolToCategory (addToolToCategory category tool) tool
     = addToolToCategory category tool.
Proof.
  unfold addToolToCategory, findToolInCategory.
  destruct (find (fun t => String.eqb (id t) (id tool)) (tools category)) as [t|] eqn:E.
  - split; [|split].
    + exists t. split; [exact E|].
      apply find_some in E as [_ He]. now apply String.eqb_eq in He.
    + exact (fun Hnd => Hnd).
    + now rewrite E.
  - assert (Hfound : find (fun t => String.eqb (id t) (id tool)) (tools category ++ [tool])
                     = Some tool).
    { rewrite (find_app_none _ _ _ E). now rewrite String.eqb_refl. }
    split; [|split].
    + exists tool. split; [exact Hfound | reflexivity].
    + intros Hnd. cbn [tools withTools]. rewrite map_app. cbn [map].
      apply NoDup_snoc; [exact Hnd|].
      intros Hin. exact (find_none_notin _ _ E Hin).
    + cbn [tools withTools]. now rewrite Hfound.
Qed.

Lemma findIndex_split {A} (f : A -> bool) (l : list A) :
  match findIndex f l with
  | Some n => exists a x b, l = (a ++ x :: b)%list /\ List.length a = n /\ f x = true
                            /\ forall y, In y a -> f y = false
  | None => forall y, In y l -> f y = false
  end.
Proof.
  induction l as [|z l IH]; simpl; [intros y []|].
  destruct (f z) eqn:Ez.
  - exists [], z, l. repeat split; [exact Ez | intros y []].
  - destruct (findIndex f l) as [n|]; simpl.
    + destruct IH as (a & x & b & -> & Hn & Hx & Ha).
      exists (z :: a), x, b. repeat split; [simpl; now rewrite Hn | exact Hx |].
      intros y [<-|Hy]; [exact Ez | now apply Ha].
    + intros y [<-|Hy]; [exact Ez | now apply IH].
Qed.

Lemma spliceOne_middle {A} (a b : list A) (x : A) :
  spliceOne (List.length a) (a ++ x :: b) = (a ++ b)%list.
Proof.
  unfold spliceOne. f_equal.
  - rewrite firstn_app, Nat.sub_diag, firstn_all. simpl. now rewrite app_nil_r.
  - change (S (List.length a)) with (1 + List.length a)%nat.
    rewrite <- skipn_skipn.
    rewrite skipn_app, Nat.sub_diag, skipn_all. reflexivity.
Qed.

Lemma find_app_skip {A} (g : A -> bool) (a b : list A) :
  (forall y, In y a -> g y = false) -> find g (a ++ b) = find g b.
Proof.
  induction a as [|z a IH]; intros Ha; simpl; [reflexivity|].
  rewrite (Ha z (or_introl eq_refl)). apply IH. intros y Hy. apply Ha. now right.
Qed.

Lemma find_app_cons_other {A} (g : A -> bool) (a b : list A) (x : A) :
  g x = false -> find g (a ++ x :: b) = find g (a ++ b).
Proof.
  intros Hx. induction a as [|z a IH]; simpl; [now rewrite Hx|].
  destruct (g z); [reflexivity | exact IH].
Qed.

(** X6. Removing a tool from a category by id: the call answers whether a tool
    with that id was there; when none was, the category is as before;
    lookups of other ids are not affected; and when the ids of the category
    are distinct the id is no longer found. Only the first tool with the
    id is taken out. *)
Theorem removeToolFromCategory_removes_the_id (category : Category) (toolId : string) :
  fst (removeToolFromCategory category toolId)
  = defined (findToolInCategory category toolId)
  /\ (fst (removeToolFromCategory category toolId) = false ->
      snd (removeToolFromCategory category toolId) = category)
  /\ (forall other, other <> toolId ->
        findToolInCategory (snd (removeToolFromCategory category toolId)) other
        = findToolInCategory category other)
  /\ (List.NoDup (map id (tools category)) ->
      findToolInCategory (snd (removeToolFromCategory category toolId)) toolId = None).
Proof.
  unfold removeToolFromCategory, findToolInCategory.
  pose proof (findIndex_split (fun t => String.eqb (id t) toolId) (tools category)) as Hs.
  destruct (findIndex (fun t => String.eqb (id t) toolId) (tools category)) as [n|].
  - destruct Hs as (a & x & b & Hl & Hn & Hx & Ha). cbn [fst snd tools withTools].
    rewrite Hl, <- Hn, spliceOne_middle.
    apply String.eqb_eq in Hx. split; [|split; [|split]].
    + rewrite (find_app_skip _ a (x :: b) Ha). simpl.
      now rewrite Hx, String.eqb_refl.
    + discriminate.
    + intros other Ho. symmetry. apply find_app_cons_other.
      rewrite Hx. now apply String.eqb_neq.
    + intros Hnd. rewrite (find_app_skip _ a b Ha).
      destruct (find (fun t => String.eqb (id t) toolId) b) as [t|] eqn:E; [|reflexivity].
      apply find_some in E as [Hin He]. apply String.eqb_eq in He.
      rewrite map_app in Hnd. apply NoDup_remove_2 in Hnd. exfalso. apply Hnd.
      apply in_or_app. right. cbn [map]. rewrite Hx, <- He. now apply in_map.
  - cbn [fst snd]. split; [|split; [|split]].
    + destruct (find _ (tools category)) as [t|] eqn:E; [|reflexivity].
      apply find_some in E as [Hin He]. now rewrite (Hs t Hin) in He.
    + reflexivity.
    + reflexivity.
    + intros _. destruct (find _ (tools category)) as [t|] eqn:E; [|reflexivity].
      apply find_some in E as [Hin He]. now rewrite (Hs t Hin) in He.
Qed.

End Catalog.

(** ** The shell wrapper and the elevated runs *)

Section ShellRuns.
Import Domain Proc Node Observe ShellWrapper.
Context {W : Type} `{Sys W}.

Lemma codeOr1_nonzero (code : option Z) : ShellWrapper.codeOr1 code <> 0%Z.
Proof.
  unfold codeOr1. destruct code as [c|]; [|discriminate].
  destruct (Z.eqb c 0) eqn:E; [discriminate|]. now apply Z.eqb_neq.
Qed.

(** X7. In silent mode [executeString] never throws: it answers with the exit
    code, which is 0 exactly when the command succeeded, and with the
    command it was given. *)
Theorem executeString_silent_never_throws (c : string) (o : option ShellOptions)
    (s : State W) :
  o ≫= silent = Some true ->
  exists r, result (executeString c o) s = Ok r
            /\ command r = c
            /\ (exitCode r = 0%Z
                <-> exists out err, fst (sys_exec c (o ≫= cwd) (world s)) = ExecOk out err).
Proof.
  intros Hs.
  change (wp (executeString c o)
            (fun r _ => exists res, r = Ok res /\ command res = c
               /\ (exitCode res = 0%Z
                   <-> exists out err,
                         fst (sys_exec c (o ≫= cwd) (world s)) = ExecOk out err)) s).
  unfold executeString. rewrite Hs.
  change (default false (Some true)) with true.
  wp_run.
  destruct (default false (o ≫= verbose)); wp_run; wp_run; wp_run;
    cbn [world setTrace] in *;
    match goal with Hx : sys_exec _ _ _ = _ |- _ => rewrite Hx end;
    (destruct o0 as [out err|code out err msg]; wp_run; eexists;
     (split; [reflexivity|]); (split; [reflexivity|]); cbn [exitCode fst]; split);
    try (intros _; now exists out, err);
    try (intros Hc; now apply codeOr1_nonzero in Hc);
    try (intros (? & ? & ?); discriminate); try reflexivity.
Qed.

(** X8. What [executeString] throws is a [ShellError] for the command it was
    given whose exit code is never 0, and it throws only when it is not in
    silent mode. *)
Theorem executeString_throws_nonzero_exit_code (c : string) (o : option ShellOptions)
    (s : State W) (e : Exn) :
  result (executeString c o) s = Throw e ->
  default false (o ≫= silent) = false
  /\ exists message code out err,
       e = ShellError message code c out err /\ code <> 0%Z.
Proof.
  change (wp (executeString c o)
            (fun r _ => r = Throw e ->
               default false (o ≫= silent) = false
               /\ exists message code out err,
                    e = ShellError message code c out err /\ code <> 0%Z) s).
  unfold executeString.
  wp_run.
  destruct (default false (o ≫= verbose)); wp_run; wp_run; wp_run;
    (destruct o0 as [out err|code out err msg]; [wp_run; discriminate|]);
    (destruct (default false (o ≫= silent)); wp_run; [discriminate|]);
    intros [= <-]; (split; [reflexivity|]); do 4 eexists;
    (split; [reflexivity | apply codeOr1_nonzero]).
Qed.

End ShellRuns.


Section ElevatedRuns.
Import Domain Proc Node Observe PrivilegeChecker SudoExecutor.
Context {W : Type} `{Sys W}.

Lemma getCurrentOS_eq (s : State W) : getCurrentOS s = (Ok (osOf s), s).
Proof. reflexivity. Qed.

Lemma isAdmin_unix (s : State W) :
  osOf s <> windows ->
  isAdmin s = (Ok (match uid s with Some 0%Z => true | _ => false end), s).
Proof.
  intros Hos. unfold isAdmin, bind. rewrite getCurrentOS_eq.
  destruct (osOf s); [reflexivity | contradiction | reflexivity].
Qed.

Lemma isSudoCached_unix (s : State W) o w :
  osOf s <> windows ->
  sys_exec "sudo -n true" None (world s) = (o, w) ->
  isSudoCached s
  = (Ok (match o with ExecOk _ _ => true | ExecErr _ _ _ _ => false end),
     setTrace (EvExec "sudo -n true" :: trace s) (setWorld w s)).
Proof.
  intros Hos Hx. unfold isSudoCached, bind. rewrite getCurrentOS_eq.
  destruct (osOf s) eqn:E; [|contradiction|];
    unfold execSyncOk, bind, execCommand; rewrite Hx; now destruct o.
Qed.

Lemma osOf_setTrace tr (s : State W) : osOf (setTrace tr s) = osOf s.
Proof. reflexivity. Qed.

Lemma osOf_setWorld w (s : State W) : osOf (setWorld w s) = osOf s.
Proof. reflexivity. Qed.

(** X9. On Windows, and for root on macOS and Linux, [SudoExecutor.exec] runs
    the command exactly as it was given: no [sudo] in front of it, no probe
    of the sudo timestamp and no question to the user. *)
Theorem sudo_exec_runs_directly (c : string) (s : State W) :
  osOf s = windows \/ uid s = Some 0%Z ->
  exec c s = execDirect c s
  /\ trace (after (exec c) s) = EvExec c :: trace s.
Proof.
  intros Hd.
  assert (E : exec c s = execDirect c s).
  { unfold exec, bind at 1. rewrite getCurrentOS_eq.
    destruct (os_eqb (osOf s) windows) eqn:Eo; [reflexivity|].
    assert (Hos : osOf s <> windows) by (intros Hw; rewrite Hw in Eo; discriminate).
    destruct Hd as [Hw|Hu]; [contradiction|].
    unfold bind. rewrite (isAdmin_unix s Hos), Hu. cbn [ret].
    rewrite (isAdmin_unix s Hos), Hu. reflexivity. }
  split; [exact E|].
  unfold after. rewrite E. unfold execDirect, bind, execCommand.
  destruct (sys_exec c None (world s)) as [[out err|code out err msg] w]; reflexivity.
Qed.

(** X10. A user who is not root and whose sudo timestamp is valid: the command
    is run with [sudo] in front of it after one probe of the timestamp, and
    the user is asked nothing. *)
Theorem sudo_exec_with_valid_timestamp (c : string) (s : State W) out err w :
  osOf s <> windows -> uid s <> Some 0%Z ->
  sys_exec "sudo -n true" None (world s) = (ExecOk out err, w) ->
  exec c s
  = execDirect ("sudo " ++ c) (setTrace (EvExec "sudo -n true" :: trace s) (setWorld w s))
  /\ trace (after (exec c) s)
     = EvExec ("sudo " ++ c) :: EvExec "sudo -n true" :: trace s.
Proof.
  intros Hos Hu Hx.
  assert (Hroot : match uid s with Some 0%Z => true | _ => false end = false).
  { destruct (uid s) as [[|p|p]|]; try reflexivity. now contradiction Hu. }
  assert (E : exec c s
              = execDirect ("sudo " ++ c)
                  (setTrace (EvExec "sudo -n true" :: trace s) (setWorld w s))).
  { unfold exec, bind at 1. rewrite getCurrentOS_eq.
    destruct (os_eqb (osOf s) windows) eqn:Eo;
      [destruct (osOf s); try discriminate; contradiction|].
    unfold bind. rewrite (isAdmin_unix s Hos), Hroot.
    rewrite (isSudoCached_unix s _ _ Hos Hx).
    rewrite isAdmin_unix by exact Hos. cbn [uid setTrace setWorld].
    now rewrite Hroot. }
  split; [exact E|].
  unfold after. rewrite E. unfold execDirect, bind, execCommand.
  cbn [world setTrace setWorld trace].
  destruct (sys_exec ("sudo " ++ c) None w) as [[o1 e1|code o1 e1 msg] w1]; reflexivity.
Qed.

Lemma not_root (s : State W) :
  uid s <> Some 0%Z -> match uid s with Some 0%Z => true | _ => false end = false.
Proof. destruct (uid s) as [[|p|p]|]; try reflexivity. now intros []. Qed.

(** X11. A user who is not root, whose sudo timestamp is not valid and who does
    not consent: [SudoExecutor.exec] does not throw, it answers with a
    failure of exit code 1, and neither the command nor [sudo] was run;
    only the timestamp was probed, twice, and the user was asked once. *)
Theorem sudo_exec_refused_runs_nothing (c : string) (s : State W)
    (o1 o2 : ExecOutcome) (w1 w2 w3 : W) (answer : option bool) :
  osOf s <> windows -> uid s <> Some 0%Z ->
  sys_exec "sudo -n true" None (world s) = (o1, w1) -> succeeded o1 = false ->
  sys_exec "sudo -n true" None w1 = (o2, w2) -> succeeded o2 = false ->
  sys_confirm unixConsentMessage w2 = (answer, w3) -> cancelledOrNo answer = true ->
  result (exec c) s
  = Ok {| success := false; stdout := EmptyString;
          stderr := "Privilégios de administrador não foram obtidos"; exitCode := 1 |}
  /\ commandsOf (trace (after (exec c) s))
     = "sudo -n true" :: "sudo -n true" :: commandsOf (trace s)
  /\ prompts (trace (after (exec c) s)) = S (prompts (trace s)).
Proof.
  intros Hos Hu Hx1 Hf1 Hx2 Hf2 Hc Hno.
  pose proof (not_root s Hu) as Hroot.
  assert (Eo : os_eqb (osOf s) windows = false)
    by (destruct (osOf s); try reflexivity; contradiction).
  eassert (E : exec c s = _).
  { unfold exec, bind at 1. rewrite getCurrentOS_eq, Eo.
  unfold bind at 1. rewrite (isAdmin_unix s Hos), Hroot.
  unfold bind at 1. rewrite (isSudoCached_unix s _ _ Hos Hx1).
  replace (match o1 with ExecOk _ _ => true | ExecErr _ _ _ _ => false end)
    with false by (now destruct o1).
  unfold bind at 1, requestPrivileges, bind at 1. rewrite getCurrentOS_eq.
  rewrite osOf_setTrace, osOf_setWorld, Eo.
  unfold bind at 1. rewrite isAdmin_unix by exact Hos.
  cbn [uid setTrace setWorld]. rewrite Hroot.
  unfold bind at 1.
  rewrite (isSudoCached_unix _ o2 w2) by (try exact Hos; exact Hx2).
  replace (match o2 with ExecOk _ _ => true | ExecErr _ _ _ _ => false end)
    with false by (now destruct o2).
  unfold requestUnixPrivileges, bind, log, emit, modify, confirm, ret.
  cbn [world setTrace setWorld trace]. rewrite Hc, Hno.
  cbn [negb]. reflexivity. }
  unfold result, after. rewrite E. cbn [fst snd trace setTrace].
  split; [reflexivity|]. split; [reflexivity|].
  unfold prompts, count. cbn [List.filter isConsent]. reflexivity.
Qed.

(** X12. [SudoExecutor.exec] never throws, and its answer is consistent:
    [success] is true exactly when the exit code is 0. *)
Theorem sudo_exec_never_throws (c : string) (s : State W) :
  exists r, result (exec c) s = Ok r /\ (success r = true <-> exitCode r = 0%Z).
Proof.
  pose proof total_isAdmin. pose proof total_isSudoCached.
  pose proof total_requestPrivileges.
  change (wp (exec c)
            (fun r _ => exists res, r = Ok res
                         /\ (success res = true <-> exitCode res = 0%Z)) s).
  unfold exec, execDirect, getCurrentOS.
  repeat wp_step; eexists; (split; [reflexivity|]); cbn [success exitCode];
    split; try reflexivity; try discriminate;
    intros Hc; now apply codeOr1_nonzero in Hc.
Qed.

(** X13. On Windows a user who is not an administrator is asked for consent by
    every call of [requestPrivileges]: nothing is remembered from an earlier
    answer. The call runs nothing but the administrator probe and returns
    the answer. *)
Theorem windows_asks_for_consent_every_time (s : State W)
    (o : ExecOutcome) (w1 w2 : W) (answer : option bool) :
  osOf s = windows ->
  sys_exec "net session" None (world s) = (o, w1) -> succeeded o = false ->
  sys_confirm windowsConsentMessage w1 = (answer, w2) ->
  result requestPrivileges s = Ok (negb (cancelledOrNo answer))
  /\ prompts (trace (after requestPrivileges s)) = S (prompts (trace s))
  /\ commandsOf (trace (after requestPrivileges s)) = "net session" :: commandsOf (trace s).
Proof.
  intros Hos Hx Hf Hc.
  eassert (E : requestPrivileges s = _).
  { unfold requestPrivileges, bind at 1. rewrite getCurrentOS_eq, Hos.
    unfold bind at 1, isAdmin, bind at 1. rewrite getCurrentOS_eq, Hos.
    unfold isWindowsAdmin, execSyncOk, bind at 1, execCommand. rewrite Hx.
    replace (match o with ExecOk _ _ => ret true | ExecErr _ _ _ _ => ret false end)
      with (ret (A := bool) (W := W) false) by (now destruct o).
    unfold requestWindowsPrivileges, bind, log, emit, modify, confirm, ret.
    cbn [os_eqb world setTrace setWorld trace]. rewrite Hc.
    reflexivity. }
  unfold result, after. rewrite E.
  destruct answer as [[|]|]; cbn [fst snd cancelledOrNo negb trace setTrace];
    (split; [reflexivity|]); (split; [|reflexivity]);
    unfold prompts, count; cbn [List.filter isConsent]; reflexivity.
Qed.

End ElevatedRuns.

(** ** The live PATH and the rc file *)

Section UnixPath.
Import Domain Proc Node Observe Environment UnixEnvironmentManager.
Context {W : Type} `{Sys W}.

Lemma livePath_setEnv (v : string) (s : State W) :
  livePath (setEnv (<["PATH" := v]> (env s)) s) = v.
Proof. unfold livePath. cbn [env setEnv]. now rewrite lookup_insert_eq. Qed.

Lemma unix_refreshProcessPath_eq (p : string) (s : State W) :
  after (refreshProcessPath p) s
  = if JS.arrIncludes (JS.split ":" (livePath s)) p then s
    else setEnv (<["PATH" := p ++ ":" ++ livePath s]> (env s)) s.
Proof.
  unfold after, refreshProcessPath, bind, envOrEmpty, gets, setEnvVar, modify, ret.
  fold (livePath s). now destruct (JS.arrIncludes (JS.split ":" (livePath s)) p).
Qed.

Lemma arrIncludes_cons (x y : string) (l : list string) :
  JS.arrIncludes (y :: l) x = String.eqb x y || JS.arrIncludes l x.
Proof. reflexivity. Qed.

Lemma unix_refresh_adds_and_keeps (p : string) (s : State W) :
  lacks ":" p = true ->
  result (isInPath p) (after (refreshProcessPath p) s) = Ok true
  /\ (forall q, result (isInPath q) s = Ok true ->
                result (isInPath q) (after (refreshProcessPath p) s) = Ok true)
  /\ after (refreshProcessPath p) (after (refreshProcessPath p) s)
     = after (refreshProcessPath p) s.
Proof.
  intros Hp.
  assert (Hin : JS.arrIncludes (JS.split ":" (livePath (after (refreshProcessPath p) s))) p
                = true).
  { rewrite unix_refreshProcessPath_eq.
    destruct (JS.arrIncludes (JS.split ":" (livePath s)) p) eqn:E; [exact E|].
    rewrite livePath_setEnv.
    change (p ++ ":" ++ livePath s) with (p ++ String ":" (livePath s)).
    rewrite (split_app _ _ _ Hp). apply arrIncludes_head. }
  split; [|split].
  - unfold result. now rewrite unix_isInPath_spec, Hin.
  - intros q. unfold result. rewrite !unix_isInPath_spec. cbn [fst].
    rewrite unix_refreshProcessPath_eq.
    destruct (JS.arrIncludes (JS.split ":" (livePath s)) p) eqn:E; [exact (fun h => h)|].
    rewrite livePath_setEnv.
    change (p ++ ":" ++ livePath s) with (p ++ String ":" (livePath s)).
    rewrite (split_app _ _ _ Hp), arrIncludes_cons.
    intros [= ->]. now rewrite orb_true_r.
  - rewrite (unix_refreshProcessPath_eq p (after (refreshProcessPath p) s)).
    now rewrite Hin.
Qed.

(** X14. [refreshProcessPath(p)] for a path without a colon: afterwards
    [isInPath(p)] is true, every path that was in the live PATH still is,
    and a second call changes nothing. *)
Theorem unix_refreshed_path_is_in_path (p : string) (s : State W) :
  lacks ":" p = true ->
  result (isInPath p) (after (refreshProcessPath p) s) = Ok true
  /\ (forall q, result (isInPath q) s = Ok true ->
                result (isInPath q) (after (refreshProcessPath p) s) = Ok true)
  /\ after (refreshProcessPath p) (after (refreshProcessPath p) s)
     = after (refreshProcessPath p) s.
Proof. exact (unix_refresh_adds_and_keeps p s). Qed.

(** X15. With [$SHELL] naming none of zsh, bash and fish, [addToPath] of a path
    that is not in the live PATH fails, writes no file and leaves the
    environment alone. *)
Theorem unix_addToPath_unknown_shell (p : string) (s : State W) :
  JS.arrIncludes (JS.split ":" (livePath s)) p = false ->
  shellInfo s = None ->
  JS.includes (default EmptyString (env s !! "SHELL")) "zsh" = false ->
  JS.includes (default EmptyString (env s !! "SHELL")) "bash" = false ->
  JS.includes (default EmptyString (env s !! "SHELL")) "fish" = false ->
  result (addToPath p) s
  = Ok {| success := false; message := "Não foi possível detectar o shell do usuário";
          requiresRestart := None |}
  /\ files (after (addToPath p) s) = files s
  /\ env (after (addToPath p) s) = env s.
Proof.
  intros Hout Hc Hz Hb Hf.
  eassert (E : addToPath p s = _).
  { unfold addToPath, bind at 1. rewrite unix_isInPath_spec, Hout.
    unfold bind at 1, detectShell, bind at 1, gets at 1. rewrite Hc.
    unfold bind, envOrEmpty, gets, modify, ret.
    replace (match env s !! "SHELL" with Some v => v | None => EmptyString end)
      with (default EmptyString (env s !! "SHELL")) by (now destruct (env s !! "SHELL")).
    rewrite Hz, Hb, Hf. cbn [fst snd shell configFile isUnknown orb]. reflexivity. }
  unfold result, after. rewrite E. cbn [fst snd files env setShellInfo].
  repeat split.
Qed.

(** X16. [addToPath] of a path that the rc file already mentions anywhere (the
    test is a substring test on the whole file): the call reports success
    without a restart, writes nothing and does not touch the live PATH, so
    [isInPath] still answers no. *)
Theorem unix_addToPath_mentioned_in_rc (p : string) (s : State W) (info : ShellInfo)
    (content : string) :
  JS.arrIncludes (JS.split ":" (livePath s)) p = false ->
  result detectShell s = Ok info ->
  isUnknown (shell info) = false ->
  truthyStr (configFile info) = true ->
  files s !! configFile info = Some content ->
  JS.includes content p = true ->
  result (addToPath p) s
  = Ok {| success := true;
          message := p ++ " já está configurado em " ++ configFile info;
          requiresRestart := Some false |}
  /\ files (after (addToPath p) s) = files s
  /\ env (after (addToPath p) s) = env s
  /\ result (isInPath p) (after (addToPath p) s) = Ok false.
Proof.
  intros Hout Hinfo Hknown Hcfg Hfile Hinc.
  destruct (detectShell_spec s) as (info' & Hd).
  unfold result in Hinfo. rewrite Hd in Hinfo. injection Hinfo as ->.
  eassert (E : addToPath p s = _).
  { unfold addToPath, bind at 1. rewrite unix_isInPath_spec, Hout.
    unfold bind at 1. rewrite Hd, Hknown, Hcfg. cbn [orb negb].
    unfold tryCatch, bind, existsSync, readFileSync, gets, ret.
    cbn [files setShellInfo]. rewrite Hfile. cbn [defined files setShellInfo].
    rewrite Hfile, Hinc. reflexivity. }
  unfold result, after. rewrite E. cbn [fst snd files env setShellInfo].
  repeat split. rewrite unix_isInPath_spec. cbn [fst].
  unfold livePath in *. cbn [env setShellInfo]. now rewrite Hout.
Qed.

(** X17. When the rc file cannot be written, [addToPath] does not throw: it
    reports the failure with the message of the error, and the live PATH
    and the files are as before. *)
Theorem unix_addToPath_write_fails (p : string) (s : State W) (info : ShellInfo) :
  JS.arrIncludes (JS.split ":" (livePath s)) p = false ->
  result detectShell s = Ok info ->
  isUnknown (shell info) = false ->
  truthyStr (configFile info) = true ->
  configFile info ∈ readOnly s ->
  (forall content, files s !! configFile info = Some content ->
                   JS.includes content p = false) ->
  (exists r, result (addToPath p) s = Ok r /\ success r = false
             /\ JS.startsWith (message r) "Erro ao adicionar ao PATH: " = true)
  /\ files (after (addToPath p) s) = files s
  /\ env (after (addToPath p) s) = env s.
Proof.
  intros Hout Hinfo Hknown Hcfg Hro Hfile.
  destruct (detectShell_spec s) as (info' & Hd).
  unfold result in Hinfo. rewrite Hd in Hinfo. injection Hinfo as ->.
  assert (Hdec : bool_decide (configFile info ∈ readOnly s) = true)
    by now apply bool_decide_eq_true_2.
  eassert (E : addToPath p s = _).
  { unfold addToPath, bind at 1. rewrite unix_isInPath_spec, Hout.
    unfold bind at 1. rewrite Hd, Hknown, Hcfg. cbn [orb negb].
    unfold tryCatch, bind, existsSync, readFileSync, appendFileSync, gets, ret.
    cbn [files readOnly setShellInfo].
    destruct (files s !! configFile info) as [c|] eqn:Ef;
      cbn [defined files readOnly setShellInfo];
      rewrite ?Ef, ?(Hfile c eq_refl); cbn [files readOnly setShellInfo];
      rewrite Hdec; reflexivity. }
  unfold result, after. rewrite E.
  destruct (files s !! configFile info); cbn [fst snd files env setShellInfo];
    (split; [eexists; split; [reflexivity|]; split; reflexivity|]); split; reflexivity.
Qed.

End UnixPath.

Section WindowsPath.
Import Domain Proc Node Observe Environment WindowsEnvironmentManager.
Context {W : Type} `{Sys W}.


(** X18. [setVariable] on Windows, for a value within the limit of [setx]: the
    call runs one [setx]; when it succeeds the call reports success and
    [getVariable] gives the value back; when it fails the call reports the
    failure and the variable of the process is as before. *)
Theorem windows_setVariable_then_getVariable (name value : string) (s : State W)
    (o : ExecOutcome) (w : W) :
  (JS.length value <= setxLimit)%nat ->
  sys_exec (setxCommand name value) None (world s) = (o, w) ->
  (exists r, result (setVariable name value) s = Ok r /\ success r = succeeded o)
  /\ result (getVariable name) (after (setVariable name value) s)
     = Ok (if succeeded o then Some value else env s !! name)
  /\ commandsOf (trace (after (setVariable name value) s))
     = setxCommand name value :: commandsOf (trace s).
Proof.
  intros Hlen Hx.
  assert (Hlt : (setxLimit <? JS.length value)%nat = false)
    by (apply Nat.ltb_ge; exact Hlen).
  eassert (E : setVariable name value s = _).
  { unfold setVariable, tryCatch. rewrite Hlt.
    unfold execSyncThrow, bind, execCommand. rewrite Hx. reflexivity. }
  unfold result, after. rewrite E.
  destruct o as [out err|code out err msg];
    cbn [fst snd succeeded]; unfold getVariable, gets, setEnvVar, modify, ret, throw;
    cbn [fst snd env setEnv setTrace setWorld trace];
    (split; [eexists; split; reflexivity|]); (split; [|reflexivity]).
  - now rewrite lookup_insert_eq.
  - reflexivity.
Qed.

(** X19. [removeVariable] on Windows: one PowerShell command; when it succeeds
    the variable is gone from the process as well, when it fails the call
    reports the failure and the variable is as before. *)
Theorem windows_removeVariable_then_getVariable (name : string) (s : State W)
    (o : ExecOutcome) (w : W) :
  sys_exec (removeVariableCommand name) None (world s) = (o, w) ->
  (exists r, result (removeVariable name) s = Ok r /\ success r = succeeded o)
  /\ result (getVariable name) (after (removeVariable name) s)
     = Ok (if succeeded o then None else env s !! name)
  /\ commandsOf (trace (after (removeVariable name) s))
     = removeVariableCommand name :: commandsOf (trace s).
Proof.
  intros Hx.
  eassert (E : removeVariable name s = _).
  { unfold removeVariable, tryCatch.
    unfold execSyncThrow, bind, execCommand. rewrite Hx. reflexivity. }
  unfold result, after. rewrite E.
  destruct o as [out err|code out err msg];
    cbn [fst snd succeeded]; unfold getVariable, gets, modify, ret, throw;
    cbn [fst snd env setEnv setTrace setWorld trace];
    (split; [eexists; split; reflexivity|]); (split; [|reflexivity]).
  - now rewrite lookup_delete_eq.
  - reflexivity.
Qed.


End WindowsPath.

(** ** The adapters *)

Section WinGetCommands.
Import Domain Proc Node Observe WinGetAdapter.

Lemma matchId_skip (c : ascii) (s : string) :
  matchIdHere (String c s) = None -> matchId (String c s) = matchId s.
Proof. intros Hn. cbn [matchId]. now rewrite Hn. Qed.

Lemma matchId_here (s g : string) : matchIdHere s = Some g -> matchId s = Some g.
Proof. intros Hs. destruct s; cbn [matchId]; now rewrite Hs. Qed.

Lemma matchIdHere_at_id (t : string) :
  matchIdHere (String "-" (String "-" (String "i" (String "d" t))))
  = captureAfter (String.length (fst (spanWhile isIdSeparator t))) t.
Proof. reflexivity. Qed.

Lemma spanWhile_word (id rest : string) :
  noSpaces id = true ->
  fst (spanWhile (fun x => negb (JS.isSpace x)) (id ++ String " " rest)) = id.
Proof.
  unfold noSpaces. induction id as [|c id IH]; intros Hn; [reflexivity|].
  cbn [allChars] in Hn. apply andb_true_iff in Hn as [Hc Hn].
  change (String c id ++ String " " rest) with (String c (id ++ String " " rest)).
  cbn [spanWhile]. cbn beta. rewrite Hc.
  specialize (IH Hn). destruct (spanWhile _ (id ++ String " " rest)) as [a b].
  cbn [fst] in *. now rewrite IH.
Qed.

(** X21. The command that [buildInstallCommand] builds for a package id gives
    the id back to [extractPackageId], for an id that is not empty, has no
    white space and does not start with an equals sign. *)
Theorem winget_extract_of_built_command (packageId : string) :
  packageId <> EmptyString ->
  noSpaces packageId = true ->
  JS.startsWith packageId "=" = false ->
  extractPackageId (buildInstallCommand packageId) = Some packageId.
Proof.
  intros Hne Hns Heq. destruct packageId as [|c r]; [contradiction|].
  pose proof Hns as Hc. unfold noSpaces in Hc. cbn [allChars] in Hc.
  apply andb_true_iff in Hc as [Hc _].
  apply negb_true_iff in Hc.
  assert (Hsep : isIdSeparator c = false).
  { unfold isIdSeparator. rewrite Hc, orb_false_r.
    cbn [JS.startsWith] in Heq.
    destruct (Ascii.eqb "=" c) eqn:E; [destruct r; discriminate|].
    rewrite Ascii.eqb_sym. exact E. }
  unfold extractPackageId, buildInstallCommand, wingetCommand.
  cbv [JS.join String.append].
  repeat (rewrite matchId_skip by reflexivity).
  erewrite matchId_here; [reflexivity|].
  rewrite matchIdHere_at_id.
  cbn [spanWhile]. change (isIdSeparator " ") with true. cbn iota.
  rewrite Hsep. cbn [fst String.length captureAfter JS.drop]. rewrite Hc.
  f_equal.
  exact (spanWhile_word (String c r) _ Hns).
Qed.

End WinGetCommands.

Section AdapterGuards.
Import Domain Proc Node Observe.
Context {W : Type} `{Sys W}.

(** X22. Homebrew is found by its file: when one of the three known paths
    exists, [isAvailable] answers yes without running any command. *)
Theorem homebrew_found_by_file (p : string) (s : State W) :
  In p HomebrewAdapter.brewPaths ->
  files s !! p <> None ->
  HomebrewAdapter.isAvailable s = (Ok true, s).
Proof.
  intros Hin Hp.
  unfold HomebrewAdapter.isAvailable, HomebrewAdapter.anyExists, HomebrewAdapter.brewPaths,
    existsSync, bind, gets, ret in *.
  destruct Hin as [<-|[<-|[<-|[]]]];
    repeat match goal with
           | |- context [files s !! ?q] => destruct (files s !! q) eqn:?; cbn [defined]
           end; try reflexivity; contradiction.
Qed.

(** X23. The WinGet adapter does not run the command of the catalog: it takes
    the package id out of it and runs the command it builds from the id
    (exact match, silent, agreements accepted). The install returns when
    that command succeeds and throws a plain [Error] with the translated
    message when it fails. *)
Theorem winget_install_runs_built_command (t : Tool) (c : ascii) (r packageId : string)
    (s : State W) (o : ExecOutcome) (w : W) :
  osOf s = windows ->
  result WinGetAdapter.isAvailable s = Ok true ->
  getInstallCommand t windows = Some (String c r) ->
  WinGetAdapter.extractPackageId (String c r) = Some packageId ->
  sys_exec (WinGetAdapter.buildInstallCommand packageId) None
           (world (after WinGetAdapter.isAvailable s)) = (o, w) ->
  result (WinGetAdapter.install t) s
  = match o with
    | ExecOk _ _ => Ok tt
    | ExecErr code out err _ =>
        Throw (mkError (WinGetAdapter.translateWinGetError
                          ("Comando falhou com exit code "
                           ++ ShellWrapper.zToString (ShellWrapper.codeOr1 code))
                          (ShellWrapper.codeOr1 code)
                          (ShellWrapper.trimOrEmpty out) (ShellWrapper.trimOrEmpty err) t))
    end
  /\ commandsOf (trace (after (WinGetAdapter.install t) s))
     = WinGetAdapter.buildInstallCommand packageId
       :: commandsOf (trace (after WinGetAdapter.isAvailable s)).
Proof.
  intros Hos Hav Hcmd Hid Hx.
  unfold result, after in *.
  destruct (WinGetAdapter.isAvailable s) as [ra s1] eqn:Ea. cbn [fst snd] in *. subst ra.
  assert (Hos1 : osOf s1 = windows).
  { pose proof (framed_winget_isAvailable notObject s) as Hst.
    unfold after in Hst. rewrite Ea in Hst. cbn [snd] in Hst.
    unfold osOf. now rewrite (steps_platform _ _ _ Hst). }
  destruct o as [out err|code out err msg].
  all: eassert (E : WinGetAdapter.install t s = _);
    [ unfold WinGetAdapter.install, bind at 1; rewrite Ea; cbn [negb];
      unfold bind at 1; rewrite getCurrentOS_eq, Hos1; cbn [os_eqb negb];
      rewrite Hcmd, Hid;
      unfold tryCatch, ShellWrapper.executeString;
      change (default false (_ ≫= ShellWrapper.verbose)) with true;
      change (default false (_ ≫= ShellWrapper.silent)) with false;
      change (Some _ ≫= ShellWrapper.cwd) with (@None string);
      unfold bind, log, emit, modify, execCommand, ret, throw;
      cbn [world setTrace trace]; rewrite Hx; reflexivity
    | rewrite E; cbn [fst snd trace setTrace setWorld]; split; reflexivity ].
Qed.

(** X24. A snap install on a machine without snap: the Linux installer throws
    the hint to install snapd after the one probe, before any elevation. *)
Theorem linux_snap_install_needs_snap (self : Adapter) (t : Tool) (c : ascii) (r : string)
    (s : State W) (o : ExecOutcome) (w : W) :
  osOf s = linux ->
  getInstallCommand t linux = Some (String c r) ->
  LinuxInstaller.detectInstallType (String c r) = LinuxInstaller.snap ->
  sys_exec "which snap" None (world s) = (o, w) -> succeeded o = false ->
  result (LinuxInstaller.install self t) s
  = Throw (mkError "Snap não está instalado. Execute: sudo apt install snapd")
  /\ commandsOf (trace (after (LinuxInstaller.install self t) s))
     = "which snap" :: commandsOf (trace s)
  /\ prompts (trace (after (LinuxInstaller.install self t) s)) = prompts (trace s).
Proof.
  intros Hos Hcmd Hty Hx Hf.
  destruct o as [out err|code out err msg]; [discriminate|].
  eassert (E : LinuxInstaller.install self t s = _).
  { unfold LinuxInstaller.install, bind at 1. rewrite getCurrentOS_eq, Hos.
    cbn [os_eqb negb]. rewrite Hcmd, Hty.
    unfold LinuxInstaller.installWithSnap, ShellWrapper.executeString.
    change (default false (LinuxInstaller.silentOptions ≫= ShellWrapper.silent)) with true.
    change (default false (LinuxInstaller.silentOptions ≫= ShellWrapper.verbose)) with false.
    change (LinuxInstaller.silentOptions ≫= ShellWrapper.cwd) with (@None string).
    unfold bind, execCommand, ret, throw. cbn [world]. rewrite Hx.
    cbn [ShellWrapper.exitCode].
    rewrite (proj2 (Z.eqb_neq _ _) (codeOr1_nonzero code)).
    cbn [negb]. reflexivity. }
  unfold result, after. rewrite E. cbn [fst snd trace setTrace].
  repeat split.
Qed.

End AdapterGuards.

(** ** More on the orchestrator *)

Section OrchestratorMore.
Import Domain Proc Node Observe InstallationService.
Context {W : Type} `{Sys W}.

Lemma checkInstalled_eq (t : Tool) (s : State W) (o : ExecOutcome) (w : W) :
  sys_exec (checkCommand t) None (world s) = (o, w) ->
  checkInstalled t s
  = (Ok (succeeded o), setTrace (EvExec (checkCommand t) :: trace s) (setWorld w s)).
Proof.
  intros Hx. unfold checkInstalled, tryCatch, ShellWrapper.executeString.
  change (default false (_ ≫= ShellWrapper.verbose)) with false.
  change (default false (_ ≫= ShellWrapper.silent)) with true.
  change (Some _ ≫= ShellWrapper.cwd) with (@None string).
  unfold bind, execCommand, ret. rewrite Hx.
  destruct o as [out err|code out err msg]; cbn [ShellWrapper.exitCode succeeded].
  - reflexivity.
  - now rewrite (proj2 (Z.eqb_neq _ _) (codeOr1_nonzero code)).
Qed.

(** X25. [getPackageManager] writes its cache exactly when it returns: from a
    service with no adapter cached, a call that returns an adapter has
    cached that adapter, and a call that throws has cached nothing, so the
    next call resolves again. *)
Theorem getPackageManager_caches_only_on_success (s : State W) :
  packageManager s = None ->
  match result getPackageManager s with
  | Ok pm => packageManager (after getPackageManager s) = Some pm
  | Throw _ => packageManager (after getPackageManager s) = None
  end.
Proof.
  intros Hnone.
  pose (P := fun s : State W => packageManager s = None).
  pose (Q := fun (pm : Adapter) (s' : State W) => packageManager s' = Some pm).
  assert (Ht : triple P getPackageManager
                 Q
                 P).
  { assert (Hf : forall {A} (m : M W A), framed notObject m ->
                   triple P m
                          (fun _ => P)
                          P).
    { intros A m Hm s0 Hs0. pose proof (steps_pm _ _ _ (Hm s0)) as Hpm.
      unfold after in Hpm. destruct (m s0) as [[a|e] s']; cbn [snd] in Hpm; congruence. }
    assert (Hnew : forall c, triple P (newAdapter c)
                     (fun _ => P)
                     P).
    { intros c s0 Hs0. unfold newAdapter. destruct c; exact Hs0. }
    assert (Hcache : forall a, triple P (cache a)
                       Q
                       P).
    { intros a s0 _. reflexivity. }
    pose proof (framed_brew_isAvailable notObject).
    pose proof (framed_brewInstaller_install notObject).
    pose proof (framed_winget_isAvailable notObject).
    unfold getPackageManager, LinuxInstaller.isAvailable.
    eapply (triple_bind _ (fun (c : option Adapter) (s' : State W) => c = None /\ P s')).
    { intros s0 Hs0. unfold gets. now split. }
    intros cached. destruct cached as [pm|].
    { intros s0 [Hc _]. discriminate. }
    eapply (triple_bind _ (fun _ => P)).
    { intros s0 [_ Hs0]. exact Hs0. }
    intros os.
    assert (Hstep : forall {A B} (m : M W A) (k : A -> M W B) Q',
               triple P m
                      (fun _ => P)
                      P ->
               (forall a, triple P (k a) Q'
                                 P) ->
               triple P (bind m k) Q'
                      P).
    { intros A B m k Q' Hm Hk. eapply triple_bind; [exact Hm | exact Hk]. }
    assert (Hthrow : forall (e : Exn),
               triple P (throw e : M W Adapter)
                      Q
                      P).
    { intros e s0 Hs0. exact Hs0. }
    destruct os;
      repeat first
        [ apply Hcache
        | apply Hthrow
        | apply Hstep; [first [apply Hnew | apply Hf; solve [eauto with framed]]|intros ?]
        | match goal with |- triple _ (if ?b then _ else _) _ _ => destruct b end ]. }
  specialize (Ht s Hnone). unfold result, after.
  destruct (getPackageManager s) as [[pm|e] s']; exact Ht.
Qed.

(** X26. On Windows without WinGet a tool that is not installed cannot be
    installed: [installTool] reports the failure with the reason, after the
    check command and the one probe of WinGet, and caches no adapter. *)
Theorem install_without_winget (t : Tool) (sp : bool) (s : State W)
    (o1 o2 : ExecOutcome) (w1 w2 : W) :
  osOf s = windows -> packageManager s = None ->
  sys_exec (checkCommand t) None (world s) = (o1, w1) -> succeeded o1 = false ->
  sys_exec "winget --version" None w1 = (o2, w2) -> succeeded o2 = false ->
  result (installTool t sp) s
  = Ok {| tool := t; success := false; alreadyInstalled := false;
          message := "Não foi possível instalar " ++ name t;
          error := Some "WinGet não está disponível no sistema" |}
  /\ packageManager (after (installTool t sp) s) = None
  /\ commandsOf (trace (after (installTool t sp) s))
     = "winget --version" :: checkCommand t :: commandsOf (trace s).
Proof.
  intros Hos Hpm Hx1 Hf1 Hx2 Hf2.
  destruct o1 as [|c1 a1 b1 m1]; [discriminate|].
  destruct o2 as [|c2 a2 b2 m2]; [discriminate|].
  eassert (E : installTool t sp s = _).
  { unfold installTool, bind at 1, now, gets.
    unfold bind at 1. rewrite (checkInstalled_eq t s _ _ Hx1). cbn [succeeded].
    unfold bind at 1, tryCatch, bind at 1, getPackageManager, bind at 1, gets.
    cbn [packageManager setTrace setWorld]. rewrite Hpm.
    unfold bind at 1. rewrite getCurrentOS_eq, osOf_setTrace, osOf_setWorld, Hos.
    unfold bind at 1, newAdapter.
    unfold bind at 1, WinGetAdapter.isAvailable, bind at 1.
    rewrite getCurrentOS_eq. change (osOf (setNextId _ _)) with (osOf s).
    rewrite Hos. cbn [os_eqb negb].
    unfold tryCatch, ShellWrapper.executeString.
    change (default false (_ ≫= ShellWrapper.verbose)) with false.
    change (default false (_ ≫= ShellWrapper.silent)) with true.
    change (Some _ ≫= ShellWrapper.cwd) with (@None string).
    change (WinGetAdapter.wingetCommand ++ " --version") with "winget --version".
    unfold bind, execCommand, ret, throw.
    cbn [world setTrace setWorld setNextId]. rewrite Hx2.
    cbn [ShellWrapper.exitCode].
    rewrite (proj2 (Z.eqb_neq _ _) (codeOr1_nonzero c2)). cbn [andb].
    reflexivity. }
  unfold result, after. rewrite E.
  cbn [fst snd packageManager trace setTrace setWorld setNextId exnMessage mkError].
  repeat split; assumption.
Qed.

Lemma refresh_body_eq (os : OperatingSystem) (p : string) (s : State W) :
  os <> windows ->
  bind (envIsInPath os p)
       (fun present => if negb present then envRefreshProcessPath os p else ret tt) s
  = (Ok tt, after (UnixEnvironmentManager.refreshProcessPath p) s).
Proof.
  intros Hos. rewrite unix_refreshProcessPath_eq.
  assert (E : envIsInPath (W := W) os p = UnixEnvironmentManager.isInPath p
              /\ envRefreshProcessPath (W := W) os p
                 = UnixEnvironmentManager.refreshProcessPath p)
    by (destruct os; [split; reflexivity | contradiction | split; reflexivity]).
  destruct E as [-> ->].
  unfold bind. rewrite unix_isInPath_spec.
  destruct (JS.arrIncludes (JS.split ":" (livePath s)) p) eqn:E; cbn [negb]; [reflexivity|].
  unfold UnixEnvironmentManager.refreshProcessPath, bind, envOrEmpty, gets, setEnvVar,
    modify, ret.
  fold (livePath s). now rewrite E.
Qed.

Lemma refresh_all_spec (os : OperatingSystem) (l : list string) (s : State W) :
  os <> windows ->
  Forall (fun p => lacks ":" p = true) l ->
  let s' := after (forEach l (fun path =>
                     bind (envIsInPath os path)
                          (fun present => if negb present
                                          then envRefreshProcessPath os path
                                          else ret tt))) s in
  (forall p, In p l -> JS.arrIncludes (JS.split ":" (livePath s')) p = true)
  /\ (forall q, JS.arrIncludes (JS.split ":" (livePath s)) q = true ->
                JS.arrIncludes (JS.split ":" (livePath s')) q = true)
  /\ files s' = files s /\ trace s' = trace s.
Proof.
  intros Hos Hl. revert s. induction Hl as [|p l Hp Hl IH]; intros s; cbv zeta.
  - cbn. repeat split; [intros p []|auto].
  - match goal with
    | |- context [after (forEach (p :: l) ?body) s] =>
        assert (E : after (forEach (p :: l) body) s
                    = after (forEach l body)
                            (after (UnixEnvironmentManager.refreshProcessPath p) s))
    end.
    { unfold after. cbn [forEach]. unfold bind at 1.
      now rewrite (refresh_body_eq os p s Hos). }
    rewrite E.
    destruct (unix_refresh_adds_and_keeps p s Hp) as (Hadd & Hkeep & _).
    unfold result in Hadd, Hkeep. rewrite !unix_isInPath_spec in Hadd. cbn [fst] in Hadd.
    injection Hadd as Hadd.
    specialize (IH (after (UnixEnvironmentManager.refreshProcessPath p) s)).
    cbv zeta in IH. destruct IH as (IHin & IHkeep & IHf & IHt).
    repeat split.
    + intros q [<-|Hq]; [now apply IHkeep | now apply IHin].
    + intros q Hq. apply IHkeep.
      specialize (Hkeep q). rewrite !unix_isInPath_spec in Hkeep. cbn [fst] in Hkeep.
      rewrite Hq in Hkeep. specialize (Hkeep eq_refl). now injection Hkeep.
    + rewrite IHf, unix_refreshProcessPath_eq.
      now destruct (JS.arrIncludes (JS.split ":" (livePath s)) p).
    + rewrite IHt, unix_refreshProcessPath_eq.
      now destruct (JS.arrIncludes (JS.split ":" (livePath s)) p).
Qed.

(** X27. After an install the common directories of the platform are in the
    live PATH: on macOS and Linux [isInPath] is true for each of them after
    [refreshPathAfterInstall], what was in the live PATH still is, and no
    file is written and no command run; on Windows nothing changes. *)
Theorem refreshPathAfterInstall_adds_common_paths (s : State W) :
  (osOf s = windows -> after refreshPathAfterInstall s = s)
  /\ (osOf s <> windows ->
      (forall p, In p (commonPaths (osOf s)) ->
         result (UnixEnvironmentManager.isInPath p) (after refreshPathAfterInstall s)
         = Ok true)
      /\ (forall q, result (UnixEnvironmentManager.isInPath q) s = Ok true ->
            result (UnixEnvironmentManager.isInPath q) (after refreshPathAfterInstall s)
            = Ok true)
      /\ files (after refreshPathAfterInstall s) = files s
      /\ trace (after refreshPathAfterInstall s) = trace s).
Proof.
  assert (E : after refreshPathAfterInstall s
              = after (forEach (commonPaths (osOf s)) (fun path =>
                         bind (envIsInPath (osOf s) path)
                              (fun present => if negb present
                                              then envRefreshProcessPath (osOf s) path
                                              else ret tt))) s).
  { unfold after, refreshPathAfterInstall, bind at 1. now rewrite getCurrentOS_eq. }
  split.
  - intros Hos. rewrite E, Hos. reflexivity.
  - intros Hos. rewrite E.
    assert (Hl : Forall (fun p => lacks ":" p = true) (commonPaths (osOf s))).
    { destruct (osOf s); repeat constructor. }
    destruct (refresh_all_spec (osOf s) _ s Hos Hl) as (Hin & Hkeep & Hf & Ht).
    repeat split; try assumption.
    + intros p Hp. unfold result. rewrite unix_isInPath_spec. cbn [fst].
      now rewrite (Hin p Hp).
    + intros q. unfold result. rewrite !unix_isInPath_spec. cbn [fst].
      intros [= Hq]. now rewrite (Hkeep q Hq).
Qed.

End OrchestratorMore.

(** ** The health check *)

Section HealthCheck.
Import Domain Proc Node Observe HealthCheckService.
Context {W : Type} `{Sys W}.

Lemma total_executeString_silent c :
  total (ShellWrapper.executeString c silentOptions : M W _).
Proof.
  unfold ShellWrapper.executeString.
  change (default false (silentOptions ≫= ShellWrapper.verbose)) with false.
  change (default false (silentOptions ≫= ShellWrapper.silent)) with true.
  pose proof (total_log (W := W)). total_auto.
Qed.

Lemma highSurrogate_length (b0 b1 b2 : ascii) :
  JS.length (JS.highSurrogate b0 b1 b2) = 1%nat.
Proof.
  unfold JS.highSurrogate.
  set (top := (_ mod 1024)%nat).
  assert (Ht : (top < 1024)%nat) by (apply Nat.mod_upper_bound; lia).
  assert (Hq : (top / 64 < 16)%nat) by (apply Nat.Div0.div_lt_upper_bound; lia).
  assert (Hr : (top mod 64 < 64)%nat) by (apply Nat.mod_upper_bound; lia).
  assert (E1 : JS.isContinuation (ascii_of_nat (160 + top / 64)) = true).
  { unfold JS.isContinuation. rewrite nat_ascii_embedding by lia.
    apply andb_true_iff. split; [apply Nat.leb_le | apply Nat.ltb_lt]; lia. }
  assert (E2 : JS.isContinuation (ascii_of_nat (128 + top mod 64)) = true).
  { unfold JS.isContinuation. rewrite nat_ascii_embedding by lia.
    apply andb_true_iff. split; [apply Nat.leb_le | apply Nat.ltb_lt]; lia. }
  cbn [JS.length]. rewrite E1, E2. reflexivity.
Qed.

(** [substring(0, n)] has at most [n] code units. *)
Lemma substring_length (n : nat) (s : string) : (JS.length (JS.substring n s) <= n)%nat.
Proof.
  revert n. induction s as [|c s IH]; intros n; cbn [JS.substring JS.length]; [lia|].
  destruct (JS.isContinuation c) eqn:Ec.
  - cbn [JS.length]. rewrite Ec. apply IH.
  - destruct n as [|n]; [cbn; lia|].
    destruct (JS.isLead4 c) eqn:E4.
    + destruct n as [|n].
      * destruct s as [|b1 [|b2 s]]; cbn [JS.length]; try lia.
        rewrite highSurrogate_length. lia.
      * cbn [JS.length]. rewrite Ec, E4. specialize (IH n). lia.
    + cbn [JS.length]. rewrite Ec, E4. specialize (IH n). lia.
Qed.

Lemma wp_firstVersion (l : list string) (Q : Res (option string) -> State W -> Prop) s :
  (forall v s', (forall x, v = Some x -> (JS.length x <= 50)%nat) -> Q (Ok v) s') ->
  wp (firstVersion l) Q s.
Proof.
  intros HQ. revert s. induction l as [|c l IH]; intros s; cbn [firstVersion].
  - apply wp_ret, HQ. discriminate.
  - apply wp_bind, wp_total; [apply total_executeString_silent|].
    intros r s'. destruct (_ && _).
    + apply wp_ret, HQ. intros x [= <-].
      exact (substring_length 50 (firstLine (JS.trim (ShellWrapper.stdout r)))).
    + apply IH.
Qed.

(** X28. A tool whose check command fails is reported as not installed, and
    the health check runs nothing else for it: no lookup of the binary, no
    version command. *)
Theorem checkTool_of_missing_tool (t : Tool) (s : State W) (o : ExecOutcome) (w : W) :
  sys_exec (checkCommand t) None (world s) = (o, w) -> succeeded o = false ->
  checkTool t s
  = (Ok {| tool := t; isInstalled := false; binaryPath := None; version := None;
           message := "Não instalado ou não encontrado no PATH" |},
     setTrace (EvExec (checkCommand t) :: trace s) (setWorld w s)).
Proof.
  intros Hx Hf. unfold checkTool, bind.
  rewrite (checkInstalled_eq t s o w Hx), Hf. reflexivity.
Qed.

Lemma checkTool_returns (t : Tool) (s : State W) :
  exists r, result (checkTool t) s = Ok r
            /\ tool r = t
            /\ (isInstalled r = false -> binaryPath r = None /\ version r = None)
            /\ (forall v, version r = Some v -> (JS.length v <= 50)%nat).
Proof.
  change (wp (checkTool t)
            (fun r _ => exists res, r = Ok res /\ tool res = t
               /\ (isInstalled res = false -> binaryPath res = None /\ version res = None)
               /\ (forall v, version res = Some v -> (JS.length v <= 50)%nat)) s).
  unfold checkTool.
  apply wp_bind, wp_total; [apply total_checkInstalled|].
  intros installed s1. destruct installed; cbn [negb].
  - apply wp_bind, wp_tryCatch, wp_bind, wp_gets.
    apply wp_bind, wp_total; [apply total_executeString_silent|].
    intros pathResult s2.
    apply wp_bind, wp_tryCatch, wp_firstVersion.
    intros v s3 Hv. apply wp_ret, wp_ret.
    eexists. split; [reflexivity|]. cbn [tool isInstalled version snd].
    repeat split; try discriminate. exact Hv.
  - apply wp_ret. eexists. split; [reflexivity|]. cbn.
    repeat split; discriminate.
Qed.

(** X29. The health check of a batch never throws and gives one report per
    tool, in the order of the tools; a tool reported as not installed has
    neither a path nor a version, and the [length] of a version is at most
    50 (UTF-16 code units, as [substring(0, 50)] cuts). *)
Theorem checkTools_reports_every_tool (ts : list Tool) (s : State W) :
  exists rs, result (checkTools ts) s = Ok rs
             /\ map tool rs = ts
             /\ Forall (fun r =>
                          (isInstalled r = false -> binaryPath r = None /\ version r = None)
                          /\ (forall v, version r = Some v -> (JS.length v <= 50)%nat))
                       rs.
Proof.
  revert s. induction ts as [|t ts IH]; intros s.
  - exists []. repeat split. constructor.
  - destruct (checkTool_returns t s) as (r & Hr & Ht & Hn & Hv).
    unfold result in *. cbn [checkTools]. unfold bind at 1.
    destruct (checkTool t s) as [r0 s1]. cbn [fst] in Hr. subst r0.
    destruct (IH s1) as (rs & Hrs & Hts & Hall).
    unfold bind. destruct (checkTools ts s1) as [r1 s2]. cbn [fst] in Hrs. subst r1.
    exists (r :: rs). cbn [fst map]. split; [reflexivity|]. split.
    + now rewrite Ht, Hts.
    + constructor; [split; assumption | exact Hall].
Qed.

End HealthCheck.

(** ** The command given to APT *)

Section AptCommand.
Import Domain Proc Node Observe.

Lemma startsWith_nil (s : string) : JS.startsWith s EmptyString = true.
Proof. now destruct s. Qed.

Lemma startsWith_cons (c d : ascii) (s p : string) :
  JS.startsWith (String c s) (String d p) = Ascii.eqb d c && JS.startsWith s p.
Proof. cbn [JS.startsWith]. now destruct (Ascii.eqb d c). Qed.

Lemma includes_cons (c : ascii) (s p : string) :
  JS.includes (String c s) p = JS.startsWith (String c s) p || JS.includes s p.
Proof. rewrite includes_unfold. now destruct (JS.startsWith (String c s) p). Qed.

Lemma includes_nil (p : string) : JS.includes EmptyString p = JS.startsWith EmptyString p.
Proof. rewrite includes_unfold. now destruct (JS.startsWith EmptyString p). Qed.

(** A word that starts [a] followed by white space starts [a]. *)
Lemma startsWith_before_space (a b p : string) (ws : ascii) :
  JS.isSpace ws = true -> noSpaces p = true ->
  JS.startsWith (a ++ String ws b) p = true -> JS.startsWith a p = true.
Proof.
  intros Hws. unfold noSpaces. revert p.
  induction a as [|c a IH]; intros [|d p] Hp Hs; try apply startsWith_nil.
  - change (EmptyString ++ String ws b) with (String ws b) in Hs.
    rewrite startsWith_cons in Hs.
    cbn [allChars] in Hp. apply andb_true_iff in Hp as [Hd _].
    apply andb_true_iff in Hs as [He _]. apply Ascii.eqb_eq in He. subst d.
    rewrite Hws in Hd. discriminate.
  - change (String c a ++ String ws b) with (String c (a ++ String ws b)) in Hs.
    rewrite startsWith_cons in *. apply andb_true_iff in Hs as [He Hs].
    cbn [allChars] in Hp. apply andb_true_iff in Hp as [_ Hp].
    rewrite He. cbn [andb]. now apply IH.
Qed.

Lemma startsWith_app_r (a b p : string) :
  JS.startsWith a p = true -> JS.startsWith (a ++ b) p = true.
Proof.
  revert p. induction a as [|c a IH]; intros [|d p] Hs; try apply startsWith_nil.
  - cbn in Hs. discriminate.
  - change (String c a ++ b) with (String c (a ++ b)).
    rewrite startsWith_cons in *. apply andb_true_iff in Hs as [He Hs].
    rewrite He. cbn [andb]. now apply IH.
Qed.

Lemma includes_app_r (a b p : string) :
  JS.includes a p = true -> JS.includes (a ++ b) p = true.
Proof.
  induction a as [|c a IH]; intros Hi.
  - rewrite includes_nil in Hi. destruct p; [|discriminate].
    rewrite includes_unfold. now rewrite startsWith_nil.
  - change (String c a ++ b) with (String c (a ++ b)).
    rewrite includes_cons in *. apply orb_true_iff in Hi as [Hs|Hi].
    + change (String c (a ++ b)) with (String c a ++ b).
      now rewrite (startsWith_app_r _ b _ Hs).
    + rewrite (IH Hi). apply orb_true_r.
Qed.

Lemma includes_app_l (a b p : string) :
  JS.includes b p = true -> JS.includes (a ++ b) p = true.
Proof.
  induction a as [|c a IH]; intros Hi; [exact Hi|].
  change (String c a ++ b) with (String c (a ++ b)).
  rewrite includes_cons, (IH Hi). apply orb_true_r.
Qed.

(** A word inside [a], white space, [b] is inside [a] or inside [b]. *)
Lemma includes_around_space (a b p : string) (ws : ascii) :
  JS.isSpace ws = true -> noSpaces p = true ->
  JS.includes (a ++ String ws b) p = true ->
  JS.includes a p = true \/ JS.includes b p = true.
Proof.
  intros Hws Hp. induction a as [|c a IH]; intros Hi.
  - change (EmptyString ++ String ws b) with (String ws b) in Hi.
    rewrite includes_cons in Hi.
    apply orb_true_iff in Hi as [Hs|Hi]; [|now right].
    left. rewrite includes_nil.
    exact (startsWith_before_space EmptyString b p ws Hws Hp Hs).
  - change (String c a ++ String ws b) with (String c (a ++ String ws b)) in Hi.
    rewrite includes_cons in Hi. apply orb_true_iff in Hi as [Hs|Hi].
    + left. rewrite includes_cons.
      now rewrite (startsWith_before_space (String c a) b p ws Hws Hp Hs).
    + destruct (IH Hi) as [Ha|Hb]; [left | now right].
      rewrite includes_cons, Ha. apply orb_true_r.
Qed.

Lemma append_assoc_str (a b c : string) : (a ++ b) ++ c = a ++ (b ++ c).
Proof.
  induction a as [|x a IH]; [reflexivity|].
  change ((String x a ++ b) ++ c) with (String x ((a ++ b) ++ c)). now rewrite IH.
Qed.

Lemma startsWith_split (s p : string) :
  JS.startsWith s p = true -> s = p ++ JS.drop (String.length p) s.
Proof.
  revert s. induction p as [|d p IH]; intros s Hs; [reflexivity|].
  destruct s as [|c s]; [discriminate|].
  rewrite startsWith_cons in Hs. apply andb_true_iff in Hs as [He Hs].
  apply Ascii.eqb_eq in He. subst d.
  change (String c p ++ JS.drop (String.length (String c p)) (String c s))
    with (String c (p ++ JS.drop (String.length p) s)).
  now rewrite <- (IH s Hs).
Qed.

Lemma spanSpaces_spec (s : string) :
  s = fst (JS.spanSpaces s) ++ snd (JS.spanSpaces s)
  /\ allChars JS.isSpace (fst (JS.spanSpaces s)) = true.
Proof.
  induction s as [|c s [IH1 IH2]]; [split; reflexivity|].
  cbn [JS.spanSpaces]. destruct (JS.isSpace c) eqn:E; [|split; reflexivity].
  destruct (JS.spanSpaces s) as [w r]. cbn [fst snd] in *. split.
  - change (String c w ++ r) with (String c (w ++ r)). now rewrite <- IH1.
  - cbn [allChars]. now rewrite E, IH2.
Qed.

Lemma take_drop (n : nat) (s : string) : JS.take n s ++ JS.drop n s = s.
Proof.
  revert s. induction n as [|n IH]; intros [|c s]; try reflexivity.
  cbn [JS.take JS.drop].
  change (String c (JS.take n s) ++ JS.drop n s)
    with (String c (JS.take n s ++ JS.drop n s)).
  now rewrite IH.
Qed.

Lemma allChars_take f (n : nat) (s : string) :
  allChars f s = true -> allChars f (JS.take n s) = true.
Proof.
  revert s. induction n as [|n IH]; intros [|c s] Hs; try reflexivity.
  cbn [JS.take allChars] in *. apply andb_true_iff in Hs as [Hc Hs].
  now rewrite Hc, (IH s Hs).
Qed.

Lemma ends_with_space (w : string) :
  w <> EmptyString -> allChars JS.isSpace w = true ->
  exists a ws, w = a ++ String ws EmptyString /\ JS.isSpace ws = true.
Proof.
  induction w as [|c w IH]; intros Hne Hw; [contradiction|].
  cbn [allChars] in Hw. apply andb_true_iff in Hw as [Hc Hw].
  destruct w as [|d w].
  - exists EmptyString, c. split; [reflexivity | exact Hc].
  - destruct (IH ltac:(discriminate) Hw) as (a & ws & Ha & Hws).
    exists (String c a), ws. split; [|exact Hws].
    change (String c a ++ String ws EmptyString) with (String c (a ++ String ws EmptyString)).
    now rewrite <- Ha.
Qed.

(** What a match of [(install\s+)([^-])] looks like: the first group ends
    with white space, and the groups and the rest make up the string. *)
Lemma matchInstallHere_shape (s g1 g2 rest : string) :
  JS.matchInstallHere s = Some (g1, g2, rest) ->
  s = g1 ++ g2 ++ rest
  /\ exists a ws, g1 = a ++ String ws EmptyString /\ JS.isSpace ws = true.
Proof.
  unfold JS.matchInstallHere.
  destruct (JS.startsWith s "install") eqn:Es; [|discriminate].
  pose proof (startsWith_split _ _ Es) as Hs.
  change (String.length "install") with 7%nat in Hs.
  destruct (spanSpaces_spec (JS.drop 7 s)) as [Hw Hall].
  destruct (JS.spanSpaces (JS.drop 7 s)) as [w r]. cbn [fst snd] in *.
  destruct w as [|w0 w]; [discriminate|].
  assert (Hlate : forall n, String.length (String w0 w) = S (S n) ->
            s = ("install" ++ JS.take (S n) (String w0 w))
                ++ JS.drop (S n) (String w0 w) ++ r
            /\ exists a ws, "install" ++ JS.take (S n) (String w0 w)
                            = a ++ String ws EmptyString /\ JS.isSpace ws = true).
  { intros n Hn. split.
    - rewrite append_assoc_str, <- (append_assoc_str (JS.take _ _)), take_drop.
      now rewrite <- Hw.
    - destruct (ends_with_space (JS.take (S n) (String w0 w)) ltac:(discriminate)
                  (allChars_take _ _ _ Hall)) as (a & ws & Ha & Hws).
      exists ("install" ++ a), ws. split; [|exact Hws].
      now rewrite Ha, append_assoc_str. }
  destruct r as [|c r'].
  - destruct (String.length (String w0 w)) as [|[|n]] eqn:El; try discriminate.
    intros [= <- <- <-]. exact (Hlate n eq_refl).
  - destruct (Ascii.eqb c "-") eqn:Ec.
    + destruct (String.length (String w0 w)) as [|[|n]] eqn:El; try discriminate.
      intros [= <- <- <-]. exact (Hlate n eq_refl).
    + intros [= <- <- <-]. split.
      * rewrite append_assoc_str.
        change (String c EmptyString ++ r') with (String c r'). now rewrite <- Hw.
      * destruct (ends_with_space (String w0 w) ltac:(discriminate) Hall)
          as (a & ws & Ha & Hws).
        exists ("install" ++ a), ws. split; [|exact Hws].
        now rewrite Ha, append_assoc_str.
Qed.

Lemma insertYesFlag_unfold (s : string) :
  JS.insertYesFlag s
  = match JS.matchInstallHere s with
    | Some (g1, g2, rest) => g1 ++ "-y " ++ g2 ++ rest
    | None => match s with
              | EmptyString => EmptyString
              | String c s' => String c (JS.insertYesFlag s')
              end
    end.
Proof. destruct s; reflexivity. Qed.

Lemma insertYesFlag_keeps_prefix (s p : string) :
  noSpaces p = true -> JS.startsWith s p = true ->
  JS.startsWith (JS.insertYesFlag s) p = true.
Proof.
  revert p. induction s as [|c s IH]; intros p Hp Hs; rewrite insertYesFlag_unfold.
  - destruct (JS.matchInstallHere EmptyString) as [[[g1 g2] rest]|] eqn:E; [|exact Hs].
    discriminate.
  - destruct (JS.matchInstallHere (String c s)) as [[[g1 g2] rest]|] eqn:E.
    + destruct (matchInstallHere_shape _ _ _ _ E) as [Hsplit (a & ws & -> & Hws)].
      rewrite Hsplit, append_assoc_str in Hs.
      change (String ws EmptyString ++ g2 ++ rest) with (String ws (g2 ++ rest)) in Hs.
      pose proof (startsWith_before_space _ _ _ _ Hws Hp Hs) as Ha.
      rewrite append_assoc_str. now apply startsWith_app_r.
    + destruct p as [|d p]; [reflexivity|].
      rewrite startsWith_cons in *. apply andb_true_iff in Hs as [He Hs].
      unfold noSpaces in Hp. cbn [allChars] in Hp. apply andb_true_iff in Hp as [_ Hp].
      rewrite He. cbn [andb]. now apply IH.
Qed.

Lemma insertYesFlag_keeps_word (s p : string) :
  noSpaces p = true -> JS.includes s p = true ->
  JS.includes (JS.insertYesFlag s) p = true.
Proof.
  intros Hp. induction s as [|c s IH]; intros Hi; rewrite insertYesFlag_unfold.
  - destruct (JS.matchInstallHere EmptyString) as [[[g1 g2] rest]|] eqn:E; [|exact Hi].
    discriminate.
  - destruct (JS.matchInstallHere (String c s)) as [[[g1 g2] rest]|] eqn:E.
    + destruct (matchInstallHere_shape _ _ _ _ E) as [Hsplit (a & ws & -> & Hws)].
      rewrite Hsplit, append_assoc_str in Hi.
      change (String ws EmptyString ++ g2 ++ rest) with (String ws (g2 ++ rest)) in Hi.
      rewrite append_assoc_str.
      destruct (includes_around_space _ _ _ _ Hws Hp Hi) as [Ha|Hb].
      * now apply includes_app_r.
      * apply includes_app_l.
        change (String ws EmptyString ++ "-y " ++ g2 ++ rest)
          with (String ws ("-y " ++ g2 ++ rest)).
        rewrite includes_cons.
        rewrite (includes_app_l "-y " _ _ Hb). apply orb_true_r.
    + rewrite includes_cons in *. apply orb_true_iff in Hi as [Hs|Hi].
      * change (String c (JS.insertYesFlag s)) with (String c (JS.insertYesFlag s)).
        assert (Hpre : JS.startsWith (JS.insertYesFlag (String c s)) p = true)
          by now apply insertYesFlag_keeps_prefix.
        rewrite insertYesFlag_unfold, E in Hpre. now rewrite Hpre.
      * rewrite (IH Hi). apply orb_true_r.
Qed.

(** X30. Whatever the install command of the tool is, the command that
    [installWithApt] hands to [SudoExecutor.exec] sets
    [DEBIAN_FRONTEND=noninteractive]. *)
Theorem apt_command_is_noninteractive (command : string) :
  JS.includes (LinuxInstaller.aptCleanCommand command) "DEBIAN_FRONTEND=noninteractive"
  = true.
Proof.
  unfold LinuxInstaller.aptCleanCommand.
  set (c1 := JS.stripLeadingSudo command).
  assert (H2 : JS.includes
                 (if negb (JS.includes c1 "DEBIAN_FRONTEND=noninteractive")
                  then "DEBIAN_FRONTEND=noninteractive " ++ c1 else c1)
                 "DEBIAN_FRONTEND=noninteractive" = true).
  { destruct (JS.includes c1 "DEBIAN_FRONTEND=noninteractive") eqn:E; cbn [negb];
      [exact E|].
    exact (includes_app EmptyString "DEBIAN_FRONTEND=noninteractive" (String " " c1)). }
  destruct (negb (JS.includes _ " -y ") && negb (JS.includes _ " -y")); [|exact H2].
  apply insertYesFlag_keeps_word; [reflexivity | exact H2].
Qed.

End AptCommand.

(** ** The properties above on the sample machines *)

Section SampleRuns.
Import Domain Proc Node Observe Environment Scenario.

Lemma filtered_categories_are_nonempty_witness :
  In (withTools sampleCategory [git]) (filterCategoriesByOS [sampleCategory] windows)
  /\ tools (withTools sampleCategory [git]) <> [].
Proof.
  assert (Hin : In (withTools sampleCategory [git])
                   (filterCategoriesByOS [sampleCategory] windows))
    by (left; reflexivity).
  split; [exact Hin|].
  exact (proj1 (filtered_categories_are_nonempty [sampleCategory] windows _ Hin)).
Defined.

Lemma processCategorySelection_within_category_witness :
  exists t, In t (tools sampleCategory) /\ id t = "git".
Proof.
  apply (processCategorySelection_within_category sampleCategory ["git"; "unknown"] "git").
  left. reflexivity.
Defined.

Lemma executeString_silent_never_throws_witness :
  exists r,
    result (ShellWrapper.executeString (H := machineSys) "command -v git"
              HealthCheckService.silentOptions) gitInstalled = Ok r
    /\ ShellWrapper.command r = "command -v git".
Proof.
  destruct (executeString_silent_never_throws (H := machineSys) "command -v git"
              HealthCheckService.silentOptions gitInstalled eq_refl)
    as (r & Hr & Hc & _).
  exists r. split; assumption.
Defined.

Lemma executeString_throws_nonzero_exit_code_witness :
  exists message code out err,
    ShellError "Comando falhou com exit code 1" 1 "false" "" ""
    = ShellError message code "false" out err /\ code <> 0%Z.
Proof.
  apply (executeString_throws_nonzero_exit_code (H := machineSys) "false" None bashSession).
  reflexivity.
Defined.

Lemma sudo_exec_runs_directly_witness :
  trace (after (SudoExecutor.exec (H := machineSys) "apt-get update") rootSession)
  = EvExec "apt-get update" :: trace rootSession.
Proof.
  apply (sudo_exec_runs_directly (H := machineSys) "apt-get update" rootSession).
  right. reflexivity.
Defined.

Lemma sudo_exec_with_valid_timestamp_witness :
  trace (after (SudoExecutor.exec (H := machineSys) "apt-get update") sudoReady)
  = EvExec "sudo apt-get update" :: EvExec "sudo -n true" :: trace sudoReady.
Proof.
  apply (sudo_exec_with_valid_timestamp (H := machineSys) "apt-get update" sudoReady
           EmptyString EmptyString (world sudoReady)).
  - discriminate.
  - discriminate.
  - reflexivity.
Defined.

Lemma sudo_exec_refused_runs_nothing_witness :
  commandsOf (trace (after (SudoExecutor.exec (H := machineSys) "apt-get update")
                           refusingUser))
  = ["sudo -n true"; "sudo -n true"].
Proof.
  apply (sudo_exec_refused_runs_nothing (H := machineSys) "apt-get update" refusingUser
           failed failed (world refusingUser) (world refusingUser) (world refusingUser)
           (Some false)).
  - discriminate.
  - discriminate.
  - reflexivity.
  - reflexivity.
  - reflexivity.
  - reflexivity.
  - reflexivity.
  - reflexivity.
Defined.

Lemma windows_asks_for_consent_every_time_witness :
  prompts (trace (after (SudoExecutor.requestPrivileges (H := machineSys))
                        (after (SudoExecutor.requestPrivileges (H := machineSys))
                               (windowsWith []))))
  = S (prompts (trace (after (SudoExecutor.requestPrivileges (H := machineSys))
                             (windowsWith [])))).
Proof.
  apply (windows_asks_for_consent_every_time (H := machineSys)
           (after (SudoExecutor.requestPrivileges (H := machineSys)) (windowsWith []))
           failed (world (windowsWith [])) (world (windowsWith [])) (Some true)).
  - reflexivity.
  - reflexivity.
  - reflexivity.
  - reflexivity.
Defined.

Lemma unix_refreshed_path_is_in_path_witness :
  result (UnixEnvironmentManager.isInPath (W := Machine) "/snap/bin")
         (after (UnixEnvironmentManager.refreshProcessPath "/snap/bin") bashSession)
  = Ok true.
Proof.
  exact (proj1 (unix_refreshed_path_is_in_path (W := Machine) "/snap/bin" bashSession
                  eq_refl)).
Defined.

Lemma unix_addToPath_unknown_shell_witness :
  files (after (UnixEnvironmentManager.addToPath (W := Machine) "/opt/tools/bin")
               dashSession)
  = files dashSession.
Proof.
  apply (unix_addToPath_unknown_shell (W := Machine) "/opt/tools/bin" dashSession).
  - reflexivity.
  - reflexivity.
  - vm_compute. reflexivity.
  - vm_compute. reflexivity.
  - vm_compute. reflexivity.
Defined.

Lemma unix_addToPath_mentioned_in_rc_witness :
  result (UnixEnvironmentManager.isInPath (W := Machine) "/opt/tools/bin")
         (after (UnixEnvironmentManager.addToPath "/opt/tools/bin") configuredSession)
  = Ok false.
Proof.
  apply (unix_addToPath_mentioned_in_rc (W := Machine) "/opt/tools/bin" configuredSession
           {| shell := bash; configFile := "/home/dev/.bashrc"; si_os := linux |}
           "# see /opt/tools/bin
").
  - reflexivity.
  - reflexivity.
  - reflexivity.
  - reflexivity.
  - vm_compute. reflexivity.
  - reflexivity.
Defined.

Lemma unix_addToPath_write_fails_witness :
  env (after (UnixEnvironmentManager.addToPath (W := Machine) "/opt/tools/bin")
             lockedSession)
  = env lockedSession.
Proof.
  apply (unix_addToPath_write_fails (W := Machine) "/opt/tools/bin" lockedSession
           {| shell := bash; configFile := "/home/dev/.bashrc"; si_os := linux |}).
  - reflexivity.
  - reflexivity.
  - reflexivity.
  - reflexivity.
  - vm_compute. set_solver.
  - intros content Hc. vm_compute in Hc. injection Hc as <-. reflexivity.
Defined.

Lemma windows_setVariable_then_getVariable_witness :
  result (WindowsEnvironmentManager.getVariable (W := Machine) "JAVA_HOME")
         (after (WindowsEnvironmentManager.setVariable (H := machineSys) "JAVA_HOME" "C:\jdk")
                (windowsWith [WindowsEnvironmentManager.setxCommand "JAVA_HOME" "C:\jdk"]))
  = Ok (Some "C:\jdk").
Proof.
  apply (windows_setVariable_then_getVariable (H := machineSys) "JAVA_HOME" "C:\jdk"
           (windowsWith [WindowsEnvironmentManager.setxCommand "JAVA_HOME" "C:\jdk"])
           (ExecOk "ok" EmptyString)
           (world (windowsWith [WindowsEnvironmentManager.setxCommand "JAVA_HOME" "C:\jdk"]))).
  - vm_compute. lia.
  - reflexivity.
Defined.

Lemma windows_removeVariable_then_getVariable_witness :
  result (WindowsEnvironmentManager.getVariable (W := Machine) "PATH")
         (after (WindowsEnvironmentManager.removeVariable (H := machineSys) "PATH")
                (windowsWith [WindowsEnvironmentManager.removeVariableCommand "PATH"]))
  = Ok None.
Proof.
  apply (windows_removeVariable_then_getVariable (H := machineSys) "PATH"
           (windowsWith [WindowsEnvironmentManager.removeVariableCommand "PATH"])
           (ExecOk "ok" EmptyString)
           (world (windowsWith [WindowsEnvironmentManager.removeVariableCommand "PATH"]))).
  reflexivity.
Defined.


Lemma winget_extract_of_built_command_witness :
  WinGetAdapter.extractPackageId (WinGetAdapter.buildInstallCommand "Git.Git")
  = Some "Git.Git".
Proof.
  apply winget_extract_of_built_command.
  - discriminate.
  - reflexivity.
  - reflexivity.
Defined.

Lemma homebrew_found_by_file_witness :
  HomebrewAdapter.isAvailable (H := machineSys) macReady = (Ok true, macReady).
Proof.
  apply (homebrew_found_by_file (H := machineSys) "/opt/homebrew/bin/brew" macReady).
  - left. reflexivity.
  - vm_compute. discriminate.
Defined.

Lemma winget_install_runs_built_command_witness :
  result (WinGetAdapter.install (H := machineSys) git)
         (windowsWith ["winget --version"; WinGetAdapter.buildInstallCommand "Git.Git"])
  = Ok tt.
Proof.
  apply (winget_install_runs_built_command (H := machineSys) git "w"
           "inget install --id Git.Git" "Git.Git"
           (windowsWith ["winget --version"; WinGetAdapter.buildInstallCommand "Git.Git"])
           (ExecOk "ok" EmptyString)
           (world (windowsWith ["winget --version";
                                WinGetAdapter.buildInstallCommand "Git.Git"]))).
  - reflexivity.
  - reflexivity.
  - reflexivity.
  - reflexivity.
  - reflexivity.
Defined.

Lemma linux_snap_install_needs_snap_witness :
  result (LinuxInstaller.install (H := machineSys)
            {| adapterClass := LinuxInstallerC; adapterId := 0 |} vlc) gitInstalled
  = Throw (mkError "Snap não está instalado. Execute: sudo apt install snapd").
Proof.
  apply (linux_snap_install_needs_snap (H := machineSys)
           {| adapterClass := LinuxInstallerC; adapterId := 0 |} vlc "s"
           "udo snap install vlc" gitInstalled failed (world gitInstalled)).
  - reflexivity.
  - reflexivity.
  - reflexivity.
  - reflexivity.
  - reflexivity.
Defined.

Lemma getPackageManager_caches_only_on_success_witness :
  match result (InstallationService.getPackageManager (H := machineSys)) (windowsWith []) with
  | Ok pm =>
      packageManager (after (InstallationService.getPackageManager (H := machineSys))
                            (windowsWith [])) = Some pm
  | Throw _ =>
      packageManager (after (InstallationService.getPackageManager (H := machineSys))
                            (windowsWith [])) = None
  end.
Proof.
  apply (getPackageManager_caches_only_on_success (H := machineSys) (windowsWith [])).
  reflexivity.
Defined.

Lemma install_without_winget_witness :
  commandsOf (trace (after (InstallationService.installTool (H := machineSys) git true)
                           (windowsWith [])))
  = ["winget --version"; "command -v git"].
Proof.
  apply (install_without_winget (H := machineSys) git true (windowsWith [])
           failed failed (world (windowsWith [])) (world (windowsWith []))).
  - reflexivity.
  - reflexivity.
  - reflexivity.
  - reflexivity.
  - reflexivity.
  - reflexivity.
Defined.

Lemma checkTool_of_missing_tool_witness :
  result (HealthCheckService.checkTool (H := machineSys) git) bashSession
  = Ok {| HealthCheckService.tool := git; HealthCheckService.isInstalled := false;
          HealthCheckService.binaryPath := None; HealthCheckService.version := None;
          HealthCheckService.message := "Não instalado ou não encontrado no PATH" |}.
Proof.
  unfold result.
  rewrite (checkTool_of_missing_tool (H := machineSys) git bashSession failed
             (world bashSession) eq_refl eq_refl).
  reflexivity.
Defined.

End SampleRuns.
